(** * NYC 311 service-request store: temporal values, CSV decoding, record
      population, bulk loading and scan queries.

    A shallow embedding of the C++ sources

      - [src/ServiceRequest.cpp]            (numeric helpers, [fromFields],
                                             [DateTime] with the packed key)
      - [single_thread/ServiceRequest.cpp]  ([DateTime] compared field by field)
      - [src/CsvReader.cpp]                 ([parseLine], [readAll])
      - [src/NYC311Analyzer.cpp]            ([cleanString], [parseCSVLine],
                                             [loadData], [filterByDateRange])
      - [multi-thread/src/DataStore.cpp]    (the pointer-returning filters)
      - the global-state driver             ([loadData] with [RECORD_LIMIT],
                                             [filterByCreatedDateRange])

    Conventions.  A [std::string] is a [string]; a [std::vector] is a [list];
    fixed-width integers are [Z] with the conversion of every
    [static_cast] written out ([wrap], [swrap]); [double] is the kernel's
    binary64 [float].  The C library routines the code calls ([strtoul],
    [strtol], [strtoull], [sscanf], [snprintf]) are modelled from ISO C for
    an LP64 target (the drivers include [<mach/mach.h>]); [strtod] is a
    parameter of the development. *)

From Stdlib Require Import ZArith List Bool Lia Ascii String Floats.
Import ListNotations.

Open Scope string_scope.
Open Scope list_scope.
Open Scope Z_scope.

(** String concatenation, kept apart from the list one. *)
Infix "+++" := String.append (right associativity, at level 60).

(* ------------------------------------------------------------------------- *)
(** ** Fixed-width integers *)

(** [static_cast<uintW_t>(x)]. *)
Definition wrap (w : Z) (x : Z) : Z := x mod 2 ^ w.

(** [static_cast<intW_t>(x)] (two's complement). *)
Definition swrap (w : Z) (x : Z) : Z :=
  (x + 2 ^ (w - 1)) mod 2 ^ w - 2 ^ (w - 1).

Definition LONG_BITS : Z := 64.
Definition ULONG_MAX : Z := 2 ^ LONG_BITS - 1.
Definition LONG_MAX : Z := 2 ^ (LONG_BITS - 1) - 1.
Definition LONG_MIN : Z := - 2 ^ (LONG_BITS - 1).

(* ------------------------------------------------------------------------- *)
(** ** Characters *)

Definition dquote : ascii := "034"%char.
Definition CR : ascii := "013"%char.
Definition LF : ascii := "010"%char.
Definition NUL : ascii := "000"%char.

Definition code (c : ascii) : Z := Z.of_nat (nat_of_ascii c).

(** [isspace] in the C locale: space, and [\t \n \v \f \r]. *)
Definition isspace (c : ascii) : bool :=
  (code c =? 32) || ((9 <=? code c) && (code c <=? 13)).

Definition isdigit (c : ascii) : bool :=
  (48 <=? code c) && (code c <=? 57).

Definition digit_val (c : ascii) : Z := code c - 48.

Definition digit_char (d : Z) : ascii := ascii_of_nat (Z.to_nat (48 + d)).

(** The one-character string. *)
Definition str1 (c : ascii) : string := String c EmptyString.

(** [s.c_str()] as a C routine reads it: the characters before the first
    [NUL]. *)
Fixpoint c_str (s : string) : string :=
  match s with
  | EmptyString => EmptyString
  | String c r => if Ascii.eqb c NUL then EmptyString else String c (c_str r)
  end.

(* ------------------------------------------------------------------------- *)
(** ** The C library: integer conversion *)

Module Libc.

Fixpoint skip_space (s : string) : string :=
  match s with
  | String c r => if isspace c then skip_space r else s
  | EmptyString => s
  end.

(** The longest run of decimal digits, accumulated most significant
    digit first; the exact value, before any clamping. *)
Fixpoint scan_digits (acc : Z) (s : string) : Z * string :=
  match s with
  | String c r =>
      if isdigit c then scan_digits (10 * acc + digit_val c) r else (acc, s)
  | EmptyString => (acc, s)
  end.

(** The subject sequence of [strtol]/[strtoul] for base 10: optional
    white space, an optional sign, at least one digit.  [None] is "no
    conversion is performed" (the routine returns 0 and stores [nptr] in
    [*endptr]); otherwise the sign, the exact magnitude and the rest. *)
Definition subject (s : string) : option (bool * Z * string) :=
  let s1 := skip_space s in
  let '(neg, s2) :=
    match s1 with
    | String c r =>
        if Ascii.eqb c "-" then (true, r)
        else if Ascii.eqb c "+" then (false, r)
        else (false, s1)
    | EmptyString => (false, s1)
    end in
  match s2 with
  | String c _ =>
      if isdigit c
      then let '(v, rest) := scan_digits 0 s2 in Some (neg, v, rest)
      else None
  | EmptyString => None
  end.

(** [strtoul(s, &end, 10)]: a magnitude above [ULONG_MAX] gives
    [ULONG_MAX]; otherwise the value, negated in the unsigned type after
    a minus sign.  With it the rest of the input, which [end] points at. *)
Definition strtoul_rest (s : string) : option (Z * string) :=
  match subject s with
  | None => None
  | Some (neg, v, rest) =>
      Some (if ULONG_MAX <? v then ULONG_MAX
            else if neg then wrap LONG_BITS (- v) else v, rest)
  end.

Definition strtoul (s : string) : option Z := option_map fst (strtoul_rest s).

(** [unsigned long long] is 64 bits wide as well. *)
Definition strtoull (s : string) : option Z := strtoul s.

(** [strtol(s, &end, 10)]: clamped to [LONG_MIN .. LONG_MAX]. *)
Definition strtol (s : string) : option Z :=
  match subject s with
  | None => None
  | Some (neg, v, _) =>
      let x := if neg then - v else v in
      Some (if LONG_MAX <? x then LONG_MAX
            else if x <? LONG_MIN then LONG_MIN else x)
  end.

(** Decimal digits of [n], most significant first, pushed in front of
    [acc]; [fuel] bounds the number of digits. *)
Fixpoint dec_digits (fuel : nat) (n : Z) (acc : string) : string :=
  match fuel with
  | O => acc
  | S f =>
      let acc' := String (digit_char (n mod 10)) acc in
      if n <? 10 then acc' else dec_digits f (n / 10) acc'
  end.

(** What [%u] prints for [n >= 0]. *)
Definition utoa (n : Z) : string :=
  dec_digits (S (Z.to_nat (Z.log2 n))) n EmptyString.

Fixpoint zeros (k : nat) : string :=
  match k with
  | O => EmptyString
  | S k' => String "0" (zeros k')
  end.

(** [%0wu]. *)
Definition fmt_u (w : nat) (n : Z) : string :=
  let s := utoa n in zeros (w - String.length s)%nat +++ s.

End Libc.

(* ------------------------------------------------------------------------- *)
(** ** The C library: [sscanf] directives *)

(** A scanner consumes a prefix of the input and fails on a matching or input
    failure; [sscanf] then stops and returns the number of items assigned so
    far. *)
Definition Scan (A : Type) : Type := string -> option (A * string).

Definition scan_bind {A B} (m : Scan A) (k : A -> Scan B) : Scan B :=
  fun s => match m s with
           | Some (a, s') => k a s'
           | None => None
           end.

Definition scan_ret {A} (a : A) : Scan A := fun s => Some (a, s).

Notation "x <- m ;; k" := (scan_bind m (fun x => k))
  (at level 61, m at next level, right associativity).
Notation "m ;;; k" := (scan_bind m (fun _ => k))
  (at level 61, right associativity).

Module Scanf.

(** [%u] into an [unsigned]: the subject sequence of [strtoul], the value
    reduced to 32 bits. *)
Definition conv_u : Scan Z :=
  fun s => match Libc.strtoul_rest s with
           | Some (v, rest) => Some (wrap 32 v, rest)
           | None => None
           end.

(** An ordinary character of the format. *)
Definition lit (c : ascii) : Scan unit :=
  fun s => match s with
           | String c' r => if Ascii.eqb c' c then Some (tt, r) else None
           | EmptyString => None
           end.

(** A white-space directive: any amount of white space, also none. *)
Definition white : Scan unit := fun s => Some (tt, Libc.skip_space s).

(** [%2s]: white space is skipped, then at most two characters that are
    not white space are stored; an input failure when there is none. *)
Definition conv_2s : Scan string :=
  fun s => match Libc.skip_space s with
           | String a r =>
               match r with
               | String b r' =>
                   if isspace b then Some (str1 a, r)
                   else Some (String a (str1 b), r')
               | EmptyString => Some (str1 a, r)
               end
           | EmptyString => None
           end.

(** [sscanf] with the format [%u/%u/%u %u:%u:%u %2s]: [Some] when all seven items
    were assigned ([n = 7]), [None] when [n < 7]. *)
Definition datetime : Scan (Z * Z * Z * Z * Z * Z * string) :=
  mm <- conv_u ;; lit "/" ;;;
  dd <- conv_u ;; lit "/" ;;;
  yyyy <- conv_u ;; white ;;;
  hh <- conv_u ;; lit ":" ;;;
  mi <- conv_u ;; lit ":" ;;;
  ss <- conv_u ;; white ;;;
  ampm <- conv_2s ;;
  scan_ret (mm, dd, yyyy, hh, mi, ss, ampm).

End Scanf.

(** [snprintf(buf, size, ...)] keeps at most [size - 1] characters. *)
Definition snprintf (size : nat) (s : string) : string :=
  substring 0 (size - 1) s.

(* ------------------------------------------------------------------------- *)
(** ** DateTime *)

Record DateTime : Type := mkDateTime {
  year   : Z;   (* uint16_t *)
  month  : Z;   (* uint8_t  *)
  day    : Z;   (* uint8_t  *)
  hour   : Z;   (* uint8_t  *)
  minute : Z;   (* uint8_t  *)
  second : Z;   (* uint8_t  *)
  valid  : bool
}.

(** The default member initialisers: all fields zero, not valid. *)
Definition DateTime_default : DateTime := mkDateTime 0 0 0 0 0 0 false.

(** The values the field types can hold. *)
Definition in_range (d : DateTime) : Prop :=
  0 <= year d < 2 ^ 16 /\ 0 <= month d < 2 ^ 8 /\ 0 <= day d < 2 ^ 8 /\
  0 <= hour d < 2 ^ 8 /\ 0 <= minute d < 2 ^ 8 /\ 0 <= second d < 2 ^ 8.

(** [to24h]: the result is converted back to [uint8_t]. *)
Definition to24h (h : Z) (isPM : bool) : Z :=
  if negb isPM then (if h =? 12 then 0 else h)
  else (if h =? 12 then 12 else wrap 8 (h + 12)).

(** [ampm[0] == 'P' || ampm[0] == 'p']. *)
Definition isPM (ampm : string) : bool :=
  match ampm with
  | String c _ => Ascii.eqb c "P" || Ascii.eqb c "p"
  | EmptyString => false
  end.

(** [DateTime::parse(s.c_str(), s.size())]. *)
Definition parse (s : string) : DateTime :=
  let dt := DateTime_default in
  if (String.length s <? 11)%nat then dt
  else
    match Scanf.datetime (c_str s) with
    | None => dt
    | Some ((mm, dd, yyyy, hh, mi, ss, ampm), _) =>
        mkDateTime (wrap 16 yyyy) (wrap 8 mm) (wrap 8 dd)
                   (to24h (wrap 8 hh) (isPM ampm))
                   (wrap 8 mi) (wrap 8 ss) true
    end.

Definition shl64 (x n : Z) : Z := wrap 64 (Z.shiftl (wrap 64 x) n).

(** [DateTime::toKey]. *)
Definition toKey (d : DateTime) : Z :=
  Z.lor (Z.lor (Z.lor (Z.lor (Z.lor
    (shl64 (year d) 40)
    (shl64 (month d) 32))
    (shl64 (day d) 24))
    (shl64 (hour d) 16))
    (shl64 (minute d) 8))
    (wrap 64 (second d)).

(** [DateTime::toString]. *)
Definition toString (d : DateTime) : string :=
  if negb (valid d) then "(invalid)"
  else snprintf 20
         (Libc.fmt_u 4 (year d) +++ "-" +++ Libc.fmt_u 2 (month d) +++ "-" +++
          Libc.fmt_u 2 (day d) +++ " " +++ Libc.fmt_u 2 (hour d) +++ ":" +++
          Libc.fmt_u 2 (minute d) +++ ":" +++ Libc.fmt_u 2 (second d)).

(** The comparison operators.  The two translation units define [operator==]
    and [operator<] differently and derive the other four the same way. *)
Class DateTimeOps : Type := {
  op_eq : DateTime -> DateTime -> bool;
  op_lt : DateTime -> DateTime -> bool
}.

Definition op_ne `{DateTimeOps} (a o : DateTime) : bool := negb (op_eq a o).
Definition op_le `{DateTimeOps} (a o : DateTime) : bool := negb (op_lt o a).
Definition op_gt `{DateTimeOps} (a o : DateTime) : bool := op_lt o a.
Definition op_ge `{DateTimeOps} (a o : DateTime) : bool := negb (op_lt a o).

(** [src/ServiceRequest.cpp]: through the packed key. *)
Module PackedKey.

Definition eq (a o : DateTime) : bool :=
  if negb (Bool.eqb (valid a) (valid o)) then false
  else toKey a =? toKey o.

Definition lt (a o : DateTime) : bool :=
  if negb (valid a) && negb (valid o) then false
  else if negb (valid a) then true
  else if negb (valid o) then false
  else toKey a <? toKey o.

#[export] Instance ops : DateTimeOps := {| op_eq := eq; op_lt := lt |}.

End PackedKey.

(** [single_thread/ServiceRequest.cpp]: field by field. *)
Module FieldByField.

Definition eq (a o : DateTime) : bool :=
  if negb (Bool.eqb (valid a) (valid o)) then false
  else (year a =? year o) && (month a =? month o) && (day a =? day o) &&
       (hour a =? hour o) && (minute a =? minute o) && (second a =? second o).

Definition lt (a o : DateTime) : bool :=
  if negb (valid a) && negb (valid o) then false
  else if negb (valid a) then true
  else if negb (valid o) then false
  else if negb (year a =? year o) then year a <? year o
  else if negb (month a =? month o) then month a <? month o
  else if negb (day a =? day o) then day a <? day o
  else if negb (hour a =? hour o) then hour a <? hour o
  else if negb (minute a =? minute o) then minute a <? minute o
  else second a <? second o.

#[export] Instance ops : DateTimeOps := {| op_eq := eq; op_lt := lt |}.

End FieldByField.

(* ------------------------------------------------------------------------- *)
(** ** ServiceRequest *)

Record ServiceRequest : Type := mkServiceRequest {
  uniqueKey : Z;                      (* uint64_t, col 0 *)
  createdDate : DateTime;             (* col 1 *)
  closedDate : DateTime;              (* col 2 *)
  dueDate : DateTime;                 (* col 21 *)
  resolutionUpdatedDate : DateTime;   (* col 23 *)
  agency : string;                    (* col 3 *)
  agencyName : string;                (* col 4 *)
  complaintType : string;             (* col 5 *)
  descriptor : string;                (* col 6 *)
  additionalDetails : string;         (* col 7 *)
  locationType : string;              (* col 8 *)
  incidentZip : Z;                    (* uint32_t, col 9 *)
  incidentAddress : string;           (* col 10 *)
  streetName : string;                (* col 11 *)
  crossStreet1 : string;              (* col 12 *)
  crossStreet2 : string;              (* col 13 *)
  intersectionStreet1 : string;       (* col 14 *)
  intersectionStreet2 : string;       (* col 15 *)
  addressType : string;               (* col 16 *)
  city : string;                      (* col 17 *)
  landmark : string;                  (* col 18 *)
  facilityType : string;              (* col 19 *)
  status : string;                    (* col 20 *)
  resolutionDescription : string;     (* col 22 *)
  communityBoard : string;            (* col 24 *)
  councilDistrict : Z;                (* int16_t, col 25 *)
  policePrecinct : string;            (* col 26 *)
  bbl : Z;                            (* uint64_t, col 27 *)
  borough : string;                   (* col 28 *)
  xCoordinate : Z;                    (* int32_t, col 29 *)
  yCoordinate : Z;                    (* int32_t, col 30 *)
  latitude : float;                   (* double, col 41 *)
  longitude : float;                  (* double, col 42 *)
  channelType : string;               (* col 31 *)
  parkFacilityName : string;          (* col 32 *)
  parkBorough : string;               (* col 33 *)
  vehicleType : string;               (* col 34 *)
  taxiCompanyBorough : string;        (* col 35 *)
  taxiPickupLocation : string;        (* col 36 *)
  bridgeHighwayName : string;         (* col 37 *)
  bridgeHighwayDirection : string;    (* col 38 *)
  roadRamp : string;                  (* col 39 *)
  bridgeHighwaySegment : string       (* col 40 *)
}.

(** A default-constructed [ServiceRequest]. *)
Definition ServiceRequest_default : ServiceRequest :=
  {| uniqueKey := 0;
     createdDate := DateTime_default; closedDate := DateTime_default;
     dueDate := DateTime_default; resolutionUpdatedDate := DateTime_default;
     agency := ""; agencyName := ""; complaintType := ""; descriptor := "";
     additionalDetails := ""; locationType := ""; incidentZip := 0;
     incidentAddress := ""; streetName := ""; crossStreet1 := "";
     crossStreet2 := ""; intersectionStreet1 := ""; intersectionStreet2 := "";
     addressType := ""; city := ""; landmark := ""; facilityType := "";
     status := ""; resolutionDescription := ""; communityBoard := "";
     councilDistrict := -1; policePrecinct := ""; bbl := 0; borough := "";
     xCoordinate := 0; yCoordinate := 0;
     latitude := 0%float; longitude := 0%float;
     channelType := ""; parkFacilityName := ""; parkBorough := "";
     vehicleType := ""; taxiCompanyBorough := ""; taxiPickupLocation := "";
     bridgeHighwayName := ""; bridgeHighwayDirection := ""; roadRamp := "";
     bridgeHighwaySegment := "" |}.

(** [s.empty()]. *)
Definition empty (s : string) : bool :=
  match s with EmptyString => true | String _ _ => false end.

Definition parseZip (s : string) : Z :=
  if empty s then 0
  else match Libc.strtoul (c_str s) with
       | None => 0
       | Some v => wrap 32 v
       end.

Definition parseInt16 (s : string) : Z :=
  if empty s then -1
  else match Libc.strtol (c_str s) with
       | None => -1
       | Some v => swrap 16 v
       end.

Definition parseU64 (s : string) : Z :=
  if empty s then 0
  else match Libc.strtoull (c_str s) with
       | None => 0
       | Some v => wrap 64 v
       end.

Definition parseInt32 (s : string) : Z :=
  if empty s then 0
  else match Libc.strtol (c_str s) with
       | None => 0
       | Some v => swrap 32 v
       end.

(** [f[i]], read under the size guard of [fromFields]. *)
Definition col (f : list string) (i : nat) : string := nth i f "".

Section Population.

(** [strtod] of the C library: the converted value, or [None] when no
    conversion is performed ([end == nptr]). *)
Variable strtod : string -> option float.

Definition parseDouble (s : string) : float :=
  if empty s then 0%float
  else match strtod (c_str s) with
       | None => 0%float
       | Some v => v
       end.

(** [ServiceRequest::fromFields]: the outcome and the receiver after the
    call. *)
Definition fromFields (f : list string) (this : ServiceRequest)
  : bool * ServiceRequest :=
  if (List.length f <? 43)%nat then (false, this)
  else
    (true,
     {| uniqueKey := parseU64 (col f 0);
        createdDate := parse (col f 1);
        closedDate := parse (col f 2);
        agency := col f 3;
        agencyName := col f 4;
        complaintType := col f 5;
        descriptor := col f 6;
        additionalDetails := col f 7;
        locationType := col f 8;
        incidentZip := parseZip (col f 9);
        incidentAddress := col f 10;
        streetName := col f 11;
        crossStreet1 := col f 12;
        crossStreet2 := col f 13;
        intersectionStreet1 := col f 14;
        intersectionStreet2 := col f 15;
        addressType := col f 16;
        city := col f 17;
        landmark := col f 18;
        facilityType := col f 19;
        status := col f 20;
        dueDate := parse (col f 21);
        resolutionDescription := col f 22;
        resolutionUpdatedDate := parse (col f 23);
        communityBoard := col f 24;
        councilDistrict := parseInt16 (col f 25);
        policePrecinct := col f 26;
        bbl := parseU64 (col f 27);
        borough := col f 28;
        xCoordinate := parseInt32 (col f 29);
        yCoordinate := parseInt32 (col f 30);
        channelType := col f 31;
        parkFacilityName := col f 32;
        parkBorough := col f 33;
        vehicleType := col f 34;
        taxiCompanyBorough := col f 35;
        taxiPickupLocation := col f 36;
        bridgeHighwayName := col f 37;
        bridgeHighwayDirection := col f 38;
        roadRamp := col f 39;
        bridgeHighwaySegment := col f 40;
        latitude := parseDouble (col f 41);
        longitude := parseDouble (col f 42) |}).

End Population.

(* ------------------------------------------------------------------------- *)
(** ** Containers and streams *)

Definition push_back {A} (v : list A) (x : A) : list A := v ++ [x].

(** [current += c]. *)
Definition append_char (s : string) (c : ascii) : string := s +++ str1 c.

(** [s.back()] and [s.pop_back()]. *)
Fixpoint back (s : string) : option ascii :=
  match s with
  | EmptyString => None
  | String c EmptyString => Some c
  | String _ r => back r
  end.

Fixpoint pop_back (s : string) : string :=
  match s with
  | EmptyString => EmptyString
  | String _ EmptyString => EmptyString
  | String c r => String c (pop_back r)
  end.

(** The lines successive [std::getline] calls extract from a stream with the
    given content, until the call fails: a line ends at [LF] (consumed, not
    stored) or at the end of the content, and a call that extracts nothing at
    the end of the content fails.  [cur] is the line being extracted and
    [some] tells whether anything was extracted for it. *)
Fixpoint getlines_from (cur : string) (some : bool) (content : string)
  : list string :=
  match content with
  | EmptyString => if some then [cur] else []
  | String c r =>
      if Ascii.eqb c LF then cur :: getlines_from EmptyString false r
      else getlines_from (append_char cur c) true r
  end.

Definition getlines (content : string) : list string :=
  getlines_from EmptyString false content.

(* ------------------------------------------------------------------------- *)
(** ** Comparing text without regard to case *)

(** [std::tolower] and [std::toupper] in the C locale: only the 26 letters
    change. *)
Definition tolower (c : ascii) : ascii :=
  if (65 <=? code c) && (code c <=? 90)
  then ascii_of_nat (Z.to_nat (code c + 32)) else c.

Definition toupper (c : ascii) : ascii :=
  if (97 <=? code c) && (code c <=? 122)
  then ascii_of_nat (Z.to_nat (code c - 32)) else c.

(** [for (auto& c : s) c = f(c)]. *)
Fixpoint map_chars (f : ascii -> ascii) (s : string) : string :=
  match s with
  | EmptyString => EmptyString
  | String c r => String (f c) (map_chars f r)
  end.

(** The loop of [iequal], entered with [a.size() == b.size()]. *)
Fixpoint iequal_loop (a b : string) : bool :=
  match a, b with
  | String x a', String y b' =>
      if negb (Ascii.eqb (tolower x) (tolower y)) then false
      else iequal_loop a' b'
  | _, _ => true
  end.

(** [iequal] of [DataStore.cpp] and of [NYC311Analyzer.cpp]. *)
Definition iequal (a b : string) : bool :=
  if negb (String.length a =? String.length b)%nat then false
  else iequal_loop a b.

(** Whether the pattern matches at the start of the text, element by
    element under [pred]. *)
Fixpoint match_at (pred : ascii -> ascii -> bool) (text pat : string)
         {struct pat} : bool :=
  match pat with
  | EmptyString => true
  | String y pat' =>
      match text with
      | String x text' => pred x y && match_at pred text' pat'
      | EmptyString => false
      end
  end.

(** [std::search(first1, last1, first2, last2, pred)] as an offset from
    [first1]: the first position where the pattern matches ([first1] itself
    for an empty pattern), [last1 - first1] when there is none.  [i] is the
    offset of [text] in the whole range. *)
Fixpoint search_from (pred : ascii -> ascii -> bool) (text pat : string)
         (i : nat) : nat :=
  if match_at pred text pat then i
  else match text with
       | String _ text' => search_from pred text' pat (S i)
       | EmptyString => i
       end.

(** [icontains] of [DataStore.cpp] and of [NYC311Analyzer.cpp]. *)
Definition icontains (haystack needle : string) : bool :=
  if empty needle then true
  else
    let it := search_from (fun a b => Ascii.eqb (tolower a) (tolower b))
                          haystack needle 0 in
    negb (it =? String.length haystack)%nat.

(** [text.find(key)]: the first position where [key] occurs, [None] for
    [npos]. *)
Fixpoint find_from (text key : string) (i : nat) : option nat :=
  if match_at Ascii.eqb text key then Some i
  else match text with
       | String _ text' => find_from text' key (S i)
       | EmptyString => None
       end.

Definition find (text key : string) : option nat := find_from text key 0.

(* ------------------------------------------------------------------------- *)
(** ** CsvReader *)

Module CsvReader.

(** The loop of [parseLine]; [rest] is [line[i..]], and the look-ahead
    [line[i + 1]] is the head of the tail. *)
Fixpoint parseLine_loop (rest : string) (inQuotes : bool) (current : string)
         (fields : list string) : list string :=
  match rest with
  | EmptyString => push_back fields current
  | String c rest' =>
      if inQuotes then
        if Ascii.eqb c dquote then
          match rest' with
          | String c' rest'' =>
              if Ascii.eqb c' dquote
              then parseLine_loop rest'' true (append_char current dquote) fields
              else parseLine_loop rest' false current fields
          | EmptyString => parseLine_loop rest' false current fields
          end
        else parseLine_loop rest' true (append_char current c) fields
      else
        if Ascii.eqb c dquote then parseLine_loop rest' true current fields
        else if Ascii.eqb c "," then
          parseLine_loop rest' false EmptyString (push_back fields current)
        else if Ascii.eqb c CR then parseLine_loop rest' false current fields
        else parseLine_loop rest' false (append_char current c) fields
  end.

(** [CsvReader::parseLine]: the fields it leaves in [fields]. *)
Definition parseLine (line : string) : list string :=
  parseLine_loop line false EmptyString [].

(** The reader: the lines [file_] still holds ([None] when it is not
    open) and the two counters. *)
Record t : Type := mk {
  file_ : option (list string);
  skipped_ : Z;
  total_ : Z
}.

(** [CsvReader::open]; [content] is what the path holds, [None] when it
    cannot be opened. *)
Definition open (content : option string) : bool * t :=
  match content with
  | None => (false, mk None 0 0)
  | Some c => (true, mk (Some (tl (getlines c))) 0 0)
  end.

Definition close (rd : t) : t := mk None (skipped_ rd) (total_ rd).

Section Load.

Variable strtod : string -> option float.

(** The [while (std::getline(file_, line))] loop of [readAll]; [rec] is
    the record object reused across rows. *)
Fixpoint readAll_loop (lines : list string) (rec : ServiceRequest)
         (total skipped : Z) (out : list ServiceRequest)
  : Z * Z * list ServiceRequest :=
  match lines with
  | [] => (total, skipped, out)
  | line :: lines' =>
      if empty line then readAll_loop lines' rec total skipped out
      else
        let total := total + 1 in
        let fields := parseLine line in
        let '(ok, rec) := fromFields strtod fields rec in
        if negb ok then readAll_loop lines' rec total (skipped + 1) out
        else readAll_loop lines' rec total skipped (push_back out rec)
  end.

(** [CsvReader::readAll]: the reader and [out] after the call, and the
    returned [out.size()]. *)
Definition readAll (rd : t) (out : list ServiceRequest)
  : t * list ServiceRequest * Z :=
  match file_ rd with
  | None => (rd, out, 0)
  | Some lines =>
      let '(total, skipped, out) :=
        readAll_loop lines ServiceRequest_default
                     (total_ rd) (skipped_ rd) out in
      (mk (Some []) skipped total, out, Z.of_nat (List.length out))
  end.

(** The loop of [readChunk]; the callback acts on a state of the caller,
    and every row gets a fresh record object. *)
Fixpoint readChunk_loop {S : Type} (cb : ServiceRequest -> S -> S)
         (lines : list string) (total skipped : Z) (s : S) : Z * Z * S :=
  match lines with
  | [] => (total, skipped, s)
  | line :: lines' =>
      if empty line then readChunk_loop cb lines' total skipped s
      else
        let total := total + 1 in
        let fields := parseLine line in
        let '(ok, rec) := fromFields strtod fields ServiceRequest_default in
        if negb ok then readChunk_loop cb lines' total (skipped + 1) s
        else readChunk_loop cb lines' total skipped (cb rec s)
  end.

(** [CsvReader::readChunk]: the reader and the caller's state after the
    call, and the returned [total_]. *)
Definition readChunk {S : Type} (cb : ServiceRequest -> S -> S)
           (rd : t) (s : S) : t * S * Z :=
  match file_ rd with
  | None => (rd, s, 0)
  | Some lines =>
      let '(total, skipped, s) :=
        readChunk_loop cb lines (total_ rd) (skipped_ rd) s in
      (mk (Some []) skipped total, s, total)
  end.

End Load.

End CsvReader.

(* ------------------------------------------------------------------------- *)
(** ** NYC311Analyzer *)

Module NYC311Analyzer.

(** [cleanString]: strips one leading and one trailing double quote. *)
Definition cleanString (str : string) : string :=
  let cleaned := str in
  let cleaned :=
    match cleaned with
    | String c r => if Ascii.eqb c dquote then r else cleaned
    | EmptyString => cleaned
    end in
  match back cleaned with
  | Some c => if Ascii.eqb c dquote then pop_back cleaned else cleaned
  | None => cleaned
  end.

Fixpoint parseCSVLine_loop (rest : string) (inQuotes : bool)
         (current : string) (fields : list string) : list string :=
  match rest with
  | EmptyString => push_back fields (cleanString current)
  | String c rest' =>
      if inQuotes then
        if Ascii.eqb c dquote then
          match rest' with
          | String c' rest'' =>
              if Ascii.eqb c' dquote
              then parseCSVLine_loop rest'' true (append_char current dquote) fields
              else parseCSVLine_loop rest' false current fields
          | EmptyString => parseCSVLine_loop rest' false current fields
          end
        else parseCSVLine_loop rest' true (append_char current c) fields
      else
        if Ascii.eqb c dquote then parseCSVLine_loop rest' true current fields
        else if Ascii.eqb c "," then
          parseCSVLine_loop rest' false EmptyString
                            (push_back fields (cleanString current))
        else if Ascii.eqb c CR then parseCSVLine_loop rest' false current fields
        else parseCSVLine_loop rest' false (append_char current c) fields
  end.

(** [NYC311Analyzer::parseCSVLine], also the free [parseCSVLine] of the
    global-state driver. *)
Definition parseCSVLine (line : string) : list string :=
  parseCSVLine_loop line false EmptyString [].

Section Load.

Variable strtod : string -> option float.

Fixpoint loadData_loop (lines : list string) (lineCount skipCount : Z)
         (records : list ServiceRequest) : Z * Z * list ServiceRequest :=
  match lines with
  | [] => (lineCount, skipCount, records)
  | line :: lines' =>
      if empty line then loadData_loop lines' lineCount skipCount records
      else
        let lineCount := lineCount + 1 in
        let fields := parseCSVLine line in
        let '(ok, record) := fromFields strtod fields ServiceRequest_default in
        if ok then loadData_loop lines' lineCount skipCount (push_back records record)
        else loadData_loop lines' lineCount (skipCount + 1) records
  end.

(** [NYC311Analyzer::loadData]: the member [records] after the call,
    with the two local counters it prints. *)
Definition loadData (content : option string)
           (records : list ServiceRequest) : Z * Z * list ServiceRequest :=
  match content with
  | None => (0, 0, records)
  | Some c => loadData_loop (tl (getlines c)) 0 0 records
  end.

End Load.

Section Queries.

Context `{DateTimeOps}.

(** [NYC311Analyzer::filterByDateRange]. *)
Definition filterByDateRange (records : list ServiceRequest)
           (start end_ : DateTime) : list ServiceRequest :=
  fold_left
    (fun results record =>
       if valid (createdDate record) &&
          op_ge (createdDate record) start &&
          op_le (createdDate record) end_
       then push_back results record else results)
    records [].

End Queries.

End NYC311Analyzer.

(* ------------------------------------------------------------------------- *)
(** ** DataStore *)

(** A [QueryResult] is a vector of pointers into [records_]; the store is
    not modified while a result is alive, so a pointer is modelled by the
    record it points at. *)
Module DataStore.

Section Load.

Variable strtod : string -> option float.

(** [DataStore::load]: the reader and [records_] after the call, and the
    returned count. *)
Definition load (content : option string)
  : CsvReader.t * list ServiceRequest * Z :=
  let records_ := [] in
  let '(ok, reader_) := CsvReader.open content in
  if negb ok then (reader_, records_, 0)
  else
    let '(reader_, records_, n) := CsvReader.readAll strtod reader_ records_ in
    (CsvReader.close reader_, records_, n).

End Load.

Section Queries.

Context `{DateTimeOps}.

(** [DataStore::filterByCreatedDateRange]. *)
Definition filterByCreatedDateRange (records_ : list ServiceRequest)
           (start end_ : DateTime) : list ServiceRequest :=
  fold_left
    (fun result r =>
       if valid (createdDate r) &&
          op_ge (createdDate r) start &&
          op_le (createdDate r) end_
       then push_back result r else result)
    records_ [].

End Queries.

(** [DataStore::filterByLatLonBox]. *)
Definition filterByLatLonBox (records_ : list ServiceRequest)
           (minLat maxLat minLon maxLon : float) : list ServiceRequest :=
  fold_left
    (fun result r =>
       if PrimFloat.leb minLat (latitude r) &&
          PrimFloat.leb (latitude r) maxLat &&
          PrimFloat.leb minLon (longitude r) &&
          PrimFloat.leb (longitude r) maxLon
       then push_back result r else result)
    records_ [].

(** [DataStore::skippedRows], for the reader the store holds. *)
Definition skippedRows (reader_ : CsvReader.t) : Z := CsvReader.skipped_ reader_.

(** [DataStore::filterByBorough]. *)
Definition filterByBorough (records_ : list ServiceRequest) (borough_ : string)
  : list ServiceRequest :=
  fold_left
    (fun result r =>
       if iequal (borough r) borough_ then push_back result r else result)
    records_ [].

(** [DataStore::filterByAgency]. *)
Definition filterByAgency (records_ : list ServiceRequest) (agency_ : string)
  : list ServiceRequest :=
  fold_left
    (fun result r =>
       if iequal (agency r) agency_ then push_back result r else result)
    records_ [].

(** [DataStore::filterByComplaintType]. *)
Definition filterByComplaintType (records_ : list ServiceRequest)
           (keyword : string) : list ServiceRequest :=
  fold_left
    (fun result r =>
       if icontains (complaintType r) keyword then push_back result r
       else result)
    records_ [].

(** [DataStore::filterByStatus]. *)
Definition filterByStatus (records_ : list ServiceRequest) (status_ : string)
  : list ServiceRequest :=
  fold_left
    (fun result r =>
       if iequal (status r) status_ then push_back result r else result)
    records_ [].

(** [DataStore::filterByZip]. *)
Definition filterByZip (records_ : list ServiceRequest) (zip : Z)
  : list ServiceRequest :=
  fold_left
    (fun result r =>
       if incidentZip r =? zip then push_back result r else result)
    records_ [].

(** [DataStore::filterByCouncilDistrict]. *)
Definition filterByCouncilDistrict (records_ : list ServiceRequest)
           (district : Z) : list ServiceRequest :=
  fold_left
    (fun result r =>
       if councilDistrict r =? district then push_back result r else result)
    records_ [].

End DataStore.

(* ------------------------------------------------------------------------- *)
(** ** The global-state driver *)

(** The translation unit that keeps the dataset in [g_records] and reads it
    from free functions; [g_records] is passed explicitly. *)
Module Driver.

Definition RECORD_LIMIT : Z := 16000000.

(** What [loadData] leaves: the records it returns, its two counters and
    the line numbers it reports as malformed on [std::cerr]. *)
Record loaded : Type := mkLoaded {
  records : list ServiceRequest;
  lineCount : Z;
  validRecords : Z;
  malformed : list Z
}.

Section Load.

Variable strtod : string -> option float.

(** The data-line loop; it returns as soon as [break] is reached. *)
Fixpoint loadData_loop (lines : list string) (st : loaded) : loaded :=
  match lines with
  | [] => st
  | line :: lines' =>
      let lineCount := lineCount st + 1 in
      let fields := NYC311Analyzer.parseCSVLine line in
      let '(ok, req) := fromFields strtod fields ServiceRequest_default in
      if ok then
        let records := push_back (records st) req in
        let validRecords := validRecords st + 1 in
        let st := mkLoaded records lineCount validRecords (malformed st) in
        if RECORD_LIMIT <=? validRecords then st
        else loadData_loop lines' st
      else
        loadData_loop lines'
          (mkLoaded (records st) lineCount (validRecords st)
                    (push_back (malformed st) lineCount))
  end.

(** [loadData(filename)]. *)
Definition loadData (content : option string) : loaded :=
  match content with
  | None => mkLoaded [] 0 0 []
  | Some c =>
      match getlines c with
      | [] => mkLoaded [] 0 0 []
      | _header :: lines => loadData_loop lines (mkLoaded [] 1 0 [])
      end
  end.

End Load.

Section Queries.

Context `{DateTimeOps}.

(** [filterByCreatedDateRange] over [g_records]. *)
Definition filterByCreatedDateRange (g_records : list ServiceRequest)
           (start end_ : DateTime) : list ServiceRequest :=
  fold_left
    (fun out r =>
       if op_ge (createdDate r) start && op_le (createdDate r) end_
       then push_back out r else out)
    g_records [].

End Queries.

(** [filterByLatLonBox] over [g_records]. *)
Definition filterByLatLonBox (g_records : list ServiceRequest)
           (minLat maxLat minLon maxLon : float) : list ServiceRequest :=
  fold_left
    (fun out r =>
       if PrimFloat.leb minLat (latitude r) &&
          PrimFloat.leb (latitude r) maxLat &&
          PrimFloat.leb minLon (longitude r) &&
          PrimFloat.leb (longitude r) maxLon
       then push_back out r else out)
    g_records [].

(** [filterByBorough] over [g_records]: both sides are upper-cased, and a
    record with an empty borough is never compared. *)
Definition filterByBorough (g_records : list ServiceRequest) (borough_ : string)
  : list ServiceRequest :=
  fold_left
    (fun out r =>
       if negb (empty (borough r)) then
         let b := map_chars toupper (borough r) in
         let t := map_chars toupper borough_ in
         if String.eqb b t then push_back out r else out
       else out)
    g_records [].

(** [searchByComplaint] over [g_records]. *)
Definition searchByComplaint (g_records : list ServiceRequest)
           (keyword : string) : list ServiceRequest :=
  let key := map_chars tolower keyword in
  fold_left
    (fun out r =>
       let comp := map_chars tolower (complaintType r) in
       match find comp key with
       | Some _ => push_back out r
       | None => out
       end)
    g_records [].

End Driver.

(* ------------------------------------------------------------------------- *)
(** ** Notions the properties are stated with *)

(** The rank both orderings compare valid values by. *)
Definition rank (d : DateTime) : Z :=
  year d * 2 ^ 40 + month d * 2 ^ 32 + day d * 2 ^ 24 +
  hour d * 2 ^ 16 + minute d * 2 ^ 8 + second d.

(** What a strict total order asks of [op_lt] and [op_eq] at three values. *)
Definition strict_total_at (O : DateTimeOps) (a b c : DateTime) : Prop :=
  @op_lt O a a = false /\
  (@op_lt O a b = true -> @op_lt O b c = true -> @op_lt O a c = true) /\
  ((@op_lt O a b = true /\ @op_eq O a b = false /\ @op_lt O b a = false) \/
   (@op_lt O a b = false /\ @op_eq O a b = true /\ @op_lt O b a = false) \/
   (@op_lt O a b = false /\ @op_eq O a b = false /\ @op_lt O b a = true)) /\
  (@op_eq O a b = true <-> a = b).

(** An invalid value is below a valid one, and not the other way round. *)
Definition invalid_below (O : DateTimeOps) (i a : DateTime) : Prop :=
  @op_lt O i a = true /\ @op_lt O a i = false /\ @op_eq O i a = false.

(** The input grammar [MM/DD/YYYY HH:MM:SS AM|PM] and the canonical form
    [YYYY-MM-DD HH:MM:SS], written digit by digit. *)
Definition two_digits (n : Z) : string :=
  String (digit_char (n / 10)) (str1 (digit_char (n mod 10))).

Definition four_digits (n : Z) : string :=
  String (digit_char (n / 1000))
    (String (digit_char (n / 100 mod 10))
       (String (digit_char (n / 10 mod 10)) (str1 (digit_char (n mod 10))))).

Definition timestamp (mm dd yyyy hh mi ss : Z) (pm : bool) : string :=
  two_digits mm +++ String "/" (two_digits dd +++ String "/" (
  four_digits yyyy +++ String " " (two_digits hh +++ String ":" (
  two_digits mi +++ String ":" (two_digits ss +++ String " " (
  if pm then "PM" else "AM")))))).

(** 12 AM is 0, 12 PM is 12, other AM hours stay, other PM hours gain 12. *)
Definition hour24 (hh : Z) (pm : bool) : Z :=
  if hh =? 12 then (if pm then 12 else 0)
  else (if pm then hh + 12 else hh).

Definition canonical (yyyy mm dd h mi ss : Z) : string :=
  four_digits yyyy +++ String "-" (two_digits mm +++ String "-" (
  two_digits dd +++ String " " (two_digits h +++ String ":" (
  two_digits mi +++ String ":" (two_digits ss))))).

(** The integers [0 .. k - 1]. *)
Definition Z_below (k : Z) : list Z := map Z.of_nat (seq 0 (Z.to_nat k)).

(** Every character of [s] satisfies [P]. *)
Fixpoint all_chars (P : ascii -> bool) (s : string) : bool :=
  match s with
  | EmptyString => true
  | String c r => P c && all_chars P r
  end.

Definition not_nul (c : ascii) : bool := negb (Ascii.eqb c NUL).

(** A field written the way RFC 4180 quotes it: enclosed in double quotes,
    every double quote of the content doubled; and a row of such fields. *)
Fixpoint escape (f : string) : string :=
  match f with
  | EmptyString => EmptyString
  | String c r =>
      if Ascii.eqb c dquote then String dquote (String dquote (escape r))
      else String c (escape r)
  end.

Definition quoted (f : string) : string :=
  String dquote (escape f +++ str1 dquote).

Fixpoint csv_row (f : string) (fs : list string) : string :=
  match fs with
  | [] => quoted f
  | f' :: fs' => quoted f +++ String "," (csv_row f' fs')
  end.

(** The line  a,Qb,cQ,d  where Q stands for the double quote. *)
Definition line_quoted_comma : string :=
  "a," +++ String dquote ("b,c" +++ String dquote ",d").

(** The line  a,QxQQyQ,b  and the field  xQy  (Q the double quote). *)
Definition line_doubled_quote : string :=
  "a," +++ String dquote ("x" +++ String dquote (String dquote ("y" +++
  String dquote ",b"))).

Definition field_x_quote_y : string := "x" +++ String dquote "y".

(** A field that neither begins nor ends with a double quote. *)
Definition bare (f : string) : bool :=
  match f with
  | String c _ => negb (Ascii.eqb c dquote)
  | EmptyString => true
  end &&
  match back f with
  | Some c => negb (Ascii.eqb c dquote)
  | None => true
  end.

(** No double quote of [s] is followed by another one. *)
Fixpoint no_doubled_quote (s : string) : bool :=
  match s with
  | EmptyString => true
  | String c r =>
      negb (Ascii.eqb c dquote &&
            match r with
            | String c' _ => Ascii.eqb c' dquote
            | EmptyString => false
            end) &&
      no_doubled_quote r
  end.

(** The field  Qx  and the line  QQQxQ  that quotes it (Q the double
    quote). *)
Definition field_quote_x : string := String dquote "x".

Definition line_quote_first : string := quoted field_quote_x.

(** What may follow the closing quote of a field in a row: nothing, or the
    comma before the next field. *)
Definition after_field (tail : string) : Prop :=
  tail = EmptyString \/ exists r, tail = String "," r.

(** A data row of 43 empty fields, and a two-line file that holds it. *)
Definition blank_row : string := ",,,,,,,,,,,,,,,,,,,,,,,,,,,,,,,,,,,,,,,,,,".

Definition blank_file : string := "Unique Key,Created Date" +++ String LF blank_row.

(** The predicate of the date-range query as the specification words it. *)
Definition in_date_range `{DateTimeOps} (start end_ : DateTime)
           (r : ServiceRequest) : bool :=
  valid (createdDate r) &&
  op_le start (createdDate r) && op_le (createdDate r) end_.

(** What a loader is expected to do with the data lines of a file. *)
Section Rows.

Variable strtod : string -> option float.
Variable decode : string -> list string.

(** The record a line yields, when its fields are accepted. *)
Definition accepted (line : string) : option ServiceRequest :=
  let '(ok, r) := fromFields strtod (decode line) ServiceRequest_default in
  if ok then Some r else None.

(** The records of all accepted lines, in file order. *)
Fixpoint stored (lines : list string) : list ServiceRequest :=
  match lines with
  | [] => []
  | line :: lines' =>
      match accepted line with
      | Some r => r :: stored lines'
      | None => stored lines'
      end
  end.

Definition nonblank (lines : list string) : list string :=
  filter (fun line => negb (empty line)) lines.

(** The lines that are not blank and are rejected. *)
Definition rejected (lines : list string) : list string :=
  filter (fun line => match accepted line with
                      | Some _ => false
                      | None => true
                      end) (nonblank lines).

End Rows.

(** A file of a header line and [k] data rows of 43 empty fields each. *)
Fixpoint blank_rows (k : nat) : string :=
  match k with
  | O => EmptyString
  | S k' => blank_row +++ String LF (blank_rows k')
  end.

Definition big_file (k : nat) : string :=
  "Unique Key,Created Date" +++ String LF (blank_rows k).

(** A header, a row of 43 empty fields, a blank line and a two-field row. *)
Definition mixed_file : string :=
  "Unique Key,Created Date" +++ String LF (blank_row +++ String LF (
  String LF "x,y")).

(* ------------------------------------------------------------------------- *)
(** ** Further notions *)

(** The comparison [icontains] hands to [std::search]. *)
Definition same_letter (a b : ascii) : bool :=
  Ascii.eqb (tolower a) (tolower b).

(** What the loop of the driver keeps true. *)
Definition driver_books (st : Driver.loaded) : Prop :=
  Driver.validRecords st = Z.of_nat (List.length (Driver.records st)) /\
  Driver.lineCount st
  = 1 + Driver.validRecords st + Z.of_nat (List.length (Driver.malformed st)) /\
  Forall (fun k => 2 <= k <= Driver.lineCount st) (Driver.malformed st).

(** The number of occurrences of a character. *)
Fixpoint count_char (c : ascii) (s : string) : nat :=
  match s with
  | EmptyString => O
  | String x r => ((if Ascii.eqb x c then 1 else 0) + count_char c r)%nat
  end.

(** A character that is neither a comma, a double quote nor a carriage
    return; a row of fields joined by commas. *)
Definition plain_char (c : ascii) : bool :=
  negb (Ascii.eqb c ",") && negb (Ascii.eqb c dquote) && negb (Ascii.eqb c CR).

Definition not_quote (c : ascii) : bool := negb (Ascii.eqb c dquote).

Fixpoint join_commas (f : string) (fs : list string) : string :=
  match fs with
  | [] => f
  | f' :: fs' => f +++ String "," (join_commas f' fs')
  end.

(** The values the attribute types of a record hold. *)
Definition in_types (r : ServiceRequest) : Prop :=
  0 <= uniqueKey r < 2 ^ 64 /\ 0 <= incidentZip r < 2 ^ 32 /\
  0 <= bbl r < 2 ^ 64 /\
  - 2 ^ 15 <= councilDistrict r < 2 ^ 15 /\
  - 2 ^ 31 <= xCoordinate r < 2 ^ 31 /\ - 2 ^ 31 <= yCoordinate r < 2 ^ 31 /\
  in_range (createdDate r) /\ in_range (closedDate r) /\
  in_range (dueDate r) /\ in_range (resolutionUpdatedDate r).

(** A valid value whose year has at most four digits and whose other fields
    have at most two. *)
Definition printable (d : DateTime) : Prop :=
  valid d = true /\ 0 <= year d < 10000 /\ 0 <= month d < 100 /\
  0 <= day d < 100 /\ 0 <= hour d < 100 /\ 0 <= minute d < 100 /\
  0 <= second d < 100.

(** A text that does not begin with a digit. *)
Definition no_digit_head (s : string) : bool :=
  match s with
  | String c _ => negb (isdigit c)
  | EmptyString => true
  end.

(** A timestamp whose numbers are written without padding. *)
Definition timestamp_plain (mm dd yyyy hh mi ss : Z) (pm : bool) : string :=
  Libc.utoa mm +++ String "/" (Libc.utoa dd +++ String "/" (
  Libc.utoa yyyy +++ String " " (Libc.utoa hh +++ String ":" (
  Libc.utoa mi +++ String ":" (Libc.utoa ss +++ String " " (
  if pm then "PM" else "AM")))))).

(** Seconds since the start of year 0 in a calendar of 12 months of 31 days,
    which orders timestamps as the calendar does. *)
Definition clock (mm dd yyyy hh mi ss : Z) (pm : bool) : Z :=
  (((yyyy * 12 + (mm - 1)) * 31 + (dd - 1)) * 24 + hour24 hh pm) * 3600
  + mi * 60 + ss.

(* ========================================================================= *)
(** * Properties *)

(* ------------------------------------------------------------------------- *)
(** ** The packed key *)

Section PackedKeyFacts.

(** A value below [2 ^ n] shares no bit with a multiple of [2 ^ n], so
    or-ing them adds them. *)
Lemma lor_shifted_low (hi lo n : Z) :
  0 <= n -> 0 <= lo < 2 ^ n -> Z.lor (hi * 2 ^ n) lo = hi * 2 ^ n + lo.
Proof.
  intros Hn Hlo.
  assert (Hland : Z.land (hi * 2 ^ n) lo = 0).
  { apply Z.bits_inj'. intros m Hm.
    rewrite Z.land_spec, Z.bits_0.
    destruct (Z.lt_ge_cases m n) as [Hlt | Hge].
    - rewrite Z.mul_pow2_bits_low by lia. reflexivity.
    - rewrite <- (Z.mod_small lo (2 ^ n)) by lia.
      rewrite Z.mod_pow2_bits_high by lia. apply andb_false_r. }
  rewrite <- Z.lxor_lor by exact Hland.
  symmetry. apply Z.add_nocarry_lxor. exact Hland.
Qed.

Lemma lor_low (a hi lo n : Z) :
  a = hi * 2 ^ n -> 0 <= n -> 0 <= lo < 2 ^ n -> Z.lor a lo = a + lo.
Proof. intros -> Hn Hlo. apply lor_shifted_low; assumption. Qed.

Lemma shl64_small (x n : Z) :
  0 <= n -> 0 <= x -> x * 2 ^ n < 2 ^ 64 -> shl64 x n = x * 2 ^ n.
Proof.
  intros Hn Hx Hb. unfold shl64, wrap.
  assert (x < 2 ^ 64) by nia.
  rewrite (Z.mod_small x) by lia.
  rewrite Z.shiftl_mul_pow2 by lia.
  apply Z.mod_small. nia.
Qed.

(** On the values the field types hold, the key is the positional number
    with digits year, month, day, hour, minute, second. *)
Lemma toKey_sum (d : DateTime) :
  in_range d ->
  toKey d = year d * 2 ^ 40 + month d * 2 ^ 32 + day d * 2 ^ 24 +
            hour d * 2 ^ 16 + minute d * 2 ^ 8 + second d.
Proof.
  intros (Hy & Hm & Hd & Hh & Hmi & Hs). unfold toKey.
  rewrite !shl64_small by lia.
  unfold wrap. rewrite (Z.mod_small (second d)) by lia.
  rewrite (lor_low _ (year d) (month d * 2 ^ 32) 40) by lia.
  rewrite (lor_low _ (year d * 2 ^ 8 + month d) (day d * 2 ^ 24) 32) by lia.
  rewrite (lor_low _ (year d * 2 ^ 16 + month d * 2 ^ 8 + day d)
                   (hour d * 2 ^ 16) 24) by lia.
  rewrite (lor_low _ (year d * 2 ^ 24 + month d * 2 ^ 16 + day d * 2 ^ 8 + hour d)
                   (minute d * 2 ^ 8) 16) by lia.
  rewrite (lor_low _ (year d * 2 ^ 32 + month d * 2 ^ 24 + day d * 2 ^ 16 +
                      hour d * 2 ^ 8 + minute d)
                   (second d) 8) by lia.
  reflexivity.
Qed.

End PackedKeyFacts.

(* ------------------------------------------------------------------------- *)
(** ** The two orderings of DateTime *)

Ltac bool_cmp :=
  repeat match goal with
         | |- context [?x <? ?y] => destruct (Z.ltb_spec x y)
         | |- context [?x =? ?y] => destruct (Z.eqb_spec x y)
         end;
  cbn; try reflexivity; try lia.

(** One step of the field-by-field cascade. *)
Ltac cascade :=
  match goal with
  | |- (if negb (?x =? ?y) then _ else _) = _ =>
      destruct (Z.eqb_spec x y); cbn [negb]; [ | bool_cmp ]
  end.

Section Orderings.

Variables a o : DateTime.
Hypothesis Ha : in_range a.
Hypothesis Ho : in_range o.
Hypothesis Va : valid a = true.
Hypothesis Vo : valid o = true.

Lemma packed_lt_rank : PackedKey.lt a o = (rank a <? rank o).
Proof.
  unfold PackedKey.lt. rewrite Va, Vo. cbn.
  rewrite !toKey_sum by assumption. reflexivity.
Qed.

Lemma packed_eq_rank : PackedKey.eq a o = (rank a =? rank o).
Proof.
  unfold PackedKey.eq. rewrite Va, Vo. cbn.
  rewrite !toKey_sum by assumption. reflexivity.
Qed.

Lemma fields_lt_rank : FieldByField.lt a o = (rank a <? rank o).
Proof.
  unfold FieldByField.lt. rewrite Va, Vo. cbn [negb andb].
  unfold in_range in Ha, Ho. unfold rank.
  do 5 cascade. bool_cmp.
Qed.

Lemma fields_eq_rank : FieldByField.eq a o = (rank a =? rank o).
Proof.
  unfold FieldByField.eq. rewrite Va, Vo. cbn [negb Bool.eqb].
  unfold in_range in Ha, Ho. unfold rank.
  destruct (Z.eqb_spec (year a) (year o)); cbn [andb]; [ | bool_cmp ].
  destruct (Z.eqb_spec (month a) (month o)); cbn [andb]; [ | bool_cmp ].
  destruct (Z.eqb_spec (day a) (day o)); cbn [andb]; [ | bool_cmp ].
  destruct (Z.eqb_spec (hour a) (hour o)); cbn [andb]; [ | bool_cmp ].
  destruct (Z.eqb_spec (minute a) (minute o)); cbn [andb]; [ | bool_cmp ].
  bool_cmp.
Qed.

(** Distinct valid values have distinct ranks. *)
Lemma rank_inj : rank a = rank o -> a = o.
Proof.
  unfold rank. unfold in_range in Ha, Ho. intros E.
  destruct a as [y m d h mi s v], o as [y' m' d' h' mi' s' v'].
  cbn in *. subst v v'.
  assert (y = y') by lia. subst y'.
  assert (m = m') by lia. subst m'.
  assert (d = d') by lia. subst d'.
  assert (h = h') by lia. subst h'.
  assert (mi = mi') by lia. subst mi'.
  assert (s = s') by lia. subst s'. reflexivity.
Qed.

End Orderings.

Lemma strict_total_of_rank (O : DateTimeOps) :
  (forall x y, in_range x -> in_range y -> valid x = true -> valid y = true ->
               @op_lt O x y = (rank x <? rank y) /\
               @op_eq O x y = (rank x =? rank y)) ->
  forall a b c,
    in_range a -> in_range b -> in_range c ->
    valid a = true -> valid b = true -> valid c = true ->
    strict_total_at O a b c.
Proof.
  intros R a b c Ha Hb Hc Va Vb Vc. unfold strict_total_at.
  destruct (R a a Ha Ha Va Va) as [-> _].
  destruct (R a b Ha Hb Va Vb) as [-> ->].
  destruct (R b c Hb Hc Vb Vc) as [-> _].
  destruct (R a c Ha Hc Va Vc) as [-> _].
  destruct (R b a Hb Ha Vb Va) as [-> _].
  rewrite Z.ltb_irrefl.
  split; [reflexivity | ]. split; [rewrite !Z.ltb_lt; lia | ]. split.
  - destruct (Z.lt_total (rank a) (rank b)) as [L | [E | G]].
    + left. rewrite Z.ltb_lt, Z.eqb_neq, Z.ltb_ge. lia.
    + right; left. rewrite Z.ltb_ge, Z.eqb_eq, Z.ltb_ge. lia.
    + right; right. rewrite Z.ltb_ge, Z.eqb_neq, Z.ltb_lt. lia.
  - rewrite Z.eqb_eq. split.
    + intro E. apply rank_inj; assumption.
    + intros ->. reflexivity.
Qed.

Lemma invalid_below_valid (i a : DateTime) :
  valid i = false -> valid a = true ->
  invalid_below PackedKey.ops i a /\ invalid_below FieldByField.ops i a.
Proof.
  intros Vi Va. unfold invalid_below. cbn.
  unfold PackedKey.lt, PackedKey.eq, FieldByField.lt, FieldByField.eq.
  rewrite Vi, Va. cbn. repeat split.
Qed.

(** C4.  On valid values of the field types, comparing the packed 64-bit
    keys and comparing (year, month, day, hour, minute, second) field by
    field give the same [operator<] and the same [operator==]; each pair of
    operators is a strict total order on the valid values (irreflexive,
    transitive, exactly one of [a < b], [a == b], [b < a], and [==] is
    equality of values); and every invalid value is less than every valid
    one under both. *)
Theorem C4_orderings_agree (a b c : DateTime) :
  in_range a -> in_range b -> in_range c ->
  valid a = true -> valid b = true -> valid c = true ->
  PackedKey.lt a b = FieldByField.lt a b /\
  PackedKey.eq a b = FieldByField.eq a b /\
  strict_total_at PackedKey.ops a b c /\
  strict_total_at FieldByField.ops a b c /\
  (forall i, valid i = false ->
             invalid_below PackedKey.ops i a /\
             invalid_below FieldByField.ops i a).
Proof.
  intros Ha Hb Hc Va Vb Vc.
  split; [ rewrite packed_lt_rank, fields_lt_rank by assumption; reflexivity | ].
  split; [ rewrite packed_eq_rank, fields_eq_rank by assumption; reflexivity | ].
  split; [ apply strict_total_of_rank; try assumption;
           intros x y Hx Hy Vx Vy; cbn;
           split; [apply packed_lt_rank | apply packed_eq_rank]; assumption | ].
  split; [ apply strict_total_of_rank; try assumption;
           intros x y Hx Hy Vx Vy; cbn;
           split; [apply fields_lt_rank | apply fields_eq_rank]; assumption | ].
  intros i Vi. apply invalid_below_valid; assumption.
Qed.

Lemma C4_orderings_agree_witness :
  let a := mkDateTime 2013 1 1 0 0 0 true in
  let b := mkDateTime 2013 12 31 23 59 59 true in
  let c := mkDateTime 2015 6 15 12 30 0 true in
  PackedKey.lt a b = FieldByField.lt a b /\
  PackedKey.eq a b = FieldByField.eq a b /\
  strict_total_at PackedKey.ops a b c /\
  strict_total_at FieldByField.ops a b c /\
  (forall i, valid i = false ->
             invalid_below PackedKey.ops i a /\
             invalid_below FieldByField.ops i a).
Proof.
  intros a b c.
  apply (C4_orderings_agree a b c);
    first [ reflexivity | unfold in_range; cbn; lia ].
Defined.

(* ------------------------------------------------------------------------- *)
(** ** Scanning a temporal value *)

Lemma scan_bind_inv {A B} (m : Scan A) (k : A -> Scan B) s r :
  scan_bind m k s = Some r ->
  exists a s', m s = Some (a, s') /\ k a s' = Some r.
Proof.
  unfold scan_bind. destruct (m s) as [[a s'] | ]; [ | discriminate].
  intro E. exists a, s'. split; [reflexivity | exact E].
Qed.

Lemma skip_space_length s :
  (String.length (Libc.skip_space s) <= String.length s)%nat.
Proof.
  induction s as [ | c r IH]; cbn; [lia | ].
  destruct (isspace c); cbn; lia.
Qed.

Lemma scan_digits_length s : forall acc v r,
  Libc.scan_digits acc s = (v, r) ->
  (String.length r <= String.length s)%nat.
Proof.
  induction s as [ | c t IH]; cbn; intros acc v r E.
  - inversion E; subst; cbn; lia.
  - destruct (isdigit c).
    + apply IH in E. lia.
    + inversion E; subst; cbn; lia.
Qed.

(** A conversion consumes at least the digit it starts with. *)
Lemma subject_length s neg v rest :
  Libc.subject s = Some (neg, v, rest) ->
  (String.length rest < String.length s)%nat.
Proof.
  unfold Libc.subject.
  pose proof (skip_space_length s) as Hs.
  destruct (Libc.skip_space s) as [ | c r] eqn:E1; [discriminate | ].
  assert (Hd : forall n t,
             match t with
             | String c0 _ =>
                 if isdigit c0
                 then let '(v0, rest0) := Libc.scan_digits 0 t in
                      Some (n, v0, rest0)
                 else None
             | EmptyString => None
             end = Some (neg, v, rest) ->
             (String.length rest < String.length t)%nat).
  { intros n [ | c0 t0]; [discriminate | ].
    destruct (isdigit c0) eqn:D; [ | discriminate].
    cbn [Libc.scan_digits]. rewrite D.
    destruct (Libc.scan_digits (10 * 0 + digit_val c0) t0) as [v0 r0] eqn:E2.
    intro E; inversion E; subst.
    apply scan_digits_length in E2. cbn. lia. }
  cbn in Hs.
  destruct (Ascii.eqb c "-"); [ intro E; apply Hd in E; lia | ].
  destruct (Ascii.eqb c "+"); [ intro E; apply Hd in E; lia | ].
  intro E; apply (Hd false (String c r)) in E. cbn in E. lia.
Qed.

Lemma conv_u_length s v r :
  Scanf.conv_u s = Some (v, r) -> (String.length r < String.length s)%nat.
Proof.
  unfold Scanf.conv_u, Libc.strtoul_rest.
  destruct (Libc.subject s) as [[[neg x] rest] | ] eqn:E; [ | discriminate].
  intro H; inversion H; subst. eapply subject_length; eassumption.
Qed.

Lemma lit_length c s u r :
  Scanf.lit c s = Some (u, r) -> String.length s = S (String.length r).
Proof.
  destruct s as [ | c' t]; cbn; [discriminate | ].
  destruct (Ascii.eqb c' c); [ | discriminate].
  intro H; inversion H; subst. reflexivity.
Qed.

Lemma white_length s u r :
  Scanf.white s = Some (u, r) -> (String.length r <= String.length s)%nat.
Proof.
  unfold Scanf.white. intro H; inversion H; subst. apply skip_space_length.
Qed.

Lemma skip_space_head s c r :
  Libc.skip_space s = String c r -> isspace c = false.
Proof.
  induction s as [ | c0 t IH]; cbn; [discriminate | ].
  destruct (isspace c0) eqn:E; [exact IH | ].
  intro H; inversion H; subst. exact E.
Qed.

(** [%2s] stores one or two characters, none of them white space. *)
Lemma conv_2s_token s tok r :
  Scanf.conv_2s s = Some (tok, r) ->
  (String.length r < String.length s)%nat /\
  (exists a, isspace a = false /\
             (tok = str1 a \/
              exists b, isspace b = false /\ tok = String a (str1 b))).
Proof.
  unfold Scanf.conv_2s.
  pose proof (skip_space_length s) as Hs.
  destruct (Libc.skip_space s) as [ | a t] eqn:E; [discriminate | ].
  apply skip_space_head in E. cbn in Hs.
  destruct t as [ | b t'].
  - intro H; inversion H; subst. split; [cbn; lia | ].
    exists a. split; [exact E | left; reflexivity].
  - destruct (isspace b) eqn:Eb; intro H; inversion H; subst.
    + split; [cbn in *; lia | ]. exists a. split; [exact E | left; reflexivity].
    + split; [cbn in *; lia | ]. exists a. split; [exact E | ].
      right. exists b. split; [exact Eb | reflexivity].
Qed.

Lemma c_str_length s : (String.length (c_str s) <= String.length s)%nat.
Proof.
  induction s as [ | c r IH]; cbn; [lia | ].
  destruct (Ascii.eqb c NUL); cbn; lia.
Qed.

(** Seven assigned items take at least eleven characters, so the length test
    of [parse] never rejects an input the scan accepts. *)
Lemma datetime_length s x rest :
  Scanf.datetime s = Some (x, rest) -> (11 <= String.length s)%nat.
Proof.
  unfold Scanf.datetime. intro H.
  repeat (apply scan_bind_inv in H; destruct H as (? & ? & ? & H)).
  repeat match goal with
         | E : Scanf.conv_u _ = Some _ |- _ => apply conv_u_length in E
         | E : Scanf.lit _ _ = Some _ |- _ => apply lit_length in E
         | E : Scanf.white _ = Some _ |- _ => apply white_length in E
         | E : Scanf.conv_2s _ = Some _ |- _ =>
             apply conv_2s_token in E; destruct E as [E _]
         end.
  lia.
Qed.

Lemma datetime_token s mm dd yyyy hh mi ss ampm rest :
  Scanf.datetime s = Some ((mm, dd, yyyy, hh, mi, ss, ampm), rest) ->
  exists a, isspace a = false /\
            (ampm = str1 a \/
             exists b, isspace b = false /\ ampm = String a (str1 b)).
Proof.
  unfold Scanf.datetime. intro H.
  repeat (apply scan_bind_inv in H; destruct H as (? & ? & ? & H)).
  unfold scan_ret in H. inversion H; subst.
  match goal with
  | E : Scanf.conv_2s _ = Some _ |- _ => apply conv_2s_token in E; apply E
  end.
Qed.

(** [parse] on an input the scan accepts. *)
Lemma parse_scanned s mm dd yyyy hh mi ss ampm rest :
  Scanf.datetime (c_str s) = Some ((mm, dd, yyyy, hh, mi, ss, ampm), rest) ->
  parse s = mkDateTime (wrap 16 yyyy) (wrap 8 mm) (wrap 8 dd)
                       (to24h (wrap 8 hh) (isPM ampm))
                       (wrap 8 mi) (wrap 8 ss) true.
Proof.
  intro E. unfold parse.
  pose proof (datetime_length _ _ _ E) as L.
  pose proof (c_str_length s) as L'.
  destruct (Nat.ltb_spec (String.length s) 11); [lia | ].
  rewrite E. reflexivity.
Qed.

(** A value [parse] marks invalid is the default-constructed one. *)
Lemma parse_invalid s : valid (parse s) = false -> parse s = DateTime_default.
Proof.
  unfold parse.
  destruct (String.length s <? 11)%nat; [reflexivity | ].
  destruct (Scanf.datetime (c_str s)) as [[[[[[[[mm dd] yyyy] hh] mi] ss] ampm] r] | ];
    [ cbn; discriminate | reflexivity ].
Qed.

(** C9.  Whenever the scan of [sscanf] assigns all seven items (six numbers
    and a token of one or two characters that are not white space), [parse]
    returns a value marked valid whose fields are the scanned numbers
    reduced to the field widths, whatever their size: no range is checked.
    The token is only inspected for a first character [P] or [p]; with any
    other first character the hour is converted as an AM hour. *)
Theorem C9_parse_checks_no_range s mm dd yyyy hh mi ss ampm rest :
  Scanf.datetime (c_str s) = Some ((mm, dd, yyyy, hh, mi, ss, ampm), rest) ->
  (exists a, isspace a = false /\
             (ampm = str1 a \/
              exists b, isspace b = false /\ ampm = String a (str1 b))) /\
  valid (parse s) = true /\
  year (parse s) = wrap 16 yyyy /\
  month (parse s) = wrap 8 mm /\
  day (parse s) = wrap 8 dd /\
  minute (parse s) = wrap 8 mi /\
  second (parse s) = wrap 8 ss /\
  hour (parse s) = to24h (wrap 8 hh) (isPM ampm) /\
  (forall c t, ampm = String c t -> c <> "P"%char -> c <> "p"%char ->
               hour (parse s) = if wrap 8 hh =? 12 then 0 else wrap 8 hh).
Proof.
  intro E.
  split; [ eapply datetime_token; eassumption | ].
  rewrite (parse_scanned _ _ _ _ _ _ _ _ _ E). cbn.
  repeat (split; [reflexivity | ]).
  intros c t -> HP Hp. cbn.
  apply Ascii.eqb_neq in HP, Hp. rewrite HP, Hp. reflexivity.
Qed.

(** An instance with every field out of its documented range and a token
    that is neither AM nor PM. *)
Lemma C9_parse_checks_no_range_witness :
  Scanf.datetime (c_str "13/32/2015 25:61:62 XM")
  = Some ((13, 32, 2015, 25, 61, 62, "XM"), "") /\
  valid (parse "13/32/2015 25:61:62 XM") = true /\
  month (parse "13/32/2015 25:61:62 XM") = 13 /\
  day (parse "13/32/2015 25:61:62 XM") = 32 /\
  minute (parse "13/32/2015 25:61:62 XM") = 61 /\
  second (parse "13/32/2015 25:61:62 XM") = 62 /\
  hour (parse "13/32/2015 25:61:62 XM") = 25.
Proof.
  assert (E : Scanf.datetime (c_str "13/32/2015 25:61:62 XM")
              = Some ((13, 32, 2015, 25, 61, 62, "XM"), ""))
    by (vm_compute; reflexivity).
  split; [exact E | ].
  destruct (C9_parse_checks_no_range _ _ _ _ _ _ _ _ _ E)
    as (_ & V & _ & Mo & D & Mi & S & H & _).
  repeat split; assumption.
Defined.

(** C10.  Two values [parse] marks invalid are both the default-constructed
    value: their fields are all zero and their keys coincide, so under
    either pair of operators they compare equal and neither is less than
    the other. *)
Theorem C10_invalid_parsed_equal s1 s2 :
  valid (parse s1) = false -> valid (parse s2) = false ->
  parse s1 = DateTime_default /\ parse s2 = DateTime_default /\
  toKey (parse s1) = toKey (parse s2) /\
  PackedKey.eq (parse s1) (parse s2) = true /\
  PackedKey.lt (parse s1) (parse s2) = false /\
  PackedKey.lt (parse s2) (parse s1) = false /\
  FieldByField.eq (parse s1) (parse s2) = true /\
  FieldByField.lt (parse s1) (parse s2) = false /\
  FieldByField.lt (parse s2) (parse s1) = false.
Proof.
  intros V1 V2.
  rewrite (parse_invalid _ V1), (parse_invalid _ V2).
  repeat split.
Qed.

Lemma C10_invalid_parsed_equal_witness :
  PackedKey.eq (parse "") (parse "31/12 noon") = true /\
  FieldByField.eq (parse "") (parse "31/12 noon") = true /\
  PackedKey.lt (parse "") (parse "31/12 noon") = false /\
  FieldByField.lt (parse "31/12 noon") (parse "") = false.
Proof.
  destruct (C10_invalid_parsed_equal "" "31/12 noon")
    as (_ & _ & _ & E1 & L1 & _ & E2 & _ & L2);
    [ reflexivity | reflexivity | ].
  repeat split; assumption.
Defined.

(* ------------------------------------------------------------------------- *)
(** ** Digits *)

Lemma digit_cases (k : Z) :
  0 <= k <= 9 ->
  k = 0 \/ k = 1 \/ k = 2 \/ k = 3 \/ k = 4 \/
  k = 5 \/ k = 6 \/ k = 7 \/ k = 8 \/ k = 9.
Proof. lia. Qed.

Ltac each_digit k H :=
  apply digit_cases in H;
  repeat (destruct H as [H | H]; [subst k | ]); [ .. | subst k].

Lemma isdigit_digit_char k : 0 <= k <= 9 -> isdigit (digit_char k) = true.
Proof. intro H. each_digit k H; reflexivity. Qed.

Lemma digit_val_digit_char k : 0 <= k <= 9 -> digit_val (digit_char k) = k.
Proof. intro H. each_digit k H; reflexivity. Qed.

(** A digit is neither white space, nor a sign, nor the terminator. *)
Lemma isdigit_plain c :
  isdigit c = true ->
  isspace c = false /\ Ascii.eqb c "-" = false /\ Ascii.eqb c "+" = false /\
  Ascii.eqb c NUL = false.
Proof.
  destruct c as [[] [] [] [] [] [] [] []]; cbn; intro H;
    first [ discriminate H | repeat split ].
Qed.

Lemma Z_below_forallb (P : Z -> bool) (k : Z) :
  forallb P (Z_below k) = true ->
  forall n, 0 <= n < k -> P n = true.
Proof.
  intros H n Hn. rewrite forallb_forall in H. apply H.
  unfold Z_below. apply in_map_iff. exists (Z.to_nat n).
  split; [lia | ]. apply in_seq. lia.
Qed.

Lemma fmt_u_two_digits n : 0 <= n < 100 -> Libc.fmt_u 2 n = two_digits n.
Proof.
  intro H. apply String.eqb_eq.
  refine (Z_below_forallb
            (fun n => String.eqb (Libc.fmt_u 2 n) (two_digits n)) 100 _ n H).
  vm_compute; reflexivity.
Qed.

Lemma fmt_u_four_digits n : 0 <= n < 10000 -> Libc.fmt_u 4 n = four_digits n.
Proof.
  intro H. apply String.eqb_eq.
  refine (Z_below_forallb
            (fun n => String.eqb (Libc.fmt_u 4 n) (four_digits n)) 10000 _ n H).
  vm_compute; reflexivity.
Qed.

Lemma scan_digits_digit k acc r :
  0 <= k <= 9 ->
  Libc.scan_digits acc (String (digit_char k) r)
  = Libc.scan_digits (10 * acc + k) r.
Proof.
  intro H. cbn [Libc.scan_digits].
  rewrite isdigit_digit_char, digit_val_digit_char by exact H. reflexivity.
Qed.

Lemma scan_digits_stop acc c r :
  isdigit c = false -> Libc.scan_digits acc (String c r) = (acc, String c r).
Proof. intro H. cbn. rewrite H. reflexivity. Qed.

(** [%u] on an input that starts with a digit: no white space or sign to
    skip. *)
Lemma conv_u_digit_start k r :
  0 <= k <= 9 ->
  Scanf.conv_u (String (digit_char k) r)
  = let '(v, rest) := Libc.scan_digits k r in
    Some (wrap 32 (if ULONG_MAX <? v then ULONG_MAX else v), rest).
Proof.
  intro H. unfold Scanf.conv_u, Libc.strtoul_rest, Libc.subject.
  pose proof (isdigit_digit_char k H) as D.
  destruct (isdigit_plain _ D) as (S & M & P & _).
  cbn [Libc.skip_space]. rewrite S, M, P, D.
  rewrite scan_digits_digit by exact H.
  replace (10 * 0 + k) with k by lia.
  destruct (Libc.scan_digits k r) as [v rest]. reflexivity.
Qed.

Lemma conv_u_two_digits n c r :
  0 <= n < 100 -> isdigit c = false ->
  Scanf.conv_u (two_digits n +++ String c r) = Some (n, String c r).
Proof.
  intros Hn Hc. unfold two_digits. cbn [String.append str1].
  assert (0 <= n / 10 <= 9)
    by (split; [apply Z.div_pos | apply Z.lt_succ_r, Z.div_lt_upper_bound]; lia).
  assert (0 <= n mod 10 <= 9) by (pose proof (Z.mod_pos_bound n 10); lia).
  rewrite conv_u_digit_start by assumption.
  rewrite scan_digits_digit by assumption.
  rewrite scan_digits_stop by assumption.
  replace (10 * (n / 10) + n mod 10) with n by (rewrite <- Z.div_mod; lia).
  unfold ULONG_MAX, LONG_BITS, wrap.
  destruct (Z.ltb_spec (2 ^ 64 - 1) n); [lia | ].
  rewrite Z.mod_small by lia. reflexivity.
Qed.

Lemma conv_u_four_digits n c r :
  0 <= n < 10000 -> isdigit c = false ->
  Scanf.conv_u (four_digits n +++ String c r) = Some (n, String c r).
Proof.
  intros Hn Hc. unfold four_digits. cbn [String.append str1].
  assert (0 <= n / 1000 <= 9)
    by (split; [apply Z.div_pos | apply Z.lt_succ_r, Z.div_lt_upper_bound]; lia).
  assert (0 <= n / 100 mod 10 <= 9) by (pose proof (Z.mod_pos_bound (n / 100) 10); lia).
  assert (0 <= n / 10 mod 10 <= 9) by (pose proof (Z.mod_pos_bound (n / 10) 10); lia).
  assert (0 <= n mod 10 <= 9) by (pose proof (Z.mod_pos_bound n 10); lia).
  rewrite conv_u_digit_start by assumption.
  rewrite !scan_digits_digit by assumption.
  rewrite scan_digits_stop by assumption.
  replace (10 * (10 * (10 * (n / 1000) + n / 100 mod 10) + n / 10 mod 10) + n mod 10)
    with n.
  2:{ pose proof (Z.div_mod n 10 ltac:(lia)).
      pose proof (Z.div_mod (n / 10) 10 ltac:(lia)).
      pose proof (Z.div_mod (n / 100) 10 ltac:(lia)).
      assert (n / 10 / 10 = n / 100) by (rewrite Z.div_div by lia; reflexivity).
      assert (n / 100 / 10 = n / 1000) by (rewrite Z.div_div by lia; reflexivity).
      lia. }
  unfold ULONG_MAX, LONG_BITS, wrap.
  destruct (Z.ltb_spec (2 ^ 64 - 1) n); [lia | ].
  rewrite Z.mod_small by lia. reflexivity.
Qed.

(* ------------------------------------------------------------------------- *)
(** ** Parsing and rendering a timestamp *)

Lemma c_str_id s : all_chars not_nul s = true -> c_str s = s.
Proof.
  induction s as [ | c r IH]; cbn; [reflexivity | ].
  unfold not_nul at 1. intro H. apply andb_prop in H. destruct H as [Hc Hr].
  apply negb_true_iff in Hc. rewrite Hc, IH by exact Hr. reflexivity.
Qed.

Lemma all_chars_app P a b :
  all_chars P (a +++ b) = all_chars P a && all_chars P b.
Proof.
  induction a as [ | c r IH]; cbn; [reflexivity | ].
  rewrite IH. apply andb_assoc.
Qed.

Lemma two_digits_not_nul n :
  0 <= n < 100 -> all_chars not_nul (two_digits n) = true.
Proof.
  intro H.
  refine (Z_below_forallb (fun n => all_chars not_nul (two_digits n)) 100 _ n H).
  vm_compute; reflexivity.
Qed.

Lemma four_digits_not_nul n :
  0 <= n < 10000 -> all_chars not_nul (four_digits n) = true.
Proof.
  intro H.
  refine (Z_below_forallb (fun n => all_chars not_nul (four_digits n)) 10000 _ n H).
  vm_compute; reflexivity.
Qed.

Lemma lit_match c r : Scanf.lit c (String c r) = Some (tt, r).
Proof. cbn. rewrite Ascii.eqb_refl. reflexivity. Qed.

(** White space before a two-digit number: exactly the blank is skipped. *)
Lemma white_two_digits n r :
  0 <= n < 100 ->
  Scanf.white (String " " (two_digits n +++ r)) = Some (tt, two_digits n +++ r).
Proof.
  intro H. unfold Scanf.white, two_digits. cbn [String.append str1].
  assert (D : 0 <= n / 10 <= 9)
    by (split; [apply Z.div_pos | apply Z.lt_succ_r, Z.div_lt_upper_bound]; lia).
  apply isdigit_digit_char, isdigit_plain in D. destruct D as [S _].
  cbn [Libc.skip_space]. change (isspace " ") with true. cbv iota.
  cbn [Libc.skip_space]. rewrite S. reflexivity.
Qed.

Section Timestamp.

Variables mm dd yyyy hh mi ss : Z.
Variable pm : bool.
Hypothesis Hmm : 1 <= mm <= 12.
Hypothesis Hdd : 1 <= dd <= 31.
Hypothesis Hyyyy : 0 <= yyyy <= 9999.
Hypothesis Hhh : 1 <= hh <= 12.
Hypothesis Hmi : 0 <= mi <= 59.
Hypothesis Hss : 0 <= ss <= 59.

Lemma timestamp_c_str :
  c_str (timestamp mm dd yyyy hh mi ss pm) = timestamp mm dd yyyy hh mi ss pm.
Proof.
  apply c_str_id. unfold timestamp.
  repeat (rewrite all_chars_app; cbn [all_chars]).
  rewrite !two_digits_not_nul, four_digits_not_nul by lia.
  destruct pm; reflexivity.
Qed.

Lemma timestamp_scanned :
  Scanf.datetime (timestamp mm dd yyyy hh mi ss pm)
  = Some ((mm, dd, yyyy, hh, mi, ss, if pm then "PM" else "AM"), "").
Proof.
  unfold Scanf.datetime, timestamp, scan_bind.
  rewrite conv_u_two_digits by first [lia | reflexivity]. cbv beta iota.
  rewrite lit_match.
  rewrite conv_u_two_digits by first [lia | reflexivity]. cbv beta iota.
  rewrite lit_match.
  rewrite conv_u_four_digits by first [lia | reflexivity]. cbv beta iota.
  rewrite white_two_digits by lia.
  rewrite conv_u_two_digits by first [lia | reflexivity]. cbv beta iota.
  rewrite lit_match.
  rewrite conv_u_two_digits by first [lia | reflexivity]. cbv beta iota.
  rewrite lit_match.
  rewrite (conv_u_two_digits ss " ") by first [lia | reflexivity]. cbv beta iota.
  destruct pm; reflexivity.
Qed.

Lemma to24h_hour24 : to24h (wrap 8 hh) (isPM (if pm then "PM" else "AM")) = hour24 hh pm.
Proof.
  unfold to24h, hour24, wrap. rewrite (Z.mod_small hh) by lia.
  destruct pm; cbn [isPM Ascii.eqb orb negb];
    destruct (Z.eqb_spec hh 12); try reflexivity.
  cbn. apply Z.mod_small. lia.
Qed.

Lemma hour24_range : 0 <= hour24 hh pm <= 23.
Proof.
  unfold hour24. destruct (Z.eqb_spec hh 12), pm; lia.
Qed.

Lemma timestamp_parsed :
  parse (timestamp mm dd yyyy hh mi ss pm)
  = mkDateTime yyyy mm dd (hour24 hh pm) mi ss true.
Proof.
  pose proof timestamp_scanned as E. rewrite <- timestamp_c_str in E.
  rewrite (parse_scanned _ _ _ _ _ _ _ _ _ E).
  rewrite to24h_hour24. unfold wrap.
  rewrite !Z.mod_small by lia. reflexivity.
Qed.

End Timestamp.

(** C5.  A timestamp [MM/DD/YYYY HH:MM:SS AM|PM] with in-range components
    parses to a valid value whose hour is the 24-hour form (12 AM is 0,
    12 PM is 12, other AM hours unchanged, other PM hours plus 12), and
    rendering that value gives the zero-padded [YYYY-MM-DD HH:MM:SS]. *)
Theorem C5_parse_render_roundtrip (mm dd yyyy hh mi ss : Z) (pm : bool) :
  1 <= mm <= 12 -> 1 <= dd <= 31 -> 0 <= yyyy <= 9999 ->
  1 <= hh <= 12 -> 0 <= mi <= 59 -> 0 <= ss <= 59 ->
  valid (parse (timestamp mm dd yyyy hh mi ss pm)) = true /\
  hour (parse (timestamp mm dd yyyy hh mi ss pm)) = hour24 hh pm /\
  toString (parse (timestamp mm dd yyyy hh mi ss pm))
  = canonical yyyy mm dd (hour24 hh pm) mi ss.
Proof.
  intros Hmm Hdd Hyyyy Hhh Hmi Hss.
  rewrite timestamp_parsed by assumption.
  split; [reflexivity | ]. split; [reflexivity | ].
  pose proof (hour24_range hh pm Hhh) as Hh.
  unfold toString. cbn [valid negb year month day hour minute second].
  rewrite !fmt_u_two_digits, fmt_u_four_digits by lia.
  reflexivity.
Qed.

Lemma C5_parse_render_roundtrip_witness :
  timestamp 1 1 2015 12 0 0 false = "01/01/2015 12:00:00 AM" /\
  canonical 2015 1 1 (hour24 12 false) 0 0 = "2015-01-01 00:00:00" /\
  toString (parse "01/01/2015 12:00:00 AM") = "2015-01-01 00:00:00".
Proof.
  split; [reflexivity | ]. split; [reflexivity | ].
  apply (C5_parse_render_roundtrip 1 1 2015 12 0 0 false); lia.
Defined.

(* ------------------------------------------------------------------------- *)
(** ** Decoding a CSV line *)

Lemma append_empty_r s : s +++ EmptyString = s.
Proof. induction s as [ | c r IH]; cbn; [ | rewrite IH]; reflexivity. Qed.

Lemma append_assoc a b c : (a +++ b) +++ c = a +++ (b +++ c).
Proof. induction a as [ | x r IH]; cbn; [ | rewrite IH]; reflexivity. Qed.

Lemma append_char_app cur c r : append_char cur c +++ r = cur +++ String c r.
Proof. unfold append_char, str1. rewrite append_assoc. reflexivity. Qed.

(** Inside quotes, the escaped content of a field is appended to [current]
    unchanged, and the closing quote leaves the quoted state. *)
Lemma parseLine_loop_quoted f : forall tail cur fields,
  after_field tail ->
  CsvReader.parseLine_loop (escape f +++ String dquote tail) true cur fields
  = CsvReader.parseLine_loop tail false (cur +++ f) fields.
Proof.
  induction f as [ | c r IH]; intros tail cur fields Ht.
  - rewrite append_empty_r. cbn [escape String.append].
    destruct Ht as [-> | [t ->]]; reflexivity.
  - cbn [escape]. destruct (Ascii.eqb c dquote) eqn:E.
    + apply Ascii.eqb_eq in E. subst c.
      cbn [String.append CsvReader.parseLine_loop].
      rewrite Ascii.eqb_refl.
      rewrite IH by exact Ht. rewrite append_char_app. reflexivity.
    + cbn [String.append CsvReader.parseLine_loop]. rewrite E.
      rewrite IH by exact Ht. rewrite append_char_app. reflexivity.
Qed.

Lemma parseLine_loop_row fs : forall f fields,
  CsvReader.parseLine_loop (csv_row f fs) false EmptyString fields
  = fields ++ f :: fs.
Proof.
  induction fs as [ | f' fs' IH]; intros f fields.
  - cbn [csv_row]. unfold quoted, str1.
    cbn [CsvReader.parseLine_loop]. rewrite Ascii.eqb_refl.
    rewrite parseLine_loop_quoted by (left; reflexivity).
    reflexivity.
  - cbn [csv_row]. unfold quoted, str1.
    cbn [String.append]. rewrite append_assoc. cbn [String.append].
    cbn [CsvReader.parseLine_loop]. rewrite Ascii.eqb_refl.
    rewrite parseLine_loop_quoted by (right; eexists; reflexivity).
    cbn [CsvReader.parseLine_loop String.append].
    change (Ascii.eqb "," dquote) with false.
    change (Ascii.eqb "," ",") with true. cbv iota.
    rewrite IH. unfold push_back. rewrite <- app_assoc. reflexivity.
Qed.

(** The two decoders run the same automaton; [parseCSVLine] passes every
    field through [cleanString] when it is pushed. *)
Lemma parseCSVLine_loop_clean n : forall rest q cur fields,
  (String.length rest <= n)%nat ->
  NYC311Analyzer.parseCSVLine_loop rest q cur
    (map NYC311Analyzer.cleanString fields)
  = map NYC311Analyzer.cleanString (CsvReader.parseLine_loop rest q cur fields).
Proof.
  induction n as [ | n IH]; intros rest q cur fields L.
  - destruct rest; [ | cbn in L; lia].
    cbn. unfold push_back. rewrite map_app. reflexivity.
  - destruct rest as [ | c rest'].
    + cbn. unfold push_back. rewrite map_app. reflexivity.
    + cbn in L.
      cbn [NYC311Analyzer.parseCSVLine_loop CsvReader.parseLine_loop].
      destruct q.
      * destruct (Ascii.eqb c dquote).
        -- destruct rest' as [ | c' rest''].
           ++ apply IH. cbn; lia.
           ++ destruct (Ascii.eqb c' dquote); apply IH; cbn in *; lia.
        -- apply IH. lia.
      * destruct (Ascii.eqb c dquote); [apply IH; lia | ].
        destruct (Ascii.eqb c ",").
        -- unfold push_back.
           change (map NYC311Analyzer.cleanString fields ++
                   [NYC311Analyzer.cleanString cur])
             with (map NYC311Analyzer.cleanString fields ++
                   map NYC311Analyzer.cleanString [cur]).
           rewrite <- map_app. apply IH. lia.
        -- destruct (Ascii.eqb c CR); apply IH; lia.
Qed.

Lemma parseCSVLine_clean line :
  NYC311Analyzer.parseCSVLine line
  = map NYC311Analyzer.cleanString (CsvReader.parseLine line).
Proof.
  unfold NYC311Analyzer.parseCSVLine, CsvReader.parseLine.
  apply (parseCSVLine_loop_clean (String.length line) line false EmptyString []).
  lia.
Qed.

Lemma cleanString_bare f : bare f = true -> NYC311Analyzer.cleanString f = f.
Proof.
  unfold bare, NYC311Analyzer.cleanString. intro H.
  apply andb_prop in H. destruct H as [H1 H2].
  destruct f as [ | c r]; [reflexivity | ].
  apply negb_true_iff in H1. rewrite H1.
  destruct (back (String c r)) as [b | ]; [ | reflexivity].
  apply negb_true_iff in H2. rewrite H2. reflexivity.
Qed.

Lemma map_cleanString_bare fs :
  forallb bare fs = true -> map NYC311Analyzer.cleanString fs = fs.
Proof.
  induction fs as [ | f fs IH]; cbn; [reflexivity | ].
  intro H. apply andb_prop in H. destruct H as [Hf Hfs].
  rewrite cleanString_bare, IH by assumption. reflexivity.
Qed.

Lemma pop_back_length s :
  String.length (pop_back s) = (String.length s - 1)%nat.
Proof.
  induction s as [ | x r IH]; [reflexivity | ].
  cbn [pop_back]. destruct r as [ | y r']; [reflexivity | ].
  cbn [String.length] in *. rewrite IH. lia.
Qed.

Lemma all_chars_back P s c :
  all_chars P s = true -> back s = Some c -> P c = true.
Proof.
  induction s as [ | x r IH]; cbn [all_chars back]; [discriminate | ].
  intro H. apply andb_prop in H. destruct H as [Hx Hr].
  destruct r as [ | y r'].
  - intro E; inversion E; subst. exact Hx.
  - apply IH, Hr.
Qed.

Lemma not_quote_bare s : all_chars not_quote s = true -> bare s = true.
Proof.
  intro H. unfold bare. apply andb_true_intro. split.
  - destruct s as [ | c r]; [reflexivity | ].
    cbn in H. apply andb_prop in H. apply H.
  - destruct (back s) as [c | ] eqn:E; [ | reflexivity].
    exact (all_chars_back not_quote s c H E).
Qed.

(** [cleanString] leaves a text as it is only when the text neither begins
    nor ends with a double quote. *)
Lemma cleanString_fixed f : NYC311Analyzer.cleanString f = f -> bare f = true.
Proof.
  intro H. apply (f_equal String.length) in H.
  unfold NYC311Analyzer.cleanString in H. cbv zeta in H. unfold bare.
  assert (P : forall t,
             (String.length
                match back t with
                | Some c => if Ascii.eqb c dquote then pop_back t else t
                | None => t
                end
              <= String.length t)%nat).
  { intro t. destruct (back t) as [c | ]; [ | lia].
    destruct (Ascii.eqb c dquote); [ | lia].
    rewrite pop_back_length. lia. }
  destruct f as [ | c r]; [reflexivity | ].
  destruct (Ascii.eqb c dquote).
  - specialize (P r). cbn [String.length] in H. lia.
  - cbn [negb andb]. destruct (back (String c r)) as [b | ]; [ | reflexivity].
    destruct (Ascii.eqb b dquote); [ | reflexivity].
    rewrite pop_back_length in H. cbn [String.length] in H. lia.
Qed.

Lemma map_cleanString_fixed fs :
  map NYC311Analyzer.cleanString fs = fs -> forallb bare fs = true.
Proof.
  induction fs as [ | f fs IH]; cbn [map forallb]; [reflexivity | ].
  intro H. injection H as Hf Hfs.
  rewrite (cleanString_fixed f Hf), (IH Hfs). reflexivity.
Qed.

(** A double quote reaches a decoded field only through a doubled quote of
    the line: on a line without one, no decoded field holds a quote. *)
Lemma parseLine_loop_no_quote rest : forall q cur fields,
  no_doubled_quote rest = true ->
  all_chars not_quote cur = true ->
  Forall (fun f => all_chars not_quote f = true) fields ->
  Forall (fun f => all_chars not_quote f = true)
         (CsvReader.parseLine_loop rest q cur fields).
Proof.
  assert (A : forall cur c,
             all_chars not_quote cur = true -> Ascii.eqb c dquote = false ->
             all_chars not_quote (append_char cur c) = true).
  { intros cur c C E. unfold append_char, str1.
    rewrite all_chars_app, C. cbn [all_chars]. unfold not_quote.
    rewrite E. reflexivity. }
  assert (B : forall cur fields,
             all_chars not_quote cur = true ->
             Forall (fun f => all_chars not_quote f = true) fields ->
             Forall (fun f => all_chars not_quote f = true)
                    (push_back fields cur)).
  { intros cur fields C F. unfold push_back. apply Forall_app.
    split; [exact F | constructor; [exact C | constructor]]. }
  induction rest as [ | c rest' IH]; intros q cur fields N C F.
  - cbn [CsvReader.parseLine_loop]. apply B; assumption.
  - cbn [no_doubled_quote] in N. apply andb_prop in N. destruct N as [N1 N2].
    cbn [CsvReader.parseLine_loop]. destruct q.
    + destruct (Ascii.eqb c dquote) eqn:E.
      * destruct rest' as [ | c' rest'']; [apply IH; assumption | ].
        cbn [andb] in N1.
        destruct (Ascii.eqb c' dquote); [discriminate | apply IH; assumption].
      * apply IH; [exact N2 | apply A; assumption | exact F].
    + destruct (Ascii.eqb c dquote) eqn:E; [apply IH; assumption | ].
      destruct (Ascii.eqb c ",").
      * apply IH; [exact N2 | reflexivity | apply B; assumption].
      * destruct (Ascii.eqb c CR); [apply IH; assumption | ].
        apply IH; [exact N2 | apply A; assumption | exact F].
Qed.

(** C2.  Both decoders run the two-state automaton: in the quoted state a
    comma is appended to the current field, and a quote followed by a quote
    appends one quote, consumes both and stays quoted.  [parseLine] therefore
    decodes every row of RFC-4180-quoted fields to the fields themselves,
    whatever commas and quotes they contain.  [parseCSVLine] does not: on
    every line it returns what [parseLine] returns with [cleanString] applied
    to each field, so it decodes such a row to its fields exactly when no
    field begins or ends with a quote, and the literal quote that a doubled
    quote yields at the start or the end of a field is lost.  With Q for the
    double quote, the line  QQQxQ  holds the one field  Qx ; [parseLine]
    returns  Qx  and [parseCSVLine] returns  x .  The quotes that enclose a
    field never reach [cleanString]: on a line in which no quote is followed
    by a quote, no decoded field holds a quote and the two decoders agree.
    The lines  a,Qb,cQ,d  and  a,QxQQyQ,b  decode to the fields
    a | b,c | d  and  a | xQy | b  under both decoders. *)
Theorem C2_parseCSVLine_loses_literal_quote :
  (forall rest cur fields,
      CsvReader.parseLine_loop (String "," rest) true cur fields
      = CsvReader.parseLine_loop rest true (append_char cur ",") fields /\
      CsvReader.parseLine_loop (String dquote (String dquote rest)) true cur fields
      = CsvReader.parseLine_loop rest true (append_char cur dquote) fields /\
      NYC311Analyzer.parseCSVLine_loop (String "," rest) true cur fields
      = NYC311Analyzer.parseCSVLine_loop rest true (append_char cur ",") fields /\
      NYC311Analyzer.parseCSVLine_loop (String dquote (String dquote rest))
                                       true cur fields
      = NYC311Analyzer.parseCSVLine_loop rest true (append_char cur dquote) fields) /\
  (forall f fs, CsvReader.parseLine (csv_row f fs) = f :: fs) /\
  (forall line,
      NYC311Analyzer.parseCSVLine line
      = map NYC311Analyzer.cleanString (CsvReader.parseLine line)) /\
  (forall f fs,
      NYC311Analyzer.parseCSVLine (csv_row f fs) = f :: fs
      <-> forallb bare (f :: fs) = true) /\
  (CsvReader.parseLine line_quote_first = [field_quote_x] /\
   NYC311Analyzer.parseCSVLine line_quote_first = ["x"] /\
   NYC311Analyzer.parseCSVLine line_quote_first
   <> CsvReader.parseLine line_quote_first) /\
  (forall line,
      no_doubled_quote line = true ->
      Forall (fun f => all_chars not_quote f = true) (CsvReader.parseLine line) /\
      NYC311Analyzer.parseCSVLine line = CsvReader.parseLine line) /\
  CsvReader.parseLine line_quoted_comma = ["a"; "b,c"; "d"] /\
  CsvReader.parseLine line_doubled_quote = ["a"; field_x_quote_y; "b"] /\
  NYC311Analyzer.parseCSVLine line_quoted_comma = ["a"; "b,c"; "d"] /\
  NYC311Analyzer.parseCSVLine line_doubled_quote = ["a"; field_x_quote_y; "b"].
Proof.
  assert (E : forall f fs, CsvReader.parseLine (csv_row f fs) = f :: fs)
    by (intros f fs; unfold CsvReader.parseLine;
        apply (parseLine_loop_row fs f [])).
  split; [ intros; repeat split | ].
  split; [exact E | ].
  split; [exact parseCSVLine_clean | ].
  split.
  { intros f fs. rewrite parseCSVLine_clean, E. split.
    - apply map_cleanString_fixed.
    - apply map_cleanString_bare. }
  split; [ repeat split; discriminate | ].
  split; [ | repeat split ].
  intros line N.
  assert (F : Forall (fun f => all_chars not_quote f = true)
                     (CsvReader.parseLine line))
    by (unfold CsvReader.parseLine;
        apply parseLine_loop_no_quote; [exact N | reflexivity | constructor]).
  split; [exact F | ].
  rewrite parseCSVLine_clean. apply map_cleanString_bare.
  apply forallb_forall. intros f Hf.
  rewrite Forall_forall in F. apply not_quote_bare, F, Hf.
Qed.

(** A row whose middle field holds a comma, a quote and a carriage return,
    and an unquoted line with a quoted field in the middle. *)
Lemma C2_parseCSVLine_loses_literal_quote_witness :
  let f := "x," +++ String dquote (String CR "y") in
  (forallb bare ["a"; f; "b"] = true /\
   CsvReader.parseLine (csv_row "a" [f; "b"]) = ["a"; f; "b"] /\
   NYC311Analyzer.parseCSVLine (csv_row "a" [f; "b"]) = ["a"; f; "b"]) /\
  (no_doubled_quote line_quoted_comma = true /\
   NYC311Analyzer.parseCSVLine line_quoted_comma
   = CsvReader.parseLine line_quoted_comma).
Proof.
  intro f.
  destruct C2_parseCSVLine_loses_literal_quote as (_ & P & _ & Q & _ & R & _).
  split.
  - split; [reflexivity | ]. split; [apply P | apply Q; reflexivity].
  - split; [reflexivity | ]. apply (R line_quoted_comma). reflexivity.
Defined.

(* ------------------------------------------------------------------------- *)
(** ** Record population *)

Lemma col_firstn (f : list string) (i : nat) :
  (i < 43)%nat -> col (firstn 43 f) i = col f i.
Proof.
  intro H. unfold col.
  destruct (Nat.lt_ge_cases i (List.length f)) as [L | G].
  - rewrite <- (firstn_skipn 43 f) at 2.
    rewrite app_nth1; [reflexivity | ].
    rewrite length_firstn. lia.
  - rewrite !nth_overflow; [reflexivity | lia | ].
    rewrite length_firstn. lia.
Qed.

(** C3.  With 42 or fewer fields [fromFields] rejects, whatever the fields
    hold, and leaves the receiver as it was; [readAll] then counts the row
    as skipped and stores nothing.  With 43 or more it accepts and sets
    every attribute from its own column; the outcome does not depend on the
    receiver nor on any column from the 44th on. *)
Theorem C3_fromFields_column_count
        (strtod : string -> option float)
        (f : list string) (this : ServiceRequest) :
  ((List.length f <= 42)%nat ->
   fromFields strtod f this = (false, this) /\
   forall line lines total skipped out,
     empty line = false -> CsvReader.parseLine line = f ->
     CsvReader.readAll_loop strtod (line :: lines) this total skipped out
     = CsvReader.readAll_loop strtod lines this (total + 1) (skipped + 1) out) /\
  ((43 <= List.length f)%nat ->
   fst (fromFields strtod f this) = true /\
   (forall g that,
       (43 <= List.length g)%nat -> firstn 43 g = firstn 43 f ->
       fromFields strtod g that = fromFields strtod f this) /\
   let r := snd (fromFields strtod f this) in
   uniqueKey r = parseU64 (col f 0) /\
   createdDate r = parse (col f 1) /\
   closedDate r = parse (col f 2) /\
   agency r = col f 3 /\
   agencyName r = col f 4 /\
   complaintType r = col f 5 /\
   descriptor r = col f 6 /\
   additionalDetails r = col f 7 /\
   locationType r = col f 8 /\
   incidentZip r = parseZip (col f 9) /\
   incidentAddress r = col f 10 /\
   streetName r = col f 11 /\
   crossStreet1 r = col f 12 /\
   crossStreet2 r = col f 13 /\
   intersectionStreet1 r = col f 14 /\
   intersectionStreet2 r = col f 15 /\
   addressType r = col f 16 /\
   city r = col f 17 /\
   landmark r = col f 18 /\
   facilityType r = col f 19 /\
   status r = col f 20 /\
   dueDate r = parse (col f 21) /\
   resolutionDescription r = col f 22 /\
   resolutionUpdatedDate r = parse (col f 23) /\
   communityBoard r = col f 24 /\
   councilDistrict r = parseInt16 (col f 25) /\
   policePrecinct r = col f 26 /\
   bbl r = parseU64 (col f 27) /\
   borough r = col f 28 /\
   xCoordinate r = parseInt32 (col f 29) /\
   yCoordinate r = parseInt32 (col f 30) /\
   channelType r = col f 31 /\
   parkFacilityName r = col f 32 /\
   parkBorough r = col f 33 /\
   vehicleType r = col f 34 /\
   taxiCompanyBorough r = col f 35 /\
   taxiPickupLocation r = col f 36 /\
   bridgeHighwayName r = col f 37 /\
   bridgeHighwayDirection r = col f 38 /\
   roadRamp r = col f 39 /\
   bridgeHighwaySegment r = col f 40 /\
   latitude r = parseDouble strtod (col f 41) /\
   longitude r = parseDouble strtod (col f 42)).
Proof.
  split.
  - intro H.
    assert (R : fromFields strtod f this = (false, this)).
    { unfold fromFields.
      destruct (Nat.ltb_spec (List.length f) 43); [reflexivity | lia]. }
    split; [exact R | ].
    intros line lines total skipped out Hne Hf.
    cbn [CsvReader.readAll_loop]. rewrite Hne, Hf, R. reflexivity.
  - intro H. unfold fromFields.
    rewrite (proj2 (Nat.ltb_ge _ _) H).
    split; [reflexivity | ].
    split; [ | cbn; repeat split ].
    intros g that Hg E.
    rewrite (proj2 (Nat.ltb_ge _ _) Hg).
    assert (C : forall i, (i < 43)%nat -> col g i = col f i)
      by (intros i Hi; rewrite <- (col_firstn g), <- (col_firstn f), E by exact Hi;
          reflexivity).
    rewrite !C by lia. reflexivity.
Qed.

(* ------------------------------------------------------------------------- *)
(** ** Numeric conversions *)

Lemma dec_digits_scan fuel : forall n t,
  0 <= n < 2 ^ Z.of_nat fuel ->
  Libc.scan_digits 0 (Libc.dec_digits fuel n t) = Libc.scan_digits n t.
Proof.
  induction fuel as [ | f IH]; intros n t Hn.
  - cbn in Hn. assert (n = 0) by lia. subst n. reflexivity.
  - cbn [Libc.dec_digits].
    assert (Hd : 0 <= n mod 10 <= 9) by (pose proof (Z.mod_pos_bound n 10); lia).
    destruct (Z.ltb_spec n 10) as [L | G].
    + rewrite scan_digits_digit by exact Hd.
      rewrite Z.mod_small by lia. f_equal.
    + rewrite IH.
      * rewrite scan_digits_digit by exact Hd. f_equal.
        pose proof (Z.div_mod n 10 ltac:(lia)). lia.
      * rewrite Nat2Z.inj_succ, Z.pow_succ_r in Hn by lia.
        split; [apply Z.div_pos; lia | ].
        apply Z.div_lt_upper_bound; lia.
Qed.

(** A printed number starts with a digit. *)
Lemma dec_digits_head fuel : forall n acc,
  exists k r, 0 <= k <= 9 /\
              Libc.dec_digits (S fuel) n acc = String (digit_char k) r.
Proof.
  induction fuel as [ | f IH]; intros n acc;
    assert (Hd : 0 <= n mod 10 <= 9) by (pose proof (Z.mod_pos_bound n 10); lia).
  - exists (n mod 10), acc. split; [exact Hd | ].
    cbn. destruct (n <? 10); reflexivity.
  - cbn [Libc.dec_digits]. destruct (n <? 10).
    + exists (n mod 10), acc. split; [exact Hd | reflexivity].
    + apply IH.
Qed.

Lemma dec_digits_all_digits fuel : forall n acc,
  all_chars isdigit acc = true ->
  all_chars isdigit (Libc.dec_digits fuel n acc) = true.
Proof.
  induction fuel as [ | f IH]; intros n acc H; [exact H | ].
  assert (Hd : 0 <= n mod 10 <= 9) by (pose proof (Z.mod_pos_bound n 10); lia).
  assert (H' : all_chars isdigit (String (digit_char (n mod 10)) acc) = true)
    by (cbn; rewrite isdigit_digit_char, H by exact Hd; reflexivity).
  cbn [Libc.dec_digits]. destruct (n <? 10); [exact H' | apply IH, H'].
Qed.

Lemma all_chars_impl (P Q : ascii -> bool) s :
  (forall c, P c = true -> Q c = true) ->
  all_chars P s = true -> all_chars Q s = true.
Proof.
  intro PQ. induction s as [ | c r IH]; cbn; [reflexivity | ].
  intro H. apply andb_prop in H. destruct H as [Hc Hr].
  rewrite (PQ _ Hc), IH by exact Hr. reflexivity.
Qed.

Lemma utoa_c_str n : c_str (Libc.utoa n) = Libc.utoa n.
Proof.
  apply c_str_id. apply (all_chars_impl isdigit).
  - intros c Hc. apply isdigit_plain in Hc. destruct Hc as (_ & _ & _ & Hn).
    unfold not_nul. rewrite Hn. reflexivity.
  - apply dec_digits_all_digits. reflexivity.
Qed.

Lemma utoa_scan n :
  0 <= n -> Libc.scan_digits 0 (Libc.utoa n) = (n, EmptyString).
Proof.
  intro Hn. unfold Libc.utoa. rewrite dec_digits_scan; [reflexivity | ].
  split; [exact Hn | ].
  rewrite Nat2Z.inj_succ, Z2Nat.id by apply Z.log2_nonneg.
  destruct (Z.eq_dec n 0) as [-> | Hz]; [reflexivity | ].
  apply Z.log2_spec. lia.
Qed.

(** The subject sequence of a printed number, bare or after a minus sign. *)
Lemma utoa_subject n :
  0 <= n ->
  Libc.subject (Libc.utoa n) = Some (false, n, EmptyString) /\
  Libc.subject (String "-" (Libc.utoa n)) = Some (true, n, EmptyString).
Proof.
  intro Hn. pose proof (utoa_scan n Hn) as Sc.
  unfold Libc.utoa in *.
  destruct (dec_digits_head (Z.to_nat (Z.log2 n)) n EmptyString)
    as (k & r & Hk & E).
  rewrite E in *.
  pose proof (isdigit_digit_char k Hk) as D.
  destruct (isdigit_plain _ D) as (S & M & P & _).
  unfold Libc.subject. cbn [Libc.skip_space].
  change (isspace "-") with false. cbv iota.
  change (Ascii.eqb "-" "-") with true. cbv iota.
  rewrite S, M, P, D, Sc. split; reflexivity.
Qed.

Lemma utoa_not_empty n : empty (Libc.utoa n) = false.
Proof.
  unfold Libc.utoa.
  destruct (dec_digits_head (Z.to_nat (Z.log2 n)) n EmptyString)
    as (k & r & _ & E).
  rewrite E. reflexivity.
Qed.

Lemma wrap_id w x : 0 <= x < 2 ^ w -> wrap w x = x.
Proof. intro H. unfold wrap. apply Z.mod_small. exact H. Qed.

Section Conversions.

Variable n : Z.
Hypothesis Hn : 0 <= n.

Lemma strtoul_utoa : Libc.strtoul (Libc.utoa n) = Some (Z.min n ULONG_MAX).
Proof.
  unfold Libc.strtoul, Libc.strtoul_rest.
  rewrite (proj1 (utoa_subject n Hn)). cbn [option_map fst]. f_equal.
  destruct (Z.ltb_spec ULONG_MAX n); lia.
Qed.

Lemma strtol_utoa : Libc.strtol (Libc.utoa n) = Some (Z.min n LONG_MAX).
Proof.
  unfold Libc.strtol. rewrite (proj1 (utoa_subject n Hn)). f_equal.
  change LONG_MIN with (- 2 ^ 63). change LONG_MAX with (2 ^ 63 - 1).
  destruct (Z.ltb_spec (2 ^ 63 - 1) n); [lia | ].
  destruct (Z.ltb_spec n (- 2 ^ 63)); lia.
Qed.

Lemma strtol_minus_utoa :
  Libc.strtol (String "-" (Libc.utoa n)) = Some (Z.max (- n) LONG_MIN).
Proof.
  unfold Libc.strtol. rewrite (proj2 (utoa_subject n Hn)). f_equal.
  change LONG_MIN with (- 2 ^ 63). change LONG_MAX with (2 ^ 63 - 1).
  destruct (Z.ltb_spec (2 ^ 63 - 1) (- n)); [lia | ].
  destruct (Z.ltb_spec (- n) (- 2 ^ 63)); lia.
Qed.

End Conversions.

(** A first character that is neither white space, a sign nor a digit
    leaves nothing to convert. *)
Lemma subject_no_number c r :
  isspace c = false -> isdigit c = false ->
  c <> "+"%char -> c <> "-"%char ->
  Libc.subject (c_str (String c r)) = None.
Proof.
  intros S D P M. apply Ascii.eqb_neq in P, M.
  cbn [c_str]. destruct (Ascii.eqb c NUL); [reflexivity | ].
  unfold Libc.subject. cbn [Libc.skip_space]. rewrite S, M, P, D.
  reflexivity.
Qed.

(** C7, as the code has it.  An empty string, and a string in which the
    C library finds no number to convert, give the default: 0 for the zip,
    the BBL, the unique key and the state-plane coordinates, -1 for the
    council district, 0.0 for latitude and longitude.  A decimal numeral is
    first clamped to the range of the 64-bit [long] type the library
    converts to ([ULONG_MAX], or [LONG_MIN .. LONG_MAX]) and the clamped
    value is then reduced to the target width by wraparound: a value that
    fits [long] wraps, a larger one ends at the clamp.  Every conversion
    returns a value. *)
Theorem C7_numeric_defaults_and_clamping (strtod : string -> option float) :
  (forall s,
      empty s = true \/ Libc.subject (c_str s) = None ->
      parseZip s = 0 /\ parseU64 s = 0 /\ parseInt32 s = 0 /\
      parseInt16 s = -1) /\
  (forall s,
      empty s = true \/ strtod (c_str s) = None ->
      parseDouble strtod s = 0%float) /\
  (forall c r,
      isspace c = false -> isdigit c = false ->
      c <> "+"%char -> c <> "-"%char ->
      Libc.subject (c_str (String c r)) = None) /\
  (forall n,
      0 <= n ->
      parseZip (Libc.utoa n) = wrap 32 (Z.min n ULONG_MAX) /\
      parseU64 (Libc.utoa n) = Z.min n ULONG_MAX /\
      parseInt32 (Libc.utoa n) = swrap 32 (Z.min n LONG_MAX) /\
      parseInt16 (Libc.utoa n) = swrap 16 (Z.min n LONG_MAX) /\
      parseInt32 (String "-" (Libc.utoa n)) = swrap 32 (Z.max (- n) LONG_MIN) /\
      parseInt16 (String "-" (Libc.utoa n)) = swrap 16 (Z.max (- n) LONG_MIN)).
Proof.
  split; [ | split; [ | split ] ].
  - intros s [E | N].
    + destruct s; [repeat split | discriminate E].
    + unfold parseZip, parseU64, parseInt32, parseInt16,
        Libc.strtoull, Libc.strtoul, Libc.strtoul_rest, Libc.strtol.
      rewrite N. destruct (empty s); repeat split.
  - intros s [E | N]; unfold parseDouble.
    + rewrite E. reflexivity.
    + rewrite N. destruct (empty s); reflexivity.
  - exact subject_no_number.
  - intros n Hn.
    assert (Hc : c_str (String "-" (Libc.utoa n)) = String "-" (Libc.utoa n))
      by (cbn [c_str]; change (Ascii.eqb "-" NUL) with false; cbv iota;
          rewrite utoa_c_str; reflexivity).
    unfold parseZip, parseU64, parseInt32, parseInt16, Libc.strtoull.
    rewrite utoa_not_empty, utoa_c_str, Hc. cbn [empty].
    rewrite strtoul_utoa, strtol_utoa, strtol_minus_utoa by exact Hn.
    repeat split.
    apply wrap_id. change ULONG_MAX with (2 ^ 64 - 1). lia.
Qed.

(** 65536 fits [long] and wraps to 0 in 16 bits; 2^64 does not fit
    [unsigned long] and ends at [ULONG_MAX]; a letter converts to the
    defaults. *)
Lemma C7_numeric_defaults_and_clamping_witness :
  parseInt16 "65536" = 0 /\
  parseZip "4294967297" = 1 /\
  parseU64 "18446744073709551616" = 18446744073709551615 /\
  parseZip "N/A" = 0 /\ parseInt16 "N/A" = -1.
Proof.
  destruct (C7_numeric_defaults_and_clamping (fun _ => None))
    as (D & _ & N & C).
  destruct (C 65536 ltac:(lia)) as (_ & _ & _ & I16 & _).
  destruct (C 4294967297 ltac:(lia)) as (Z32 & _).
  destruct (C 18446744073709551616 ltac:(lia)) as (_ & U64 & _).
  destruct (D "N/A" (or_intror (N "N"%char "/A" eq_refl eq_refl
                                  ltac:(discriminate) ltac:(discriminate))))
    as (Zd & _ & _ & Id).
  split; [exact I16 | ]. split; [exact Z32 | ]. split; [exact U64 | ].
  split; [exact Zd | exact Id].
Defined.

(** The sentence of the specification, read literally, fails: 2^64 reduced
    to 64 bits by wraparound is 0, and the code returns [ULONG_MAX]; 2^63
    reduced to 32 bits is 0, and the code returns -1. *)
Lemma C7_wraparound_counterexample :
  Libc.utoa (2 ^ 64) = "18446744073709551616" /\
  wrap 64 (2 ^ 64) = 0 /\
  parseU64 "18446744073709551616" = 2 ^ 64 - 1 /\
  parseU64 (Libc.utoa (2 ^ 64)) <> wrap 64 (2 ^ 64) /\
  Libc.utoa (2 ^ 63) = "9223372036854775808" /\
  swrap 32 (2 ^ 63) = 0 /\
  parseInt32 "9223372036854775808" = -1.
Proof. vm_compute. repeat split; discriminate. Qed.

(* ------------------------------------------------------------------------- *)
(** ** Scan queries *)

(** A loop that pushes the matching elements is a filter. *)
Lemma scan_filter {A} (p : A -> bool) (l : list A) : forall init,
  fold_left (fun out r => if p r then push_back out r else out) l init
  = init ++ filter p l.
Proof.
  induction l as [ | x l IH]; intro init; cbn.
  - rewrite app_nil_r. reflexivity.
  - rewrite IH. destruct (p x); [ | reflexivity].
    unfold push_back. rewrite <- app_assoc. reflexivity.
Qed.

Section DateRange.

Context {O : DateTimeOps}.
Variable records : list ServiceRequest.
Variables start end_ : DateTime.

(** The two member functions that test [valid] first return exactly the
    records the specification asks for, in store order. *)
Lemma DataStore_filter_exact :
  DataStore.filterByCreatedDateRange records start end_
  = filter (in_date_range start end_) records.
Proof.
  unfold DataStore.filterByCreatedDateRange.
  rewrite (scan_filter (fun r => valid (createdDate r) &&
                                 op_ge (createdDate r) start &&
                                 op_le (createdDate r) end_)).
  reflexivity.
Qed.

Lemma NYC311Analyzer_filter_exact :
  NYC311Analyzer.filterByDateRange records start end_
  = filter (in_date_range start end_) records.
Proof.
  unfold NYC311Analyzer.filterByDateRange.
  rewrite (scan_filter (fun r => valid (createdDate r) &&
                                 op_ge (createdDate r) start &&
                                 op_le (createdDate r) end_)).
  reflexivity.
Qed.

Lemma DataStore_filter_In r :
  In r (DataStore.filterByCreatedDateRange records start end_) <->
  In r records /\ valid (createdDate r) = true /\
  op_le start (createdDate r) = true /\ op_le (createdDate r) end_ = true.
Proof.
  rewrite DataStore_filter_exact, filter_In. unfold in_date_range.
  rewrite !andb_true_iff. tauto.
Qed.

Lemma DataStore_filter_drops_invalid r :
  valid (createdDate r) = false ->
  ~ In r (DataStore.filterByCreatedDateRange records start end_).
Proof.
  intros V H. apply DataStore_filter_In in H. destruct H as (_ & V' & _).
  congruence.
Qed.

(** The free function of the driver has no such test. *)
Lemma Driver_filter_exact :
  Driver.filterByCreatedDateRange records start end_
  = filter (fun r => op_ge (createdDate r) start &&
                     op_le (createdDate r) end_) records.
Proof.
  unfold Driver.filterByCreatedDateRange.
  rewrite (scan_filter (fun r => op_ge (createdDate r) start &&
                                 op_le (createdDate r) end_)).
  reflexivity.
Qed.

End DateRange.

(** Under either pair of operators, the driver's query returns a record with
    an invalid creation date exactly when the lower bound is invalid. *)
Lemma Driver_filter_invalid_record (O : DateTimeOps) records start end_ r :
  O = PackedKey.ops \/ O = FieldByField.ops ->
  In r records -> valid (createdDate r) = false ->
  (In r (@Driver.filterByCreatedDateRange O records start end_) <->
   valid start = false).
Proof.
  intros HO Hin V. rewrite Driver_filter_exact, filter_In.
  unfold op_ge, op_le.
  destruct HO as [-> | ->]; cbn [op_lt PackedKey.ops FieldByField.ops];
    unfold PackedKey.lt, FieldByField.lt; rewrite V;
    destruct (valid start), (valid end_); cbn; intuition congruence.
Qed.

Lemma blank_file_loaded (strtod : string -> option float) :
  Driver.records (Driver.loadData strtod (Some blank_file))
  = [ServiceRequest_default].
Proof. reflexivity. Qed.

(** C1, where the code departs from it.  The driver loads the two-line file
    whose data row has 43 empty fields into a single record with an invalid
    creation date.  Queried with an invalid lower bound (and any upper
    bound) the driver's [filterByCreatedDateRange] returns that record under
    either pair of comparison operators, whereas
    [DataStore::filterByCreatedDateRange] and
    [NYC311Analyzer::filterByDateRange], which test [valid] first, return
    nothing. *)
Theorem C1_driver_returns_invalid_record
        (strtod : string -> option float) (end_ : DateTime) :
  let g_records := Driver.records (Driver.loadData strtod (Some blank_file)) in
  let start := parse "" in
  g_records = [ServiceRequest_default] /\
  valid (createdDate ServiceRequest_default) = false /\
  valid start = false /\
  @Driver.filterByCreatedDateRange PackedKey.ops g_records start end_
  = [ServiceRequest_default] /\
  @Driver.filterByCreatedDateRange FieldByField.ops g_records start end_
  = [ServiceRequest_default] /\
  @DataStore.filterByCreatedDateRange PackedKey.ops g_records start end_ = [] /\
  @DataStore.filterByCreatedDateRange FieldByField.ops g_records start end_ = [] /\
  @NYC311Analyzer.filterByDateRange PackedKey.ops g_records start end_ = [] /\
  @NYC311Analyzer.filterByDateRange FieldByField.ops g_records start end_ = [].
Proof.
  intros g_records start. subst g_records start.
  rewrite blank_file_loaded.
  split; [reflexivity | ]. split; [reflexivity | ]. split; [reflexivity | ].
  split; [ | split; [ | repeat split ] ].
  - cbn. unfold op_ge, op_le. cbn. unfold PackedKey.lt. cbn.
    destruct (valid end_); reflexivity.
  - cbn. unfold op_ge, op_le. cbn. unfold FieldByField.lt. cbn.
    destruct (valid end_); reflexivity.
Qed.

(* ------------------------------------------------------------------------- *)
(** ** The bounding-box query *)

(** A coordinate that compares equal to zero lies in every interval that
    contains zero; this covers both signed zeros. *)
Lemma zero_in_interval (lo hi x : float) :
  PrimFloat.eqb x 0 = true ->
  PrimFloat.leb lo 0 = true -> PrimFloat.leb 0 hi = true ->
  PrimFloat.leb lo x && PrimFloat.leb x hi = true.
Proof.
  rewrite !leb_spec, !eqb_spec.
  change (Prim2SF 0) with (S754_zero false).
  destruct (Prim2SF x) as [s | s | | s m e]; cbn; try discriminate.
  - intros _.
    destruct (Prim2SF lo) as [s1 | s1 | | s1 m1 e1];
      destruct (Prim2SF hi) as [s2 | s2 | | s2 m2 e2];
      cbn; intros H1 H2; rewrite ?H1, ?H2; try reflexivity; discriminate.
  - destruct s; discriminate.
  - destruct s; discriminate.
Qed.

(** C8.  A stored record whose latitude and longitude both equal 0.0, the
    value that stands for an absent coordinate, is returned by the
    bounding-box query for every box that contains latitude 0 and
    longitude 0: the query has no test for the absent value. *)
Theorem C8_box_returns_absent_coordinates
        (records : list ServiceRequest)
        (minLat maxLat minLon maxLon : float) (r : ServiceRequest) :
  In r records ->
  PrimFloat.eqb (latitude r) 0 = true ->
  PrimFloat.eqb (longitude r) 0 = true ->
  PrimFloat.leb minLat 0 = true -> PrimFloat.leb 0 maxLat = true ->
  PrimFloat.leb minLon 0 = true -> PrimFloat.leb 0 maxLon = true ->
  In r (DataStore.filterByLatLonBox records minLat maxLat minLon maxLon) /\
  In r (Driver.filterByLatLonBox records minLat maxLat minLon maxLon).
Proof.
  intros Hin Hlat Hlon H1 H2 H3 H4.
  pose proof (zero_in_interval _ _ _ Hlat H1 H2) as A.
  pose proof (zero_in_interval _ _ _ Hlon H3 H4) as B.
  apply andb_prop in A, B. destruct A as [A1 A2], B as [B1 B2].
  unfold DataStore.filterByLatLonBox, Driver.filterByLatLonBox.
  rewrite (scan_filter
             (fun r => PrimFloat.leb minLat (latitude r) &&
                       PrimFloat.leb (latitude r) maxLat &&
                       PrimFloat.leb minLon (longitude r) &&
                       PrimFloat.leb (longitude r) maxLon)).
  cbn [app]. rewrite filter_In, A1, A2, B1, B2. auto.
Qed.

(** The record loaded from a row with empty coordinate columns, and a box
    around the origin. *)
Lemma C8_box_returns_absent_coordinates_witness :
  latitude ServiceRequest_default = parseDouble (fun _ => None) "" /\
  In ServiceRequest_default
     (DataStore.filterByLatLonBox
        (Driver.records (Driver.loadData (fun _ => None) (Some blank_file)))
        (-1)%float 1%float (-1)%float 1%float).
Proof.
  split; [reflexivity | ].
  apply (C8_box_returns_absent_coordinates
           [ServiceRequest_default] (-1)%float 1%float (-1)%float 1%float
           ServiceRequest_default);
    first [ reflexivity | left; reflexivity ].
Defined.

(* ------------------------------------------------------------------------- *)
(** ** Bulk loading *)

Section Loading.

Variable strtod : string -> option float.

(** The outcome of [fromFields] does not depend on the receiver, and an
    accepted receiver holds nothing of its former content. *)
Lemma fromFields_receiver f r :
  fromFields strtod f r
  = (fst (fromFields strtod f ServiceRequest_default),
     if fst (fromFields strtod f ServiceRequest_default)
     then snd (fromFields strtod f ServiceRequest_default) else r).
Proof.
  unfold fromFields. destruct (List.length f <? 43)%nat; reflexivity.
Qed.

Lemma accepted_cases decode line :
  (accepted strtod decode line = None /\
   fst (fromFields strtod (decode line) ServiceRequest_default) = false) \/
  (accepted strtod decode line
   = Some (snd (fromFields strtod (decode line) ServiceRequest_default)) /\
   fst (fromFields strtod (decode line) ServiceRequest_default) = true).
Proof.
  unfold accepted.
  destruct (fromFields strtod (decode line) ServiceRequest_default)
    as [[ | ] r]; cbn; auto.
Qed.

(** A blank line is rejected by either decoder, so it yields no record. *)
Lemma stored_nonblank decode lines :
  accepted strtod decode EmptyString = None ->
  stored strtod decode (nonblank lines) = stored strtod decode lines.
Proof.
  intro B. induction lines as [ | line lines IH]; [reflexivity | ].
  cbn [nonblank filter stored].
  destruct line as [ | c r]; cbn [empty negb].
  - rewrite B. exact IH.
  - cbn [stored]. fold (nonblank lines). rewrite IH. reflexivity.
Qed.

(** [readAll] goes through every line: each line that is not blank is
    counted, each rejected one of them is counted as skipped, and every
    accepted one is stored. *)
Lemma readAll_loop_all lines : forall rec total skipped out,
  CsvReader.readAll_loop strtod lines rec total skipped out
  = (total + Z.of_nat (List.length (nonblank lines)),
     skipped + Z.of_nat (List.length (rejected strtod CsvReader.parseLine lines)),
     out ++ stored strtod CsvReader.parseLine lines).
Proof.
  induction lines as [ | line lines IH]; intros rec total skipped out.
  - cbn. rewrite !Z.add_0_r, app_nil_r. reflexivity.
  - cbn [CsvReader.readAll_loop].
    unfold rejected in *. cbn [nonblank filter stored].
    destruct line as [ | c r]; cbn [empty negb].
    + rewrite IH. reflexivity.
    + rewrite (fromFields_receiver _ rec).
      cbn [filter List.length].
      destruct (accepted_cases CsvReader.parseLine (String c r))
        as [[A F] | [A F]]; rewrite A, F; cbn [negb List.length];
        rewrite IH; fold (nonblank lines).
      * f_equal. f_equal; lia.
      * unfold push_back. rewrite <- app_assoc. cbn [app].
        f_equal. f_equal; lia.
Qed.

Lemma NYC311Analyzer_loadData_loop_all lines : forall lineCount skipCount records,
  NYC311Analyzer.loadData_loop strtod lines lineCount skipCount records
  = (lineCount + Z.of_nat (List.length (nonblank lines)),
     skipCount + Z.of_nat (List.length
                             (rejected strtod NYC311Analyzer.parseCSVLine lines)),
     records ++ stored strtod NYC311Analyzer.parseCSVLine lines).
Proof.
  induction lines as [ | line lines IH]; intros lineCount skipCount records.
  - cbn. rewrite !Z.add_0_r, app_nil_r. reflexivity.
  - cbn [NYC311Analyzer.loadData_loop].
    unfold rejected in *. cbn [nonblank filter stored].
    destruct line as [ | c r]; cbn [empty negb].
    + rewrite IH. reflexivity.
    + cbn [filter List.length].
      destruct (accepted_cases NYC311Analyzer.parseCSVLine (String c r))
        as [[A F] | [A F]]; rewrite A;
        destruct (fromFields strtod
                    (NYC311Analyzer.parseCSVLine (String c r))
                    ServiceRequest_default) as [ok rec];
        cbn [fst snd] in *; subst ok; cbn [List.length];
        rewrite IH; fold (nonblank lines).
      * f_equal. f_equal; lia.
      * unfold push_back. rewrite <- app_assoc. cbn [app].
        f_equal. f_equal; lia.
Qed.

(** The driver goes through the lines until [RECORD_LIMIT] records are
    stored. *)
Lemma Driver_loadData_loop_records lines : forall st,
  Driver.validRecords st < Driver.RECORD_LIMIT ->
  Driver.records (Driver.loadData_loop strtod lines st)
  = Driver.records st ++
    firstn (Z.to_nat (Driver.RECORD_LIMIT - Driver.validRecords st))
           (stored strtod NYC311Analyzer.parseCSVLine lines).
Proof.
  induction lines as [ | line lines IH]; intros st Hv.
  - cbn [Driver.loadData_loop stored]. rewrite firstn_nil, app_nil_r.
    reflexivity.
  - cbn [Driver.loadData_loop stored].
    destruct (accepted_cases NYC311Analyzer.parseCSVLine line)
      as [[A F] | [A F]]; rewrite A;
      destruct (fromFields strtod (NYC311Analyzer.parseCSVLine line)
                           ServiceRequest_default) as [ok req];
      cbn [fst snd] in *; subst ok.
    + rewrite IH by exact Hv. reflexivity.
    + assert (E : Z.to_nat (Driver.RECORD_LIMIT - Driver.validRecords st)
                  = S (Z.to_nat (Driver.RECORD_LIMIT
                                 - (Driver.validRecords st + 1)))) by lia.
      rewrite E. cbn [firstn].
      destruct (Z.leb_spec Driver.RECORD_LIMIT (Driver.validRecords st + 1))
        as [L | G].
      * cbn [Driver.records].
        replace (Z.to_nat (Driver.RECORD_LIMIT - (Driver.validRecords st + 1)))
          with O by lia.
        reflexivity.
      * rewrite IH by (cbn; exact G). cbn [Driver.records Driver.validRecords].
        unfold push_back. rewrite <- app_assoc. reflexivity.
Qed.

End Loading.

Lemma Driver_loadData_records strtod content :
  Driver.records (Driver.loadData strtod (Some content))
  = firstn (Z.to_nat Driver.RECORD_LIMIT)
           (stored strtod NYC311Analyzer.parseCSVLine (tl (getlines content))).
Proof.
  unfold Driver.loadData.
  destruct (getlines content) as [ | header lines].
  - cbn [tl stored Driver.records]. rewrite firstn_nil. reflexivity.
  - rewrite Driver_loadData_loop_records
      by (cbn [Driver.validRecords]; unfold Driver.RECORD_LIMIT; lia).
    cbn [Driver.records Driver.validRecords tl app].
    rewrite Z.sub_0_r. reflexivity.
Qed.

(** C6, as the code has it.  [CsvReader::readAll], [DataStore::load] on top
    of it, and [NYC311Analyzer::loadData] go through every line after the
    header to the end of the file: a blank line changes nothing, every
    other line is counted, every line among those that record population
    rejects is counted as skipped, and every accepted line is stored, in
    file order.  The driver's [loadData] stores the accepted lines in file
    order too, but only the first [RECORD_LIMIT] = 16,000,000 of them: it
    stops reading once that many records are stored. *)
Theorem C6_loaders_progress (strtod : string -> option float) :
  (forall lines rec total skipped out,
      CsvReader.readAll_loop strtod lines rec total skipped out
      = (total + Z.of_nat (List.length (nonblank lines)),
         skipped + Z.of_nat (List.length
                               (rejected strtod CsvReader.parseLine lines)),
         out ++ stored strtod CsvReader.parseLine lines)) /\
  (forall content,
      let lines := tl (getlines content) in
      DataStore.load strtod (Some content)
      = (CsvReader.mk None
           (Z.of_nat (List.length (rejected strtod CsvReader.parseLine lines)))
           (Z.of_nat (List.length (nonblank lines))),
         stored strtod CsvReader.parseLine lines,
         Z.of_nat (List.length (stored strtod CsvReader.parseLine lines)))) /\
  (forall content records,
      let lines := tl (getlines content) in
      NYC311Analyzer.loadData strtod (Some content) records
      = (Z.of_nat (List.length (nonblank lines)),
         Z.of_nat (List.length
                     (rejected strtod NYC311Analyzer.parseCSVLine lines)),
         records ++ stored strtod NYC311Analyzer.parseCSVLine lines)) /\
  (forall content,
      Driver.records (Driver.loadData strtod (Some content))
      = firstn (Z.to_nat Driver.RECORD_LIMIT)
               (stored strtod NYC311Analyzer.parseCSVLine
                       (tl (getlines content)))).
Proof.
  split; [ | split; [ | split ] ].
  - intros. apply readAll_loop_all.
  - intros content lines. subst lines.
    unfold DataStore.load, CsvReader.open, CsvReader.readAll.
    cbn [negb CsvReader.file_ CsvReader.total_ CsvReader.skipped_].
    rewrite readAll_loop_all. reflexivity.
  - intros content records lines. subst lines.
    unfold NYC311Analyzer.loadData.
    rewrite NYC311Analyzer_loadData_loop_all. reflexivity.
  - intro content. apply Driver_loadData_records.
Qed.

(** A four-line file: the blank line is not counted, the two-field row is
    counted and skipped, the 43-field row is stored. *)
Lemma C6_loaders_progress_witness :
  DataStore.load (fun _ => None) (Some mixed_file)
  = (CsvReader.mk None 1 2, [ServiceRequest_default], 1).
Proof.
  rewrite (proj1 (proj2 (C6_loaders_progress (fun _ => None)))).
  reflexivity.
Defined.

Lemma getlines_header rest :
  getlines_from EmptyString false
    ("Unique Key,Created Date" +++ String LF rest)
  = "Unique Key,Created Date" :: getlines_from EmptyString false rest.
Proof. reflexivity. Qed.

Lemma getlines_blank_row rest :
  getlines_from EmptyString false (blank_row +++ String LF rest)
  = blank_row :: getlines_from EmptyString false rest.
Proof. reflexivity. Qed.

Lemma getlines_big_file k :
  getlines (big_file k) = "Unique Key,Created Date" :: repeat blank_row k.
Proof.
  unfold getlines, big_file. rewrite getlines_header. f_equal.
  induction k as [ | k IH]; [reflexivity | ].
  cbn [blank_rows repeat]. rewrite getlines_blank_row, IH. reflexivity.
Qed.

Lemma stored_blank_rows strtod k :
  stored strtod NYC311Analyzer.parseCSVLine (repeat blank_row k)
  = repeat ServiceRequest_default k.
Proof.
  induction k as [ | k IH]; [reflexivity | ].
  cbn [repeat stored].
  change (accepted strtod NYC311Analyzer.parseCSVLine blank_row)
    with (Some ServiceRequest_default).
  rewrite IH. reflexivity.
Qed.

(** The sentence of the specification fails on the driver: of the
    16,000,001 rows of this file, all of which record population accepts,
    [loadData] returns 16,000,000; the last row is never read. *)
Lemma C6_record_limit_counterexample :
  let file := big_file (Z.to_nat 16000001) in
  tl (getlines file) = repeat blank_row (Z.to_nat 16000001) /\
  (forall strtod,
      List.length (stored strtod NYC311Analyzer.parseCSVLine (tl (getlines file)))
      = Z.to_nat 16000001 /\
      List.length (Driver.records (Driver.loadData strtod (Some file)))
      = Z.to_nat 16000000).
Proof.
  intro file. subst file.
  assert (E : tl (getlines (big_file (Z.to_nat 16000001)))
              = repeat blank_row (Z.to_nat 16000001))
    by (rewrite getlines_big_file; reflexivity).
  split; [exact E | ].
  intro strtod.
  rewrite Driver_loadData_records.
  rewrite E, stored_blank_rows, length_firstn, repeat_length.
  unfold Driver.RECORD_LIMIT. lia.
Qed.

(* ------------------------------------------------------------------------- *)
(** ** Instances *)

Lemma C3_fromFields_column_count_witness :
  fromFields (fun _ => None) (repeat "a" 42) ServiceRequest_default
  = (false, ServiceRequest_default) /\
  fst (fromFields (fun _ => None) (repeat "a" 43) ServiceRequest_default) = true /\
  agency (snd (fromFields (fun _ => None) (repeat "a" 44) ServiceRequest_default))
  = "a".
Proof.
  destruct (C3_fromFields_column_count
              (fun _ => None) (repeat "a" 42) ServiceRequest_default)
    as [R _].
  destruct (C3_fromFields_column_count
              (fun _ => None) (repeat "a" 43) ServiceRequest_default)
    as [_ A].
  destruct (C3_fromFields_column_count
              (fun _ => None) (repeat "a" 44) ServiceRequest_default)
    as [_ B].
  split; [ apply R; cbn; lia | ].
  split; [ apply A; cbn; lia | ].
  destruct (B ltac:(cbn; lia)) as (_ & _ & _ & _ & _ & Ag & _).
  exact Ag.
Defined.

(* ------------------------------------------------------------------------- *)
(** ** Checks on concrete inputs *)

(** The empty string, a string shorter than 11 characters and a string
    without the meridiem token all parse to the invalid value. *)
Example parse_sentinel :
  parse "" = DateTime_default /\
  parse "1/1/2015" = DateTime_default /\
  parse "01/01/2015 12:00:00" = DateTime_default.
Proof. repeat split. Qed.

Example parseLine_unquoted : CsvReader.parseLine "a,b,c" = ["a"; "b"; "c"].
Proof. reflexivity. Qed.

Example parseLine_empty : CsvReader.parseLine "" = [""].
Proof. reflexivity. Qed.

(** A carriage return is dropped outside quotes and kept inside. *)
Example parseLine_carriage_return :
  CsvReader.parseLine ("a,b" +++ str1 CR) = ["a"; "b"] /\
  CsvReader.parseLine (quoted ("a" +++ str1 CR)) = ["a" +++ str1 CR].
Proof. split; reflexivity. Qed.

(** A doubled quote at the start of a quoted field: [parseLine] keeps the
    literal quote, [parseCSVLine] loses it to [cleanString]. *)
Example parseCSVLine_strips_literal_quote :
  CsvReader.parseLine (quoted (String dquote "x")) = [String dquote "x"] /\
  NYC311Analyzer.parseCSVLine (quoted (String dquote "x")) = ["x"].
Proof. split; reflexivity. Qed.

(** A header line and no data line: nothing stored, nothing skipped. *)
Example load_header_only strtod :
  DataStore.load strtod (Some "Unique Key,Created Date")
  = (CsvReader.mk None 0 0, [], 0).
Proof. reflexivity. Qed.

(** A file that cannot be opened: zero records. *)
Example load_cannot_open strtod :
  DataStore.load strtod None = (CsvReader.mk None 0 0, [], 0).
Proof. reflexivity. Qed.

(** The driver does not skip the blank line of [mixed_file]: it reports
    lines 3 and 4 as malformed. *)
Example Driver_loadData_mixed_file strtod :
  Driver.loadData strtod (Some mixed_file)
  = Driver.mkLoaded [ServiceRequest_default] 4 1 [3; 4].
Proof. reflexivity. Qed.

(* ========================================================================= *)
(** * Further properties *)

(* ------------------------------------------------------------------------- *)
(** ** Matching text without regard to case *)

Lemma map_chars_length f s : String.length (map_chars f s) = String.length s.
Proof. induction s as [ | c r IH]; cbn; [ | rewrite IH]; reflexivity. Qed.

Lemma map_chars_app f a b :
  map_chars f (a +++ b) = map_chars f a +++ map_chars f b.
Proof. induction a as [ | c r IH]; cbn; [ | rewrite IH]; reflexivity. Qed.

(** A text whose image is a concatenation splits accordingly. *)
Lemma map_chars_app_inv f a : forall s b,
  map_chars f s = a +++ b ->
  exists s1 s2, s = s1 +++ s2 /\ map_chars f s1 = a /\ map_chars f s2 = b.
Proof.
  induction a as [ | x a IH]; intros s b E.
  - exists EmptyString, s. repeat split. exact E.
  - destruct s as [ | c r]; [discriminate | ].
    cbn in E. inversion E as [[Ec Er]].
    destruct (IH _ _ Er) as (s1 & s2 & -> & E1 & E2).
    exists (String c s1), s2. cbn. rewrite E1. repeat split. exact E2.
Qed.

Lemma tolower_toupper c : tolower (toupper c) = tolower c.
Proof. destruct c as [[] [] [] [] [] [] [] []]; reflexivity. Qed.

Lemma toupper_tolower c : toupper (tolower c) = toupper c.
Proof. destruct c as [[] [] [] [] [] [] [] []]; reflexivity. Qed.

Lemma tolower_idempotent c : tolower (tolower c) = tolower c.
Proof. destruct c as [[] [] [] [] [] [] [] []]; reflexivity. Qed.

Lemma map_chars_compose f g h s :
  (forall c, f (g c) = h c) -> map_chars f (map_chars g s) = map_chars h s.
Proof.
  intro H. induction s as [ | c r IH]; cbn; [ | rewrite H, IH]; reflexivity.
Qed.

(** Upper-casing and lower-casing identify the same texts. *)
Lemma upper_eq_lower_eq a b :
  map_chars toupper a = map_chars toupper b <->
  map_chars tolower a = map_chars tolower b.
Proof.
  split; intro E.
  - rewrite <- (map_chars_compose tolower toupper tolower a tolower_toupper).
    rewrite <- (map_chars_compose tolower toupper tolower b tolower_toupper).
    rewrite E. reflexivity.
  - rewrite <- (map_chars_compose toupper tolower toupper a toupper_tolower).
    rewrite <- (map_chars_compose toupper tolower toupper b toupper_tolower).
    rewrite E. reflexivity.
Qed.

Lemma iequal_loop_lower a : forall b,
  String.length a = String.length b ->
  (iequal_loop a b = true <-> map_chars tolower a = map_chars tolower b).
Proof.
  induction a as [ | x a IH]; intros [ | y b] L; cbn in L; try discriminate.
  - cbn. tauto.
  - cbn [iequal_loop map_chars].
    destruct (Ascii.eqb_spec (tolower x) (tolower y)) as [E | N]; cbn [negb].
    + rewrite IH by lia. rewrite E. split; [intros -> | intro H; inversion H];
        reflexivity.
    + split; [discriminate | intro H; inversion H; contradiction].
Qed.

Lemma iequal_lower a b :
  iequal a b = true <-> map_chars tolower a = map_chars tolower b.
Proof.
  unfold iequal.
  destruct (Nat.eqb_spec (String.length a) (String.length b)) as [L | L];
    cbn [negb].
  - apply iequal_loop_lower, L.
  - split; [discriminate | ]. intro E. exfalso. apply L.
    rewrite <- (map_chars_length tolower a), E. apply map_chars_length.
Qed.

(** X1.  [iequal] holds exactly when the two texts are the same once every
    letter A-Z is replaced by its lower-case letter; hence it is reflexive,
    symmetric and transitive, it holds between a text and its upper-cased or
    lower-cased form, and it fails for texts of different lengths. *)
Theorem X1_iequal_lowercase_equality :
  (forall a b,
      iequal a b = true <-> map_chars tolower a = map_chars tolower b) /\
  (forall a, iequal a a = true) /\
  (forall a b, iequal a b = iequal b a) /\
  (forall a b c, iequal a b = true -> iequal b c = true -> iequal a c = true) /\
  (forall a, iequal a (map_chars toupper a) = true /\
             iequal a (map_chars tolower a) = true) /\
  (forall a b, String.length a <> String.length b -> iequal a b = false).
Proof.
  pose proof iequal_lower as C.
  split; [exact C | ].
  split; [ intro a; apply C; reflexivity | ].
  split.
  { intros a b. destruct (iequal a b) eqn:E1, (iequal b a) eqn:E2;
      try reflexivity.
    - apply C in E1. symmetry in E1. apply C in E1. congruence.
    - apply C in E2. symmetry in E2. apply C in E2. congruence. }
  split.
  { intros a b c H1 H2. apply C. apply C in H1, H2. congruence. }
  split.
  { intro a. split; apply C.
    - rewrite (map_chars_compose tolower toupper tolower a tolower_toupper).
      reflexivity.
    - rewrite (map_chars_compose tolower tolower tolower a tolower_idempotent).
      reflexivity. }
  intros a b L. unfold iequal.
  destruct (Nat.eqb_spec (String.length a) (String.length b)); [contradiction | ].
  reflexivity.
Qed.

Lemma X1_iequal_lowercase_equality_witness :
  iequal "brooklyn" "BROOKLYN" = true /\ iequal "BROOKLYN" "BrOoKlYn" = true /\
  iequal "brooklyn" "BrOoKlYn" = true /\ iequal "Bronx" "Bronx " = false.
Proof.
  destruct X1_iequal_lowercase_equality as (C & _ & _ & T & _ & L).
  assert (H1 : iequal "brooklyn" "BROOKLYN" = true) by (apply C; reflexivity).
  assert (H2 : iequal "BROOKLYN" "BrOoKlYn" = true) by (apply C; reflexivity).
  split; [exact H1 | ]. split; [exact H2 | ].
  split; [exact (T _ _ _ H1 H2) | ].
  apply L. cbn. lia.
Defined.

Lemma append_length a b :
  String.length (a +++ b) = (String.length a + String.length b)%nat.
Proof. induction a as [ | c r IH]; cbn; [ | rewrite IH]; reflexivity. Qed.

(** The pattern matches at the start of the text when the text begins with
    a piece that [iequal] relates to the pattern. *)
Lemma match_at_iequal pat : forall text,
  match_at same_letter text pat = true <->
  exists m post, text = m +++ post /\ iequal m pat = true.
Proof.
  induction pat as [ | y pat IH]; intro text.
  - cbn. split; [ | intros _; reflexivity]. intros _.
    exists EmptyString, text. split; reflexivity.
  - destruct text as [ | x text]; cbn [match_at].
    + split; [discriminate | ].
      intros (m & post & E & H). destruct m; [ | discriminate].
      discriminate H.
    + rewrite andb_true_iff, IH. unfold same_letter. split.
      * intros (Hx & m & post & -> & H).
        exists (String x m), post. split; [reflexivity | ].
        apply iequal_lower. apply iequal_lower in H. cbn.
        apply Ascii.eqb_eq in Hx. rewrite Hx, H. reflexivity.
      * intros (m & post & E & H). apply iequal_lower in H.
        destruct m as [ | x' m]; [discriminate H | ].
        cbn in E, H. inversion E; subst x' text. inversion H as [[Hx Hm]].
        split; [rewrite Hx; apply Ascii.eqb_refl | ].
        exists m, post. split; [reflexivity | apply iequal_lower, Hm].
Qed.

(** [std::search] stays within the range, and reaches its end exactly when
    a non-empty pattern matches nowhere. *)
Lemma search_from_bounds pred pat text : forall i,
  (i <= search_from pred text pat i <= i + String.length text)%nat.
Proof.
  induction text as [ | c r IH]; intro i; cbn [search_from String.length].
  - destruct (match_at pred EmptyString pat); lia.
  - destruct (match_at pred (String c r) pat); [lia | ].
    specialize (IH (S i)). lia.
Qed.

Lemma search_from_found pred pat text : forall i,
  empty pat = false ->
  (search_from pred text pat i <> (i + String.length text)%nat <->
   exists pre rest, text = pre +++ rest /\ match_at pred rest pat = true).
Proof.
  intros i Hp. revert i.
  assert (Hnil : match_at pred EmptyString pat = false)
    by (destruct pat; [discriminate Hp | reflexivity]).
  induction text as [ | c r IH]; intro i; cbn [search_from String.length].
  - rewrite Hnil. split; [lia | ].
    intros (pre & rest & E & M).
    destruct pre; [ | discriminate]. cbn in E. subst rest. congruence.
  - destruct (match_at pred (String c r) pat) eqn:M.
    + split; [ | lia]. intros _.
      exists EmptyString, (String c r). split; [reflexivity | exact M].
    + replace (i + S (String.length r))%nat with (S i + String.length r)%nat
        by lia.
      rewrite IH. split.
      * intros (pre & rest & -> & Hm). exists (String c pre), rest.
        split; [reflexivity | exact Hm].
      * intros (pre & rest & E & Hm). destruct pre as [ | c' pre].
        -- cbn in E. subst rest. congruence.
        -- cbn in E. inversion E; subst. exists pre, rest.
           split; [reflexivity | exact Hm].
Qed.

Lemma icontains_spec haystack needle :
  icontains haystack needle = true <->
  exists pre m post,
    haystack = pre +++ m +++ post /\ iequal m needle = true.
Proof.
  unfold icontains. destruct (empty needle) eqn:En.
  - split; [ | intros _; reflexivity]. intros _.
    destruct needle; [ | discriminate].
    exists EmptyString, EmptyString, haystack. split; reflexivity.
  - rewrite negb_true_iff, Nat.eqb_neq.
    change (fun a b => Ascii.eqb (tolower a) (tolower b)) with same_letter.
    rewrite (search_from_found same_letter needle haystack 0 En). split.
    + intros (pre & rest & -> & M). apply match_at_iequal in M.
      destruct M as (m & post & -> & H). exists pre, m, post.
      split; [reflexivity | exact H].
    + intros (pre & m & post & -> & H). exists pre, (m +++ post).
      split; [reflexivity | ]. apply match_at_iequal.
      exists m, post. split; [reflexivity | exact H].
Qed.

(** X2.  [icontains] holds exactly when some contiguous piece of the
    haystack equals the needle up to the case of letters; in particular it
    holds for every haystack when the needle is empty, and it fails when the
    needle is longer than the haystack. *)
Theorem X2_icontains_substring :
  (forall haystack needle,
      icontains haystack needle = true <->
      exists pre m post,
        haystack = pre +++ m +++ post /\ iequal m needle = true) /\
  (forall haystack, icontains haystack EmptyString = true) /\
  (forall haystack needle,
      (String.length haystack < String.length needle)%nat ->
      icontains haystack needle = false).
Proof.
  split; [exact icontains_spec | ]. split; [reflexivity | ].
  intros haystack needle L.
  destruct (icontains haystack needle) eqn:E; [ | reflexivity].
  apply icontains_spec in E. destruct E as (pre & m & post & -> & H).
  apply iequal_lower in H.
  apply (f_equal String.length) in H. rewrite !map_chars_length in H.
  rewrite !append_length in L. lia.
Qed.

Lemma X2_icontains_substring_witness :
  icontains "Noise - Residential" "noise" = true /\
  icontains "Rodent" "HEAT/HOT WATER" = false.
Proof.
  destruct X2_icontains_substring as (C & _ & L).
  split.
  - apply C. exists "", "Noise", " - Residential".
    split; reflexivity.
  - apply L. cbn. lia.
Defined.

Lemma fold_left_pointwise {A B} (f g : A -> B -> A) (l : list B) :
  (forall a x, f a x = g a x) ->
  forall a, fold_left f l a = fold_left g l a.
Proof.
  intro H. induction l as [ | x l IH]; intro a; cbn; [reflexivity | ].
  rewrite H. apply IH.
Qed.

(** Lower-casing both texts first and comparing exactly is comparing with
    [same_letter]. *)
Lemma match_at_lower pat : forall text,
  match_at Ascii.eqb (map_chars tolower text) (map_chars tolower pat)
  = match_at same_letter text pat.
Proof.
  induction pat as [ | y pat IH]; intro text; [reflexivity | ].
  destruct text as [ | x text]; [reflexivity | ].
  cbn [map_chars match_at]. rewrite IH. reflexivity.
Qed.

Lemma find_from_search pat text : forall i,
  empty pat = false ->
  match find_from (map_chars tolower text) (map_chars tolower pat) i with
  | Some _ => true
  | None => false
  end
  = negb (search_from same_letter text pat i =? i + String.length text)%nat.
Proof.
  intros i Hp. revert i.
  induction text as [ | c r IH]; intro i;
    cbn [map_chars find_from search_from String.length].
  - change EmptyString with (map_chars tolower EmptyString) at 1.
    rewrite match_at_lower.
    destruct pat; [discriminate Hp | ]. cbn [match_at].
    rewrite Nat.add_0_r, Nat.eqb_refl. reflexivity.
  - change (String (tolower c) (map_chars tolower r))
      with (map_chars tolower (String c r)).
    rewrite match_at_lower.
    destruct (match_at same_letter (String c r) pat).
    + symmetry. apply negb_true_iff, Nat.eqb_neq. lia.
    + cbn [map_chars]. rewrite IH.
      replace (i + S (String.length r))%nat with (S i + String.length r)%nat
        by lia.
      reflexivity.
Qed.

Lemma find_lower_icontains text key :
  match find (map_chars tolower text) (map_chars tolower key) with
  | Some _ => true
  | None => false
  end = icontains text key.
Proof.
  unfold find, icontains. destruct (empty key) eqn:E.
  - destruct key; [ | discriminate]. destruct text; reflexivity.
  - rewrite find_from_search by exact E. reflexivity.
Qed.

(** X3.  The driver's [searchByComplaint], which lower-cases the keyword and
    every complaint type and calls [find], returns the same records in the
    same order as [DataStore::filterByComplaintType], which compares letter
    by letter inside [std::search]; with an empty keyword both return the
    whole store. *)
Theorem X3_searchByComplaint_agrees :
  (forall records keyword,
      Driver.searchByComplaint records keyword
      = DataStore.filterByComplaintType records keyword) /\
  (forall records,
      Driver.searchByComplaint records EmptyString = records /\
      DataStore.filterByComplaintType records EmptyString = records).
Proof.
  assert (A : forall records keyword,
             Driver.searchByComplaint records keyword
             = DataStore.filterByComplaintType records keyword).
  { intros records keyword.
    unfold Driver.searchByComplaint, DataStore.filterByComplaintType.
    apply fold_left_pointwise. intros out r.
    rewrite <- find_lower_icontains.
    destruct (find (map_chars tolower (complaintType r))
                   (map_chars tolower keyword)); reflexivity. }
  split; [exact A | ].
  intro records. rewrite A. split; [ | ];
    unfold DataStore.filterByComplaintType;
    rewrite (scan_filter (fun r => icontains (complaintType r) EmptyString));
    cbn [app icontains empty];
    (induction records as [ | r l IH]; cbn; [ | rewrite IH]; reflexivity).
Qed.

Lemma iequal_upper a b :
  String.eqb (map_chars toupper a) (map_chars toupper b) = iequal a b.
Proof.
  destruct (iequal a b) eqn:E.
  - apply String.eqb_eq, upper_eq_lower_eq, iequal_lower, E.
  - apply String.eqb_neq. intro H.
    apply upper_eq_lower_eq, iequal_lower in H. congruence.
Qed.

Lemma iequal_nonempty a b :
  iequal a b = true -> empty b = false -> empty a = false.
Proof.
  intros H Hb. apply iequal_lower in H.
  destruct a; [ | reflexivity]. destruct b; discriminate.
Qed.

Lemma Driver_filterByBorough_filter records query :
  Driver.filterByBorough records query
  = filter (fun r => negb (empty (borough r)) && iequal (borough r) query)
           records.
Proof.
  unfold Driver.filterByBorough.
  rewrite <- (app_nil_l (filter _ records)), <- scan_filter.
  apply fold_left_pointwise. intros out r. rewrite iequal_upper.
  destruct (empty (borough r)); reflexivity.
Qed.

Lemma DataStore_filterByBorough_filter records query :
  DataStore.filterByBorough records query
  = filter (fun r => iequal (borough r) query) records.
Proof.
  unfold DataStore.filterByBorough.
  rewrite (scan_filter (fun r => iequal (borough r) query)). reflexivity.
Qed.

(** X4.  The driver's [filterByBorough] upper-cases both sides and never
    compares a record whose borough is empty.  For a non-empty query it
    returns the same records in the same order as
    [DataStore::filterByBorough]; for the empty query it returns nothing,
    where [DataStore::filterByBorough] returns the records whose borough is
    empty. *)
Theorem X4_driver_filterByBorough :
  (forall records query,
      empty query = false ->
      Driver.filterByBorough records query
      = DataStore.filterByBorough records query) /\
  (forall records,
      Driver.filterByBorough records EmptyString = [] /\
      DataStore.filterByBorough records EmptyString
      = filter (fun r => empty (borough r)) records).
Proof.
  split.
  - intros records query Hq.
    rewrite Driver_filterByBorough_filter, DataStore_filterByBorough_filter.
    apply filter_ext. intro r.
    destruct (iequal (borough r) query) eqn:E.
    + rewrite (iequal_nonempty _ _ E Hq). reflexivity.
    + apply andb_false_r.
  - intro records.
    rewrite Driver_filterByBorough_filter, DataStore_filterByBorough_filter.
    split.
    + induction records as [ | r l IH]; [reflexivity | ].
      cbn [filter]. rewrite IH. destruct (borough r); reflexivity.
    + apply filter_ext. intro r. destruct (borough r); reflexivity.
Qed.

Lemma X4_driver_filterByBorough_witness :
  Driver.filterByBorough [ServiceRequest_default] "BROOKLYN"
  = DataStore.filterByBorough [ServiceRequest_default] "BROOKLYN" /\
  Driver.filterByBorough [ServiceRequest_default] "" = [] /\
  DataStore.filterByBorough [ServiceRequest_default] ""
  = [ServiceRequest_default].
Proof.
  destruct X4_driver_filterByBorough as [A B].
  split; [ apply A; reflexivity | ].
  destruct (B [ServiceRequest_default]) as [B1 B2].
  split; [exact B1 | ]. rewrite B2. reflexivity.
Defined.

(* ------------------------------------------------------------------------- *)
(** ** Exact-match queries *)

Lemma scan_filter_In {A} (p : A -> bool) (l : list A) (x : A) :
  In x (fold_left (fun out r => if p r then push_back out r else out) l [])
  <-> In x l /\ p x = true.
Proof. rewrite scan_filter. cbn [app]. apply filter_In. Qed.

(** X5.  [filterByBorough], [filterByAgency] and [filterByStatus] of the
    store return, in store order and with their multiplicity, exactly the
    records whose borough, agency or status is the query up to the case of
    letters; a query over two stores put end to end is the two results put
    end to end. *)
Theorem X5_exact_match_filters (records : list ServiceRequest) (q : string) :
  DataStore.filterByBorough records q
  = filter (fun r => iequal (borough r) q) records /\
  DataStore.filterByAgency records q
  = filter (fun r => iequal (agency r) q) records /\
  DataStore.filterByStatus records q
  = filter (fun r => iequal (status r) q) records /\
  (forall r,
      (In r (DataStore.filterByBorough records q) <->
       In r records /\
       map_chars tolower (borough r) = map_chars tolower q) /\
      (In r (DataStore.filterByAgency records q) <->
       In r records /\
       map_chars tolower (agency r) = map_chars tolower q) /\
      (In r (DataStore.filterByStatus records q) <->
       In r records /\
       map_chars tolower (status r) = map_chars tolower q)) /\
  (forall more,
      DataStore.filterByBorough (records ++ more) q
      = DataStore.filterByBorough records q
        ++ DataStore.filterByBorough more q).
Proof.
  unfold DataStore.filterByBorough, DataStore.filterByAgency,
    DataStore.filterByStatus.
  split; [ rewrite (scan_filter (fun r => iequal (borough r) q)); reflexivity | ].
  split; [ rewrite (scan_filter (fun r => iequal (agency r) q)); reflexivity | ].
  split; [ rewrite (scan_filter (fun r => iequal (status r) q)); reflexivity | ].
  split.
  - intro r.
    rewrite (scan_filter_In (fun r => iequal (borough r) q)).
    rewrite (scan_filter_In (fun r => iequal (agency r) q)).
    rewrite (scan_filter_In (fun r => iequal (status r) q)).
    rewrite !iequal_lower. tauto.
  - intro more.
    rewrite !(scan_filter (fun r => iequal (borough r) q)). cbn [app].
    apply filter_app.
Qed.

(** X6.  What the two integer queries return for a record populated from a
    row: [filterByZip] with [z] returns it exactly when its zip column
    converts to [z], and [filterByCouncilDistrict] with [d] exactly when its
    district column converts to [d].  So [filterByZip] with 0 returns every
    record whose zip column is empty or holds no number, and
    [filterByCouncilDistrict] with -1 every record whose district column is
    empty or holds no number. *)
Theorem X6_integer_filters_on_populated_rows
        (strtod : string -> option float)
        (records : list ServiceRequest) (f : list string)
        (this : ServiceRequest) :
  (43 <= List.length f)%nat ->
  In (snd (fromFields strtod f this)) records ->
  let r := snd (fromFields strtod f this) in
  (forall z, In r (DataStore.filterByZip records z) <-> parseZip (col f 9) = z) /\
  (forall d, In r (DataStore.filterByCouncilDistrict records d)
             <-> parseInt16 (col f 25) = d) /\
  (empty (col f 9) = true \/ Libc.subject (c_str (col f 9)) = None ->
   In r (DataStore.filterByZip records 0)) /\
  (empty (col f 25) = true \/ Libc.subject (c_str (col f 25)) = None ->
   In r (DataStore.filterByCouncilDistrict records (-1))).
Proof.
  intros L Hin r.
  assert (Ez : incidentZip r = parseZip (col f 9))
    by (subst r; unfold fromFields; rewrite (proj2 (Nat.ltb_ge _ _) L);
        reflexivity).
  assert (Ed : councilDistrict r = parseInt16 (col f 25))
    by (subst r; unfold fromFields; rewrite (proj2 (Nat.ltb_ge _ _) L);
        reflexivity).
  assert (Az : forall z, In r (DataStore.filterByZip records z)
                         <-> parseZip (col f 9) = z).
  { intro z. unfold DataStore.filterByZip.
    rewrite (scan_filter_In (fun r => incidentZip r =? z)).
    rewrite Z.eqb_eq, Ez. tauto. }
  assert (Ad : forall d, In r (DataStore.filterByCouncilDistrict records d)
                         <-> parseInt16 (col f 25) = d).
  { intro d. unfold DataStore.filterByCouncilDistrict.
    rewrite (scan_filter_In (fun r => councilDistrict r =? d)).
    rewrite Z.eqb_eq, Ed. tauto. }
  split; [exact Az | ]. split; [exact Ad | ].
  split; intro H.
  - apply Az. unfold parseZip, Libc.strtoul, Libc.strtoul_rest.
    destruct H as [H | H]; rewrite H; [reflexivity | ].
    destruct (empty (col f 9)); reflexivity.
  - apply Ad. unfold parseInt16, Libc.strtol.
    destruct H as [H | H]; rewrite H; [reflexivity | ].
    destruct (empty (col f 25)); reflexivity.
Qed.

Lemma X6_integer_filters_on_populated_rows_witness :
  let f := CsvReader.parseLine blank_row in
  let r := snd (fromFields (fun _ => None) f ServiceRequest_default) in
  In r (DataStore.filterByZip [r] 0) /\
  In r (DataStore.filterByCouncilDistrict [r] (-1)).
Proof.
  intros f r.
  destruct (X6_integer_filters_on_populated_rows
              (fun _ => None) [r] f ServiceRequest_default)
    as (_ & _ & Z0 & D1).
  - vm_compute. lia.
  - left. reflexivity.
  - split; [apply Z0 | apply D1]; left; reflexivity.
Defined.

(* ------------------------------------------------------------------------- *)
(** ** Streaming and accounting *)

Section Streaming.

Variable strtod : string -> option float.

(** No decoder makes a record of a blank line. *)
Lemma blank_not_accepted :
  accepted strtod CsvReader.parseLine EmptyString = None /\
  accepted strtod NYC311Analyzer.parseCSVLine EmptyString = None.
Proof. split; reflexivity. Qed.

Lemma readChunk_loop_all {S : Type} (cb : ServiceRequest -> S -> S) lines :
  forall total skipped s,
    CsvReader.readChunk_loop strtod cb lines total skipped s
    = (total + Z.of_nat (List.length (nonblank lines)),
       skipped + Z.of_nat (List.length
                             (rejected strtod CsvReader.parseLine lines)),
       fold_left (fun s r => cb r s)
                 (stored strtod CsvReader.parseLine lines) s).
Proof.
  induction lines as [ | line lines IH]; intros total skipped s.
  - cbn. rewrite !Z.add_0_r. reflexivity.
  - cbn [CsvReader.readChunk_loop].
    unfold rejected in *. cbn [nonblank filter stored].
    destruct line as [ | c r]; cbn [empty negb].
    + rewrite IH. reflexivity.
    + cbn [filter List.length].
      destruct (accepted_cases strtod CsvReader.parseLine (String c r))
        as [[A F] | [A F]]; rewrite A;
        destruct (fromFields strtod (CsvReader.parseLine (String c r))
                             ServiceRequest_default) as [ok rec];
        cbn [fst snd] in *; subst ok; cbn [negb List.length fold_left];
        rewrite IH; fold (nonblank lines).
      * f_equal. f_equal; lia.
      * f_equal. f_equal; lia.
Qed.

(** Every line that is not blank is either stored or rejected. *)
Lemma stored_rejected_count decode lines :
  accepted strtod decode EmptyString = None ->
  (List.length (stored strtod decode lines)
   + List.length (rejected strtod decode lines)
   = List.length (nonblank lines))%nat.
Proof.
  intro B. unfold rejected.
  induction lines as [ | line lines IH]; [reflexivity | ].
  cbn [stored nonblank filter].
  destruct line as [ | c r]; cbn [empty negb].
  - rewrite B. exact IH.
  - cbn [filter List.length]. fold (nonblank lines).
    destruct (accepted strtod decode (String c r)); cbn [List.length]; lia.
Qed.

End Streaming.

Lemma readAll_open strtod lines skipped total out :
  CsvReader.readAll strtod (CsvReader.mk (Some lines) skipped total) out
  = (CsvReader.mk (Some [])
       (skipped + Z.of_nat (List.length
                              (rejected strtod CsvReader.parseLine lines)))
       (total + Z.of_nat (List.length (nonblank lines))),
     out ++ stored strtod CsvReader.parseLine lines,
     Z.of_nat (List.length (out ++ stored strtod CsvReader.parseLine lines))).
Proof.
  unfold CsvReader.readAll.
  cbn [CsvReader.file_ CsvReader.total_ CsvReader.skipped_].
  rewrite readAll_loop_all. reflexivity.
Qed.

(** X7.  [readChunk] hands the callback the records of the accepted lines,
    one call per record in file order, and counts rows as [readAll] does;
    with a callback that appends to a vector it builds the vector [readAll]
    builds and leaves the reader in the same state, but it returns the
    number of rows seen where [readAll] returns the size of the vector.
    After [readAll] the stream is at its end: a further [readAll] on the
    same reader stores nothing and changes no counter. *)
Theorem X7_readChunk_streaming (strtod : string -> option float) :
  (forall (S : Type) (cb : ServiceRequest -> S -> S) lines skipped total s,
      CsvReader.readChunk strtod cb (CsvReader.mk (Some lines) skipped total) s
      = (CsvReader.mk (Some [])
           (skipped + Z.of_nat (List.length
                                  (rejected strtod CsvReader.parseLine lines)))
           (total + Z.of_nat (List.length (nonblank lines))),
         fold_left (fun s r => cb r s)
                   (stored strtod CsvReader.parseLine lines) s,
         total + Z.of_nat (List.length (nonblank lines)))) /\
  (forall rd out,
      fst (CsvReader.readChunk strtod (fun r v => push_back v r) rd out)
      = fst (CsvReader.readAll strtod rd out)) /\
  (forall lines skipped total out,
      let first := CsvReader.readAll strtod
                     (CsvReader.mk (Some lines) skipped total) out in
      let rd := fst (fst first) in
      let out1 := snd (fst first) in
      CsvReader.readAll strtod rd out1
      = (rd, out1, Z.of_nat (List.length out1))).
Proof.
  split; [ | split ].
  - intros S cb lines skipped total s.
    unfold CsvReader.readChunk.
    cbn [CsvReader.file_ CsvReader.total_ CsvReader.skipped_].
    rewrite readChunk_loop_all. reflexivity.
  - intros [[lines | ] skipped total] out;
      unfold CsvReader.readChunk, CsvReader.readAll;
      cbn [CsvReader.file_ CsvReader.total_ CsvReader.skipped_];
      [ | reflexivity ].
    rewrite readChunk_loop_all, readAll_loop_all. cbn [fst]. f_equal.
    generalize (stored strtod CsvReader.parseLine lines) as l.
    intro l. revert out. induction l as [ | r l IH]; intro out; cbn.
    + rewrite app_nil_r. reflexivity.
    + rewrite IH. unfold push_back. rewrite <- app_assoc. reflexivity.
  - intros lines skipped total out first rd out1. subst rd out1 first.
    rewrite readAll_open. cbn [fst snd]. rewrite readAll_open.
    cbn [nonblank rejected filter stored List.length Z.of_nat].
    rewrite !Z.add_0_r, app_nil_r. reflexivity.
Qed.

Lemma X7_readChunk_streaming_witness :
  CsvReader.readChunk (fun _ => None) (fun r n => n + 1)
    (snd (CsvReader.open (Some mixed_file))) 0
  = (CsvReader.mk (Some []) 1 2, 1, 2).
Proof.
  destruct (X7_readChunk_streaming (fun _ => None)) as (A & _ & _).
  unfold CsvReader.open. cbn [snd]. rewrite A. reflexivity.
Defined.

Lemma DataStore_load_open strtod content :
  DataStore.load strtod (Some content)
  = (CsvReader.mk None
       (Z.of_nat (List.length
                    (rejected strtod CsvReader.parseLine (tl (getlines content)))))
       (Z.of_nat (List.length (nonblank (tl (getlines content))))),
     stored strtod CsvReader.parseLine (tl (getlines content)),
     Z.of_nat (List.length
                 (stored strtod CsvReader.parseLine (tl (getlines content))))).
Proof.
  unfold DataStore.load, CsvReader.open. cbn [negb].
  rewrite readAll_open. reflexivity.
Qed.

(** X8.  The books of a load balance.  After [DataStore::load] the returned
    count is the size of the store, the reader is closed, and the size plus
    [skippedRows] is the number of rows seen, which is the number of
    non-blank lines after the header; a path that cannot be opened gives an
    empty store and zero counters.  [NYC311Analyzer::loadData] balances the
    same way: the records it adds plus its skip count is its line count. *)
Theorem X8_load_accounting (strtod : string -> option float)
        (content : option string) :
  (let '(reader_, records_, n) := DataStore.load strtod content in
   n = Z.of_nat (List.length records_) /\
   CsvReader.file_ reader_ = None /\
   n + DataStore.skippedRows reader_ = CsvReader.total_ reader_ /\
   CsvReader.total_ reader_
   = match content with
     | Some c => Z.of_nat (List.length (nonblank (tl (getlines c))))
     | None => 0
     end /\
   (content = None -> records_ = [])) /\
  (forall records,
      let '(lineCount, skipCount, records') :=
        NYC311Analyzer.loadData strtod content records in
      Z.of_nat (List.length records') - Z.of_nat (List.length records)
      + skipCount = lineCount /\
      firstn (List.length records) records' = records).
Proof.
  destruct content as [c | ].
  - rewrite DataStore_load_open. split.
    + unfold DataStore.skippedRows.
      cbn [CsvReader.file_ CsvReader.total_ CsvReader.skipped_].
      pose proof (stored_rejected_count strtod CsvReader.parseLine
                    (tl (getlines c)) eq_refl).
      repeat split; try lia. discriminate.
    + intro records. unfold NYC311Analyzer.loadData.
      rewrite NYC311Analyzer_loadData_loop_all.
      pose proof (stored_rejected_count strtod NYC311Analyzer.parseCSVLine
                    (tl (getlines c)) eq_refl).
      rewrite length_app, firstn_app, Nat.sub_diag, firstn_all.
      cbn [firstn]. rewrite app_nil_r. split; [lia | reflexivity].
  - split; [ cbn; repeat split | ].
    intro records. cbn. rewrite firstn_all. split; [lia | reflexivity].
Qed.

Lemma driver_books_loop strtod lines : forall st,
  driver_books st ->
  driver_books (Driver.loadData_loop strtod lines st).
Proof.
  induction lines as [ | line lines IH]; intros st B; [exact B | ].
  cbn [Driver.loadData_loop].
  destruct B as (Bv & Bl & Bm).
  destruct (fromFields strtod (NYC311Analyzer.parseCSVLine line)
                       ServiceRequest_default) as [[ | ] req].
  - assert (B' : driver_books
                   (Driver.mkLoaded (push_back (Driver.records st) req)
                                    (Driver.lineCount st + 1)
                                    (Driver.validRecords st + 1)
                                    (Driver.malformed st))).
    { unfold driver_books, push_back.
      cbn [Driver.records Driver.lineCount Driver.validRecords Driver.malformed].
      rewrite length_app. cbn [List.length].
      split; [lia | ]. split; [lia | ].
      eapply Forall_impl; [ | exact Bm]. cbn. intros k Hk. lia. }
    destruct (Driver.RECORD_LIMIT <=? Driver.validRecords st + 1);
      [exact B' | apply IH, B'].
  - apply IH. unfold driver_books, push_back.
    cbn [Driver.records Driver.lineCount Driver.validRecords Driver.malformed].
    rewrite length_app. cbn [List.length].
    split; [lia | ]. split; [lia | ].
    apply Forall_app. split.
    + eapply Forall_impl; [ | exact Bm]. cbn. intros k Hk. lia.
    + constructor; [ | constructor].
      assert (0 <= Driver.validRecords st) by lia. lia.
Qed.

Lemma Driver_validRecords_bound strtod lines : forall st,
  Driver.validRecords st < Driver.RECORD_LIMIT ->
  Driver.validRecords (Driver.loadData_loop strtod lines st)
  <= Driver.RECORD_LIMIT.
Proof.
  induction lines as [ | line lines IH]; intros st B; [cbn; lia | ].
  cbn [Driver.loadData_loop].
  destruct (fromFields strtod (NYC311Analyzer.parseCSVLine line)
                       ServiceRequest_default) as [[ | ] req].
  - destruct (Z.leb_spec Driver.RECORD_LIMIT (Driver.validRecords st + 1)).
    + cbn. lia.
    + apply IH. cbn. lia.
  - apply IH. cbn. exact B.
Qed.

Lemma Driver_lineCount_bound strtod lines : forall st,
  Driver.lineCount st
  <= Driver.lineCount (Driver.loadData_loop strtod lines st)
  <= Driver.lineCount st + Z.of_nat (List.length lines).
Proof.
  induction lines as [ | line lines IH]; intro st; [cbn; lia | ].
  cbn [Driver.loadData_loop List.length].
  destruct (fromFields strtod (NYC311Analyzer.parseCSVLine line)
                       ServiceRequest_default) as [[ | ] req].
  - destruct (Driver.RECORD_LIMIT <=? Driver.validRecords st + 1).
    + cbn [Driver.lineCount]. lia.
    + match goal with
      | |- context [Driver.loadData_loop strtod lines ?st1] =>
          specialize (IH st1)
      end.
      cbn [Driver.lineCount] in IH. lia.
  - match goal with
    | |- context [Driver.loadData_loop strtod lines ?st1] =>
        specialize (IH st1)
    end.
    cbn [Driver.lineCount] in IH. lia.
Qed.

(** X9.  The counters of the driver's [loadData] on a file that opens and
    has a header line: [validRecords] is the number of records returned and
    never exceeds [RECORD_LIMIT]; every line read is the header, a stored
    record or a line reported as malformed, so [lineCount] is one more than
    their sum; and every line number it reports lies between 2 and
    [lineCount]. *)
Theorem X9_driver_loadData_counters
        (strtod : string -> option float) (content : string) :
  getlines content <> [] ->
  let st := Driver.loadData strtod (Some content) in
  Driver.validRecords st = Z.of_nat (List.length (Driver.records st)) /\
  Driver.validRecords st <= Driver.RECORD_LIMIT /\
  Driver.lineCount st
  = 1 + Driver.validRecords st + Z.of_nat (List.length (Driver.malformed st)) /\
  Driver.lineCount st <= Z.of_nat (List.length (getlines content)) /\
  Forall (fun k => 2 <= k <= Driver.lineCount st) (Driver.malformed st).
Proof.
  intros Hne st. subst st. unfold Driver.loadData.
  destruct (getlines content) as [ | header lines]; [contradiction | ].
  assert (B0 : driver_books (Driver.mkLoaded [] 1 0 []))
    by (unfold driver_books; cbn; repeat split; constructor).
  pose proof (driver_books_loop strtod lines _ B0) as (Bv & Bl & Bm).
  pose proof (Driver_validRecords_bound strtod lines (Driver.mkLoaded [] 1 0 [])
                ltac:(cbn; unfold Driver.RECORD_LIMIT; lia)) as Bb.
  pose proof (Driver_lineCount_bound strtod lines (Driver.mkLoaded [] 1 0 []))
    as Bc.
  cbn [Driver.lineCount List.length] in Bc |- *.
  repeat split; try assumption. lia.
Qed.

Lemma X9_driver_loadData_counters_witness :
  let st := Driver.loadData (fun _ => None) (Some mixed_file) in
  Driver.validRecords st = Z.of_nat (List.length (Driver.records st)) /\
  Driver.lineCount st
  = 1 + Driver.validRecords st + Z.of_nat (List.length (Driver.malformed st)).
Proof.
  intro st.
  destruct (X9_driver_loadData_counters (fun _ => None) mixed_file
              ltac:(discriminate)) as (A & _ & B & _).
  exact (conj A B).
Defined.

(* ------------------------------------------------------------------------- *)
(** ** More on decoding a line *)

Lemma parseLine_loop_count n : forall rest q cur fields,
  (String.length rest <= n)%nat ->
  (S (List.length fields)
   <= List.length (CsvReader.parseLine_loop rest q cur fields)
   <= S (List.length fields) + count_char "," rest)%nat.
Proof.
  induction n as [ | n IH]; intros rest q cur fields L.
  - destruct rest; [ | cbn in L; lia].
    cbn. unfold push_back. rewrite length_app. cbn. lia.
  - destruct rest as [ | c rest'].
    + cbn. unfold push_back. rewrite length_app. cbn. lia.
    + cbn in L. cbn [CsvReader.parseLine_loop count_char].
      destruct q.
      * destruct (Ascii.eqb c dquote).
        -- destruct rest' as [ | c' rest''].
           ++ specialize (IH EmptyString false cur fields ltac:(cbn; lia)).
              cbn [count_char] in *. lia.
           ++ destruct (Ascii.eqb c' dquote).
              ** specialize (IH rest'' true (append_char cur dquote) fields
                               ltac:(cbn in L; lia)).
                 cbn [count_char]. lia.
              ** specialize (IH (String c' rest'') false cur fields
                               ltac:(cbn in *; lia)).
                 lia.
        -- specialize (IH rest' true (append_char cur c) fields ltac:(lia)).
           lia.
      * destruct (Ascii.eqb c dquote) eqn:Eq.
        -- specialize (IH rest' true cur fields ltac:(lia)). lia.
        -- destruct (Ascii.eqb c ",") eqn:Ec.
           ++ specialize (IH rest' false EmptyString (push_back fields cur)
                             ltac:(lia)).
              assert (P : List.length (push_back fields cur)
                          = S (List.length fields))
                by (unfold push_back; rewrite length_app; cbn; lia).
              rewrite P in IH. lia.
           ++ destruct (Ascii.eqb c CR);
                [ specialize (IH rest' false cur fields ltac:(lia))
                | specialize (IH rest' false (append_char cur c) fields
                                 ltac:(lia)) ]; lia.
Qed.

(** X10.  A decoded line has at least one field and at most one more than
    it has commas, under either decoder.  So a line with fewer than 42
    commas never becomes a record, whatever it quotes: [readAll] counts it
    as skipped. *)
Theorem X10_field_count (strtod : string -> option float) (line : string) :
  (1 <= List.length (CsvReader.parseLine line)
   <= 1 + count_char "," line)%nat /\
  List.length (NYC311Analyzer.parseCSVLine line)
  = List.length (CsvReader.parseLine line) /\
  ((count_char "," line < 42)%nat ->
   accepted strtod CsvReader.parseLine line = None /\
   accepted strtod NYC311Analyzer.parseCSVLine line = None /\
   (empty line = false ->
    forall lines rec total skipped out,
      CsvReader.readAll_loop strtod (line :: lines) rec total skipped out
      = CsvReader.readAll_loop strtod lines rec (total + 1) (skipped + 1) out)).
Proof.
  pose proof (parseLine_loop_count (String.length line) line false EmptyString []
                (le_n _)) as B.
  cbn [List.length] in B. fold (CsvReader.parseLine line) in B.
  assert (E : List.length (NYC311Analyzer.parseCSVLine line)
              = List.length (CsvReader.parseLine line))
    by (rewrite parseCSVLine_clean; apply length_map).
  split; [exact B | ]. split; [exact E | ].
  intro C.
  assert (R : forall decode,
             List.length (decode line) = List.length (CsvReader.parseLine line) ->
             forall this, fromFields strtod (decode line) this = (false, this)).
  { intros decode Hd this. unfold fromFields. rewrite Hd.
    destruct (Nat.ltb_spec (List.length (CsvReader.parseLine line)) 43);
      [reflexivity | lia]. }
  split; [ unfold accepted; rewrite (R CsvReader.parseLine eq_refl); reflexivity | ].
  split; [ unfold accepted; rewrite (R NYC311Analyzer.parseCSVLine E); reflexivity | ].
  intros Hne lines rec total skipped out.
  cbn [CsvReader.readAll_loop]. rewrite Hne, (R CsvReader.parseLine eq_refl).
  reflexivity.
Qed.

Lemma X10_field_count_witness :
  accepted (fun _ => None) CsvReader.parseLine line_doubled_quote = None.
Proof.
  destruct (X10_field_count (fun _ => None) line_doubled_quote) as (_ & _ & H).
  apply H. cbn. lia.
Defined.

Lemma parseLine_loop_plain f : forall tail cur fields,
  all_chars plain_char f = true ->
  CsvReader.parseLine_loop (f +++ tail) false cur fields
  = CsvReader.parseLine_loop tail false (cur +++ f) fields.
Proof.
  induction f as [ | c r IH]; intros tail cur fields H.
  - rewrite append_empty_r. reflexivity.
  - cbn [all_chars] in H. apply andb_prop in H. destruct H as [Hc Hr].
    unfold plain_char in Hc.
    apply andb_prop in Hc. destruct Hc as [Hc H3].
    apply andb_prop in Hc. destruct Hc as [H1 H2].
    apply negb_true_iff in H1, H2, H3.
    cbn [String.append CsvReader.parseLine_loop]. rewrite H1, H2, H3.
    rewrite IH by exact Hr. rewrite append_char_app. reflexivity.
Qed.

(** Inside quotes everything but a quote is content. *)
Lemma parseLine_loop_open_quote s : forall cur fields,
  all_chars not_quote s = true ->
  CsvReader.parseLine_loop s true cur fields = push_back fields (cur +++ s).
Proof.
  induction s as [ | c r IH]; intros cur fields H.
  - rewrite append_empty_r. reflexivity.
  - cbn [all_chars] in H. apply andb_prop in H. destruct H as [Hc Hr].
    apply negb_true_iff in Hc.
    cbn [CsvReader.parseLine_loop]. rewrite Hc.
    rewrite IH by exact Hr. rewrite append_char_app. reflexivity.
Qed.

Lemma plain_not_quote s :
  all_chars plain_char s = true -> all_chars not_quote s = true.
Proof.
  apply all_chars_impl. intros c H. unfold plain_char in H.
  apply andb_prop in H. destruct H as [H _].
  apply andb_prop in H. apply H.
Qed.

Lemma parseLine_loop_join fs : forall f tail fields,
  forallb (all_chars plain_char) (f :: fs) = true ->
  CsvReader.parseLine_loop (join_commas f fs +++ tail) false EmptyString fields
  = CsvReader.parseLine_loop tail false (List.last (f :: fs) EmptyString)
                             (fields ++ removelast (f :: fs)).
Proof.
  induction fs as [ | f' fs' IH]; intros f tail fields H;
    cbn [forallb] in H; apply andb_prop in H; destruct H as [Hf Hfs].
  - cbn [join_commas List.last removelast]. rewrite app_nil_r.
    apply (parseLine_loop_plain f tail EmptyString fields Hf).
  - cbn [join_commas]. rewrite append_assoc. cbn [String.append].
    rewrite parseLine_loop_plain by exact Hf.
    cbn [CsvReader.parseLine_loop String.append].
    change (Ascii.eqb "," dquote) with false.
    change (Ascii.eqb "," ",") with true. cbv iota.
    rewrite IH by exact Hfs.
    unfold push_back. rewrite <- app_assoc. reflexivity.
Qed.

Lemma last_removelast (l : list string) :
  l <> [] -> removelast l ++ [List.last l EmptyString] = l.
Proof. intro H. symmetry. apply app_removelast_last, H. Qed.

(** X11.  A row of fields that hold no comma, no double quote and no
    carriage return, joined by commas, decodes to the fields themselves
    under either decoder, also when the line ends with the carriage return a
    Windows line ending leaves behind. *)
Theorem X11_unquoted_round_trip (f : string) (fs : list string) :
  forallb (all_chars plain_char) (f :: fs) = true ->
  CsvReader.parseLine (join_commas f fs) = f :: fs /\
  CsvReader.parseLine (join_commas f fs +++ str1 CR) = f :: fs /\
  NYC311Analyzer.parseCSVLine (join_commas f fs) = f :: fs /\
  NYC311Analyzer.parseCSVLine (join_commas f fs +++ str1 CR) = f :: fs.
Proof.
  intro H.
  assert (A : CsvReader.parseLine (join_commas f fs) = f :: fs).
  { unfold CsvReader.parseLine.
    rewrite <- (append_empty_r (join_commas f fs)).
    rewrite parseLine_loop_join by exact H.
    cbn [CsvReader.parseLine_loop app]. unfold push_back.
    apply last_removelast. discriminate. }
  assert (B : CsvReader.parseLine (join_commas f fs +++ str1 CR) = f :: fs).
  { unfold CsvReader.parseLine.
    rewrite parseLine_loop_join by exact H.
    unfold str1. cbn [CsvReader.parseLine_loop app].
    change (Ascii.eqb CR dquote) with false.
    change (Ascii.eqb CR ",") with false.
    change (Ascii.eqb CR CR) with true. cbv iota. unfold push_back.
    apply last_removelast. discriminate. }
  assert (C : map NYC311Analyzer.cleanString (f :: fs) = f :: fs).
  { apply map_cleanString_bare.
    apply forallb_forall. intros x Hx.
    rewrite forallb_forall in H. apply not_quote_bare, plain_not_quote, H, Hx. }
  split; [exact A | ]. split; [exact B | ].
  rewrite !parseCSVLine_clean, A, B. split; exact C.
Qed.

Lemma X11_unquoted_round_trip_witness :
  CsvReader.parseLine "a,b,c" = ["a"; "b"; "c"] /\
  CsvReader.parseLine ("a,b,c" +++ str1 CR) = ["a"; "b"; "c"].
Proof.
  destruct (X11_unquoted_round_trip "a" ["b"; "c"] eq_refl) as (A & B & _).
  exact (conj A B).
Defined.

(** X12.  A quote that is opened and never closed takes the rest of the
    line, commas and carriage returns included, as one field: after a row
    of plain fields, a line that goes on with a comma, a quote and any text
    without a further quote decodes to those fields and one last field
    holding all that text. *)
Theorem X12_unterminated_quote (f : string) (fs : list string) (s : string) :
  forallb (all_chars plain_char) (f :: fs) = true ->
  all_chars not_quote s = true ->
  CsvReader.parseLine (String dquote s) = [s] /\
  CsvReader.parseLine (join_commas f fs +++ String "," (String dquote s))
  = (f :: fs) ++ [s] /\
  NYC311Analyzer.parseCSVLine
    (join_commas f fs +++ String "," (String dquote s))
  = (f :: fs) ++ [s].
Proof.
  intros H Hs.
  assert (A : CsvReader.parseLine (String dquote s) = [s]).
  { unfold CsvReader.parseLine. cbn [CsvReader.parseLine_loop].
    rewrite Ascii.eqb_refl. apply (parseLine_loop_open_quote s EmptyString [] Hs). }
  assert (B : CsvReader.parseLine
                (join_commas f fs +++ String "," (String dquote s))
              = (f :: fs) ++ [s]).
  { unfold CsvReader.parseLine.
    rewrite parseLine_loop_join by exact H.
    cbn [CsvReader.parseLine_loop app].
    change (Ascii.eqb "," dquote) with false.
    change (Ascii.eqb "," ",") with true. cbv iota.
    rewrite Ascii.eqb_refl.
    rewrite parseLine_loop_open_quote by exact Hs.
    unfold push_back. cbn [String.append].
    rewrite last_removelast by discriminate. reflexivity. }
  split; [exact A | ]. split; [exact B | ].
  rewrite parseCSVLine_clean, B. apply map_cleanString_bare.
  rewrite forallb_app. apply andb_true_intro. split.
  - apply forallb_forall. intros x Hx. rewrite forallb_forall in H.
    apply not_quote_bare, plain_not_quote, H, Hx.
  - cbn. rewrite (not_quote_bare s Hs). reflexivity.
Qed.

Lemma X12_unterminated_quote_witness :
  CsvReader.parseLine ("a,b," +++ String dquote "c,d,e") = ["a"; "b"; "c,d,e"].
Proof.
  destruct (X12_unterminated_quote "a" ["b"] "c,d,e" eq_refl eq_refl)
    as (_ & B & _).
  exact B.
Defined.

Lemma back_append_char s c : back (s +++ str1 c) = Some c.
Proof.
  induction s as [ | x r IH]; [reflexivity | ].
  cbn [String.append back]. rewrite IH.
  destruct (r +++ str1 c) eqn:E; [ | reflexivity].
  destruct r; discriminate.
Qed.

Lemma pop_back_append_char s c : pop_back (s +++ str1 c) = s.
Proof.
  induction s as [ | x r IH]; [reflexivity | ].
  cbn [String.append pop_back]. rewrite IH.
  destruct (r +++ str1 c) eqn:E; [ | reflexivity].
  destruct r; discriminate.
Qed.

(** X13.  [cleanString] removes exactly the pair of double quotes that
    encloses a text, whatever the text holds; it removes at most one quote
    at each end, so its result is the input shortened by at most two
    characters; and it returns a text that neither begins nor ends with a
    quote unchanged. *)
Theorem X13_cleanString_strips_one_pair (s : string) :
  NYC311Analyzer.cleanString (String dquote (s +++ str1 dquote)) = s /\
  (String.length s - 2 <= String.length (NYC311Analyzer.cleanString s)
   <= String.length s)%nat /\
  (bare s = true -> NYC311Analyzer.cleanString s = s).
Proof.
  split; [ | split; [ | apply cleanString_bare ] ].
  - unfold NYC311Analyzer.cleanString. rewrite Ascii.eqb_refl.
    rewrite back_append_char, Ascii.eqb_refl. apply pop_back_append_char.
  - unfold NYC311Analyzer.cleanString.
    assert (P : forall t,
               (String.length t - 1
                <= String.length
                     match back t with
                     | Some c => if Ascii.eqb c dquote then pop_back t else t
                     | None => t
                     end
                <= String.length t)%nat).
    { intro t. destruct (back t) as [c | ]; [ | lia].
      destruct (Ascii.eqb c dquote); [ | lia].
      rewrite pop_back_length. lia. }
    destruct s as [ | c r]; [cbn; lia | ].
    destruct (Ascii.eqb c dquote).
    + specialize (P r). cbn [String.length]. lia.
    + specialize (P (String c r)). cbn [String.length] in *. lia.
Qed.

Lemma X13_cleanString_strips_one_pair_witness :
  NYC311Analyzer.cleanString (String dquote ("BROOKLYN" +++ str1 dquote))
  = "BROOKLYN" /\
  NYC311Analyzer.cleanString "BROOKLYN" = "BROOKLYN".
Proof.
  destruct (X13_cleanString_strips_one_pair "BROOKLYN") as (A & _ & C).
  split; [exact A | apply C; reflexivity].
Defined.

(* ------------------------------------------------------------------------- *)
(** ** More on temporal values *)

Lemma wrap_range w x : 0 < w -> 0 <= wrap w x < 2 ^ w.
Proof. intro H. unfold wrap. apply Z.mod_pos_bound. apply Z.pow_pos_nonneg; lia. Qed.

Lemma to24h_range h b : 0 <= h < 2 ^ 8 -> 0 <= to24h h b < 2 ^ 8.
Proof.
  intro H. unfold to24h.
  destruct (negb b); destruct (h =? 12); try lia.
  apply wrap_range. lia.
Qed.

(** Whatever the text, [parse] returns a value the field types hold. *)
Lemma parse_in_range s : in_range (parse s).
Proof.
  unfold parse.
  destruct (String.length s <? 11)%nat; [unfold in_range; cbn; lia | ].
  destruct (Scanf.datetime (c_str s))
    as [[[[[[[[mm dd] yyyy] hh] mi] ss] ampm] r] | ];
    [ | unfold in_range; cbn; lia ].
  unfold in_range. cbn [year month day hour minute second].
  pose proof (wrap_range 16 yyyy ltac:(lia)).
  pose proof (wrap_range 8 mm ltac:(lia)).
  pose proof (wrap_range 8 dd ltac:(lia)).
  pose proof (wrap_range 8 mi ltac:(lia)).
  pose proof (wrap_range 8 ss ltac:(lia)).
  pose proof (to24h_range (wrap 8 hh) (isPM ampm) (wrap_range 8 hh ltac:(lia))).
  repeat split; lia.
Qed.

(** On the values the field types hold, valid or not, the two translation
    units compute the same [operator<] and [operator==]. *)
Lemma orderings_agree_in_range a o :
  in_range a -> in_range o ->
  PackedKey.lt a o = FieldByField.lt a o /\
  PackedKey.eq a o = FieldByField.eq a o.
Proof.
  intros Ha Ho. split.
  - destruct (valid a) eqn:Va, (valid o) eqn:Vo.
    + rewrite packed_lt_rank, fields_lt_rank by assumption. reflexivity.
    + unfold PackedKey.lt, FieldByField.lt. rewrite Va, Vo. reflexivity.
    + unfold PackedKey.lt, FieldByField.lt. rewrite Va, Vo. reflexivity.
    + unfold PackedKey.lt, FieldByField.lt. rewrite Va, Vo. reflexivity.
  - unfold PackedKey.eq, FieldByField.eq.
    destruct (Bool.eqb (valid a) (valid o)); cbn [negb]; [ | reflexivity].
    rewrite !toKey_sum by assumption.
    unfold in_range in Ha, Ho.
    destruct (Z.eqb_spec (year a) (year o)); cbn [andb]; [ | bool_cmp ].
    destruct (Z.eqb_spec (month a) (month o)); cbn [andb]; [ | bool_cmp ].
    destruct (Z.eqb_spec (day a) (day o)); cbn [andb]; [ | bool_cmp ].
    destruct (Z.eqb_spec (hour a) (hour o)); cbn [andb]; [ | bool_cmp ].
    destruct (Z.eqb_spec (minute a) (minute o)); cbn [andb]; [ | bool_cmp ].
    bool_cmp.
Qed.

Lemma swrap_range w x : 0 < w -> - 2 ^ (w - 1) <= swrap w x < 2 ^ (w - 1).
Proof.
  intro H. unfold swrap.
  assert (E : 2 ^ w = 2 * 2 ^ (w - 1))
    by (rewrite <- Z.pow_succ_r by lia; f_equal; lia).
  pose proof (Z.mod_pos_bound (x + 2 ^ (w - 1)) (2 ^ w)
                ltac:(apply Z.pow_pos_nonneg; lia)).
  lia.
Qed.

Lemma parse_helpers_range s :
  0 <= parseZip s < 2 ^ 32 /\ 0 <= parseU64 s < 2 ^ 64 /\
  - 2 ^ 15 <= parseInt16 s < 2 ^ 15 /\ - 2 ^ 31 <= parseInt32 s < 2 ^ 31.
Proof.
  unfold parseZip, parseU64, parseInt16, parseInt32.
  destruct (empty s); [lia | ].
  destruct (Libc.strtoul (c_str s)), (Libc.strtoull (c_str s)),
    (Libc.strtol (c_str s));
    repeat split;
    first [ apply (wrap_range 32); lia | apply (wrap_range 64); lia
          | apply (swrap_range 16); lia | apply (swrap_range 32); lia | lia ].
Qed.

Lemma fromFields_in_types strtod f this :
  in_types this -> in_types (snd (fromFields strtod f this)).
Proof.
  intro H. unfold fromFields.
  destruct (List.length f <? 43)%nat; [exact H | ].
  unfold in_types.
  cbn [snd uniqueKey incidentZip bbl councilDistrict xCoordinate yCoordinate
       createdDate closedDate dueDate resolutionUpdatedDate].
  pose proof (parse_helpers_range (col f 0)) as (_ & U0 & _).
  pose proof (parse_helpers_range (col f 9)) as (Z9 & _).
  pose proof (parse_helpers_range (col f 27)) as (_ & U27 & _).
  pose proof (parse_helpers_range (col f 25)) as (_ & _ & I25 & _).
  pose proof (parse_helpers_range (col f 29)) as (_ & _ & _ & I29).
  pose proof (parse_helpers_range (col f 30)) as (_ & _ & _ & I30).
  repeat split; first [ lia | apply parse_in_range ].
Qed.

Lemma default_in_types : in_types ServiceRequest_default.
Proof. unfold in_types, in_range. cbn. lia. Qed.

Lemma stored_in_types strtod decode lines :
  Forall in_types (stored strtod decode lines).
Proof.
  induction lines as [ | line lines IH]; [constructor | ].
  cbn [stored]. unfold accepted.
  pose proof (fromFields_in_types strtod (decode line) ServiceRequest_default
                default_in_types) as T.
  destruct (fromFields strtod (decode line) ServiceRequest_default)
    as [[ | ] r]; [ constructor; [exact T | exact IH] | exact IH ].
Qed.

(** X14.  Conversion never leaves the types: whatever the text, the four
    integer helpers return a value of their target type and [parse] a value
    whose fields fit theirs; so [fromFields] turns a record within its
    attribute types into one within them, and every record a loader stores
    is within them. *)
Theorem X14_population_within_types (strtod : string -> option float) :
  (forall s,
      0 <= parseZip s < 2 ^ 32 /\ 0 <= parseU64 s < 2 ^ 64 /\
      - 2 ^ 15 <= parseInt16 s < 2 ^ 15 /\ - 2 ^ 31 <= parseInt32 s < 2 ^ 31 /\
      in_range (parse s)) /\
  (forall f this, in_types this -> in_types (snd (fromFields strtod f this))) /\
  (forall decode lines, Forall in_types (stored strtod decode lines)) /\
  (forall content,
      Forall in_types (snd (fst (DataStore.load strtod content))) /\
      Forall in_types (Driver.records (Driver.loadData strtod content))).
Proof.
  split; [ | split; [ | split ] ].
  - intro s. pose proof (parse_helpers_range s) as (A & B & C & D).
    repeat split; first [ lia | apply parse_in_range ].
  - intros f this. apply fromFields_in_types.
  - intros decode lines. apply stored_in_types.
  - intros [c | ]; [ | split; constructor ].
    rewrite DataStore_load_open, Driver_loadData_records. cbn [fst snd].
    split; [apply stored_in_types | ].
    apply Forall_forall. intros r Hr.
    pose proof (stored_in_types strtod NYC311Analyzer.parseCSVLine
                  (tl (getlines c))) as F.
    rewrite Forall_forall in F. apply F.
    rewrite <- (firstn_skipn (Z.to_nat Driver.RECORD_LIMIT)).
    apply in_or_app. left. exact Hr.
Qed.

(** X15.  The two translation units answer the date-range query alike.  On
    a store whose creation dates fit the field types, and for bounds that
    do, [filterByCreatedDateRange] returns the same records whether
    [DateTime] is compared through the packed key or field by field, valid
    or not; this holds for every store a loader builds and all bounds
    [parse] returns. *)
Theorem X15_date_query_same_in_both_units :
  (forall records start end_,
      Forall (fun r => in_range (createdDate r)) records ->
      in_range start -> in_range end_ ->
      @DataStore.filterByCreatedDateRange PackedKey.ops records start end_
      = @DataStore.filterByCreatedDateRange FieldByField.ops records start end_ /\
      @Driver.filterByCreatedDateRange PackedKey.ops records start end_
      = @Driver.filterByCreatedDateRange FieldByField.ops records start end_) /\
  (forall strtod decode lines s e,
      @DataStore.filterByCreatedDateRange PackedKey.ops
        (stored strtod decode lines) (parse s) (parse e)
      = @DataStore.filterByCreatedDateRange FieldByField.ops
          (stored strtod decode lines) (parse s) (parse e)).
Proof.
  assert (A : forall records start end_,
             Forall (fun r => in_range (createdDate r)) records ->
             in_range start -> in_range end_ ->
             @DataStore.filterByCreatedDateRange PackedKey.ops records start end_
             = @DataStore.filterByCreatedDateRange FieldByField.ops records
                 start end_ /\
             @Driver.filterByCreatedDateRange PackedKey.ops records start end_
             = @Driver.filterByCreatedDateRange FieldByField.ops records
                 start end_).
  { intros records start end_ F Hs He.
    rewrite !DataStore_filter_exact, !Driver_filter_exact.
    rewrite Forall_forall in F.
    split; apply filter_ext_in; intros r Hr; specialize (F r Hr);
      unfold in_date_range, op_ge, op_le;
      cbn [op_lt PackedKey.ops FieldByField.ops];
      rewrite (proj1 (orderings_agree_in_range _ _ F Hs)),
        (proj1 (orderings_agree_in_range _ _ He F)); reflexivity. }
  split; [exact A | ].
  intros strtod decode lines s e. apply A; try apply parse_in_range.
  eapply Forall_impl; [ | apply (stored_in_types strtod decode lines)].
  intros r T. apply T.
Qed.

Lemma X15_date_query_same_in_both_units_witness :
  @DataStore.filterByCreatedDateRange PackedKey.ops
    [ServiceRequest_default] (parse "01/01/2013 12:00:00 AM")
    (parse "12/31/2013 11:59:59 PM")
  = @DataStore.filterByCreatedDateRange FieldByField.ops
      [ServiceRequest_default] (parse "01/01/2013 12:00:00 AM")
      (parse "12/31/2013 11:59:59 PM").
Proof.
  destruct X15_date_query_same_in_both_units as [A _].
  apply A.
  - repeat constructor; unfold in_range; cbn; lia.
  - apply parse_in_range.
  - apply parse_in_range.
Defined.

(** X16.  With a valid lower bound the driver's date-range query, which does
    not test [valid], returns the records [DataStore]'s query returns: a
    record with an invalid creation date is below every valid bound and is
    left out by the comparison itself. *)
Theorem X16_driver_date_query_valid_start
        (O : DateTimeOps) (records : list ServiceRequest)
        (start end_ : DateTime) :
  O = PackedKey.ops \/ O = FieldByField.ops ->
  valid start = true ->
  @Driver.filterByCreatedDateRange O records start end_
  = @DataStore.filterByCreatedDateRange O records start end_.
Proof.
  intros HO V. rewrite Driver_filter_exact, DataStore_filter_exact.
  apply filter_ext. intro r. unfold in_date_range, op_ge, op_le.
  destruct (valid (createdDate r)) eqn:Vr; [reflexivity | ].
  destruct HO as [-> | ->]; cbn [op_lt PackedKey.ops FieldByField.ops];
    unfold PackedKey.lt, FieldByField.lt; rewrite Vr, V; reflexivity.
Qed.

Lemma X16_driver_date_query_valid_start_witness :
  @Driver.filterByCreatedDateRange PackedKey.ops [ServiceRequest_default]
    (parse "01/01/2013 12:00:00 AM") (parse "")
  = [].
Proof.
  rewrite (X16_driver_date_query_valid_start PackedKey.ops
             [ServiceRequest_default] (parse "01/01/2013 12:00:00 AM")
             (parse "") (or_introl eq_refl) eq_refl).
  reflexivity.
Defined.

(** X17.  [to24h] maps the 24 pairs of a 12-hour clock, hours 1 to 12 with
    AM or PM, one to one onto the hours 0 to 23. *)
Theorem X17_to24h_bijection :
  (forall h pm, 1 <= h <= 12 -> 0 <= to24h h pm <= 23) /\
  (forall h1 pm1 h2 pm2,
      1 <= h1 <= 12 -> 1 <= h2 <= 12 ->
      to24h h1 pm1 = to24h h2 pm2 -> h1 = h2 /\ pm1 = pm2) /\
  (forall H, 0 <= H <= 23 ->
             exists h pm, 1 <= h <= 12 /\ to24h h pm = H).
Proof.
  assert (E : forall h pm, 1 <= h <= 12 ->
                to24h h pm = if h =? 12 then (if pm then 12 else 0)
                             else (if pm then h + 12 else h)).
  { intros h pm Hh. unfold to24h, wrap.
    destruct pm; cbn [negb]; destruct (Z.eqb_spec h 12); try reflexivity.
    apply Z.mod_small. lia. }
  split; [ | split ].
  - intros h pm Hh. rewrite E by exact Hh.
    destruct (Z.eqb_spec h 12), pm; lia.
  - intros h1 pm1 h2 pm2 H1 H2. rewrite !E by assumption.
    destruct (Z.eqb_spec h1 12), (Z.eqb_spec h2 12), pm1, pm2; intro Q;
      first [ split; [lia | reflexivity] | exfalso; lia ].
  - intros H HH.
    destruct (Z.eq_dec H 0) as [-> | N0];
      [exists 12, false; split; [lia | reflexivity] | ].
    destruct (Z.eq_dec H 12) as [-> | N12];
      [exists 12, true; split; [lia | reflexivity] | ].
    destruct (Z_lt_le_dec H 12) as [L | G].
    + exists H, false. split; [lia | ]. rewrite E by lia.
      destruct (Z.eqb_spec H 12); [lia | reflexivity].
    + exists (H - 12), true. split; [lia | ]. rewrite E by lia.
      destruct (Z.eqb_spec (H - 12) 12); lia.
Qed.

Lemma X17_to24h_bijection_witness :
  0 <= to24h 12 false <= 23 /\ 0 <= to24h 11 true <= 23.
Proof.
  destruct X17_to24h_bijection as (R & _ & _).
  split; apply R; lia.
Defined.

Lemma c_str_app a b :
  all_chars not_nul a = true -> c_str (a +++ b) = a +++ c_str b.
Proof.
  induction a as [ | c r IH]; cbn [all_chars String.append c_str];
    [reflexivity | ].
  intro H. apply andb_prop in H. destruct H as [Hc Hr].
  unfold not_nul in Hc. apply negb_true_iff in Hc.
  rewrite Hc, IH by exact Hr. reflexivity.
Qed.

Section TimestampWithTail.

Variables mm dd yyyy hh mi ss : Z.
Variable pm : bool.
Hypothesis Hmm : 1 <= mm <= 12.
Hypothesis Hdd : 1 <= dd <= 31.
Hypothesis Hyyyy : 0 <= yyyy <= 9999.
Hypothesis Hhh : 1 <= hh <= 12.
Hypothesis Hmi : 0 <= mi <= 59.
Hypothesis Hss : 0 <= ss <= 59.

Lemma timestamp_not_nul :
  all_chars not_nul (timestamp mm dd yyyy hh mi ss pm) = true.
Proof.
  unfold timestamp.
  repeat (rewrite all_chars_app; cbn [all_chars]).
  rewrite !two_digits_not_nul, four_digits_not_nul by lia.
  destruct pm; reflexivity.
Qed.

Lemma timestamp_tail_shape tail :
  timestamp mm dd yyyy hh mi ss pm +++ tail
  = two_digits mm +++ String "/" (two_digits dd +++ String "/" (
    four_digits yyyy +++ String " " (two_digits hh +++ String ":" (
    two_digits mi +++ String ":" (two_digits ss +++ String " " (
    (if pm then "PM" else "AM") +++ tail)))))).
Proof.
  unfold timestamp.
  repeat (rewrite append_assoc; cbn [String.append]).
  reflexivity.
Qed.

Lemma timestamp_tail_scanned tail :
  Scanf.datetime (timestamp mm dd yyyy hh mi ss pm +++ tail)
  = Some ((mm, dd, yyyy, hh, mi, ss, if pm then "PM" else "AM"), tail).
Proof.
  rewrite timestamp_tail_shape. unfold Scanf.datetime, scan_bind.
  rewrite conv_u_two_digits by first [lia | reflexivity]. cbv beta iota.
  rewrite lit_match.
  rewrite conv_u_two_digits by first [lia | reflexivity]. cbv beta iota.
  rewrite lit_match.
  rewrite conv_u_four_digits by first [lia | reflexivity]. cbv beta iota.
  rewrite white_two_digits by lia.
  rewrite conv_u_two_digits by first [lia | reflexivity]. cbv beta iota.
  rewrite lit_match.
  rewrite conv_u_two_digits by first [lia | reflexivity]. cbv beta iota.
  rewrite lit_match.
  rewrite (conv_u_two_digits ss " ") by first [lia | reflexivity].
  cbv beta iota.
  destruct pm; reflexivity.
Qed.

Lemma timestamp_tail_parsed tail :
  parse (timestamp mm dd yyyy hh mi ss pm +++ tail)
  = mkDateTime yyyy mm dd (hour24 hh pm) mi ss true.
Proof.
  assert (E : Scanf.datetime (c_str (timestamp mm dd yyyy hh mi ss pm +++ tail))
              = Some ((mm, dd, yyyy, hh, mi, ss, if pm then "PM" else "AM"),
                      c_str tail))
    by (rewrite c_str_app by exact timestamp_not_nul;
        apply timestamp_tail_scanned).
  rewrite (parse_scanned _ _ _ _ _ _ _ _ _ E).
  rewrite to24h_hour24 by exact Hhh. unfold wrap.
  rewrite !Z.mod_small by lia. reflexivity.
Qed.

End TimestampWithTail.

(** X18.  [parse] does not look past the meridiem: a well-formed timestamp
    followed by any text at all parses to the value of the timestamp
    alone. *)
Theorem X18_parse_ignores_trailing_text
        (mm dd yyyy hh mi ss : Z) (pm : bool) (tail : string) :
  1 <= mm <= 12 -> 1 <= dd <= 31 -> 0 <= yyyy <= 9999 ->
  1 <= hh <= 12 -> 0 <= mi <= 59 -> 0 <= ss <= 59 ->
  parse (timestamp mm dd yyyy hh mi ss pm +++ tail)
  = parse (timestamp mm dd yyyy hh mi ss pm) /\
  valid (parse (timestamp mm dd yyyy hh mi ss pm +++ tail)) = true.
Proof.
  intros Hmm Hdd Hyyyy Hhh Hmi Hss.
  rewrite timestamp_tail_parsed, timestamp_parsed by assumption.
  split; reflexivity.
Qed.

Lemma X18_parse_ignores_trailing_text_witness :
  parse "09/29/2013 12:00:00 PM and then some"
  = parse "09/29/2013 12:00:00 PM".
Proof.
  apply (X18_parse_ignores_trailing_text 9 29 2013 12 0 0 true
           " and then some"); lia.
Defined.

(* ------------------------------------------------------------------------- *)
(** ** Rendering *)

Lemma substring_length s : forall n,
  (String.length (substring 0 n s) <= n)%nat.
Proof.
  induction s as [ | c r IH]; intros [ | n]; cbn; try lia.
  specialize (IH n). lia.
Qed.

Lemma fmt_u_head w n :
  exists k r, 0 <= k <= 9 /\ Libc.fmt_u w n = String (digit_char k) r.
Proof.
  unfold Libc.fmt_u, Libc.utoa.
  destruct (dec_digits_head (Z.to_nat (Z.log2 n)) n EmptyString)
    as (k & r & Hk & E).
  rewrite E.
  destruct (w - String.length (String (digit_char k) r))%nat as [ | z].
  - exists k, r. split; [exact Hk | reflexivity].
  - exists 0, (Libc.zeros z +++ String (digit_char k) r).
    split; [lia | reflexivity].
Qed.

Lemma digit_char_inj a b :
  0 <= a <= 9 -> 0 <= b <= 9 -> digit_char a = digit_char b -> a = b.
Proof.
  intros Ha Hb E.
  rewrite <- (digit_val_digit_char a Ha), <- (digit_val_digit_char b Hb), E.
  reflexivity.
Qed.

Lemma two_digits_inj a b :
  0 <= a < 100 -> 0 <= b < 100 -> two_digits a = two_digits b -> a = b.
Proof.
  intros Ha Hb E. unfold two_digits, str1 in E. inversion E as [[E1 E2]].
  assert (0 <= a / 10 <= 9 /\ 0 <= b / 10 <= 9)
    by (split; split; first [apply Z.div_pos; lia
                            | apply Z.lt_succ_r, Z.div_lt_upper_bound; lia]).
  pose proof (Z.mod_pos_bound a 10 ltac:(lia)).
  pose proof (Z.mod_pos_bound b 10 ltac:(lia)).
  apply digit_char_inj in E1; [ | lia | lia].
  apply digit_char_inj in E2; [ | lia | lia].
  rewrite (Z.div_mod a 10), (Z.div_mod b 10) by lia. lia.
Qed.

Lemma four_digits_inj a b :
  0 <= a < 10000 -> 0 <= b < 10000 -> four_digits a = four_digits b -> a = b.
Proof.
  intros Ha Hb E. unfold four_digits, str1 in E.
  inversion E as [[E1 E2 E3 E4]].
  assert (0 <= a / 1000 <= 9 /\ 0 <= b / 1000 <= 9)
    by (split; split; first [apply Z.div_pos; lia
                            | apply Z.lt_succ_r, Z.div_lt_upper_bound; lia]).
  pose proof (Z.mod_pos_bound (a / 100) 10 ltac:(lia)).
  pose proof (Z.mod_pos_bound (b / 100) 10 ltac:(lia)).
  pose proof (Z.mod_pos_bound (a / 10) 10 ltac:(lia)).
  pose proof (Z.mod_pos_bound (b / 10) 10 ltac:(lia)).
  pose proof (Z.mod_pos_bound a 10 ltac:(lia)).
  pose proof (Z.mod_pos_bound b 10 ltac:(lia)).
  apply digit_char_inj in E1; [ | lia | lia].
  apply digit_char_inj in E2; [ | lia | lia].
  apply digit_char_inj in E3; [ | lia | lia].
  apply digit_char_inj in E4; [ | lia | lia].
  pose proof (Z.div_mod a 10 ltac:(lia)).
  pose proof (Z.div_mod (a / 10) 10 ltac:(lia)).
  pose proof (Z.div_mod (a / 100) 10 ltac:(lia)).
  pose proof (Z.div_mod b 10 ltac:(lia)).
  pose proof (Z.div_mod (b / 10) 10 ltac:(lia)).
  pose proof (Z.div_mod (b / 100) 10 ltac:(lia)).
  assert (a / 10 / 10 = a / 100) by (rewrite Z.div_div by lia; reflexivity).
  assert (a / 100 / 10 = a / 1000) by (rewrite Z.div_div by lia; reflexivity).
  assert (b / 10 / 10 = b / 100) by (rewrite Z.div_div by lia; reflexivity).
  assert (b / 100 / 10 = b / 1000) by (rewrite Z.div_div by lia; reflexivity).
  lia.
Qed.

Lemma toString_printable d :
  printable d ->
  toString d
  = canonical (year d) (month d) (day d) (hour d) (minute d) (second d).
Proof.
  intros (V & Hy & Hm & Hd & Hh & Hmi & Hs).
  unfold toString. rewrite V. cbn [negb].
  rewrite !fmt_u_two_digits, fmt_u_four_digits by lia.
  reflexivity.
Qed.

(** X19.  [toString] gives the marker for an invalid value and only for an
    invalid value; what it gives for a valid one never exceeds the 19
    characters the buffer leaves room for; and on valid values with a year
    of at most four digits and other fields of at most two it is the
    19-character canonical form and is one to one. *)
Theorem X19_toString_faithful :
  (forall d, valid d = false -> toString d = "(invalid)") /\
  (forall d, valid d = true ->
             toString d <> "(invalid)" /\
             (String.length (toString d) <= 19)%nat) /\
  (forall d, printable d ->
             toString d
             = canonical (year d) (month d) (day d)
                         (hour d) (minute d) (second d) /\
             String.length (toString d) = 19%nat) /\
  (forall d d', printable d -> printable d' ->
                toString d = toString d' -> d = d').
Proof.
  split; [ | split; [ | split ] ].
  - intros d V. unfold toString. rewrite V. reflexivity.
  - intros d V. unfold toString. rewrite V. cbn [negb]. split.
    + destruct (fmt_u_head 4 (year d)) as (k & r & Hk & E). rewrite E.
      unfold snprintf. cbn [String.append Nat.sub substring].
      intro H. injection H as Hc _.
      pose proof (isdigit_digit_char k Hk) as D. rewrite Hc in D.
      discriminate D.
    + unfold snprintf. apply substring_length.
  - intros d P. rewrite (toString_printable d P).
    split; reflexivity.
  - intros d d' P P' E.
    rewrite (toString_printable d P), (toString_printable d' P') in E.
    destruct P as (V & Hy & Hm & Hd & Hh & Hmi & Hs).
    destruct P' as (V' & Hy' & Hm' & Hd' & Hh' & Hmi' & Hs').
    unfold canonical in E.
    assert (Ey : four_digits (year d) = four_digits (year d') /\
                 two_digits (month d) = two_digits (month d') /\
                 two_digits (day d) = two_digits (day d') /\
                 two_digits (hour d) = two_digits (hour d') /\
                 two_digits (minute d) = two_digits (minute d') /\
                 two_digits (second d) = two_digits (second d')).
    { unfold four_digits, two_digits, str1 in *.
      cbn [String.append] in E.
      inversion E. repeat split; congruence. }
    destruct Ey as (E1 & E2 & E3 & E4 & E5 & E6).
    apply four_digits_inj in E1; [ | lia | lia].
    apply two_digits_inj in E2; [ | lia | lia].
    apply two_digits_inj in E3; [ | lia | lia].
    apply two_digits_inj in E4; [ | lia | lia].
    apply two_digits_inj in E5; [ | lia | lia].
    apply two_digits_inj in E6; [ | lia | lia].
    destruct d, d'. cbn in *. congruence.
Qed.

Lemma X19_toString_faithful_witness :
  toString (mkDateTime 2013 9 29 12 0 0 true) = "2013-09-29 12:00:00".
Proof.
  destruct X19_toString_faithful as (_ & _ & C & _).
  destruct (C (mkDateTime 2013 9 29 12 0 0 true)) as [E _].
  - unfold printable. cbn. lia.
  - rewrite E. reflexivity.
Defined.

(* ------------------------------------------------------------------------- *)
(** ** Numerals inside other text *)

Lemma dec_digits_acc fuel : forall n acc,
  Libc.dec_digits fuel n acc = Libc.dec_digits fuel n EmptyString +++ acc.
Proof.
  induction fuel as [ | f IH]; intros n acc; [reflexivity | ].
  cbn [Libc.dec_digits]. destruct (n <? 10); [reflexivity | ].
  rewrite IH, (IH _ (String _ EmptyString)), append_assoc. reflexivity.
Qed.

Lemma scan_digits_no_digit_head acc s :
  no_digit_head s = true -> Libc.scan_digits acc s = (acc, s).
Proof.
  destruct s as [ | c r]; [reflexivity | ].
  cbn. intro H. apply negb_true_iff in H. rewrite H. reflexivity.
Qed.

Lemma utoa_scan_rest n rest :
  0 <= n -> no_digit_head rest = true ->
  Libc.scan_digits 0 (Libc.utoa n +++ rest) = (n, rest).
Proof.
  intros Hn Hr. unfold Libc.utoa. rewrite <- dec_digits_acc.
  rewrite dec_digits_scan; [apply scan_digits_no_digit_head, Hr | ].
  split; [exact Hn | ].
  rewrite Nat2Z.inj_succ, Z2Nat.id by apply Z.log2_nonneg.
  destruct (Z.eq_dec n 0) as [-> | Hz]; [reflexivity | ].
  apply Z.log2_spec. lia.
Qed.

Lemma skip_space_app ws s :
  all_chars isspace ws = true ->
  Libc.skip_space (ws +++ s) = Libc.skip_space s.
Proof.
  induction ws as [ | c r IH]; cbn [all_chars String.append];
    [reflexivity | ].
  intro H. apply andb_prop in H. destruct H as [Hc Hr].
  cbn [Libc.skip_space]. rewrite Hc. apply IH, Hr.
Qed.

Lemma subject_in_text ws n rest :
  all_chars isspace ws = true -> 0 <= n -> no_digit_head rest = true ->
  Libc.subject (ws +++ Libc.utoa n +++ rest) = Some (false, n, rest).
Proof.
  intros Hws Hn Hr. unfold Libc.subject.
  rewrite skip_space_app by exact Hws.
  pose proof (utoa_scan_rest n rest Hn Hr) as Sc.
  unfold Libc.utoa in *.
  destruct (dec_digits_head (Z.to_nat (Z.log2 n)) n EmptyString)
    as (k & r & Hk & E).
  rewrite E in *. cbn [String.append] in *.
  pose proof (isdigit_digit_char k Hk) as D.
  destruct (isdigit_plain _ D) as (S & M & P & _).
  cbn [Libc.skip_space]. rewrite S, M, P, D, Sc. reflexivity.
Qed.

Lemma space_not_nul ws :
  all_chars isspace ws = true -> all_chars not_nul ws = true.
Proof.
  apply all_chars_impl. intros c H. unfold not_nul.
  destruct (Ascii.eqb_spec c NUL) as [-> | ]; [discriminate H | reflexivity].
Qed.

Lemma c_str_no_digit_head s :
  no_digit_head s = true -> no_digit_head (c_str s) = true.
Proof.
  destruct s as [ | c r]; [reflexivity | ].
  cbn. destruct (Ascii.eqb c NUL); [reflexivity | ]. cbn. tauto.
Qed.

(** X20.  The integer helpers read a numeral out of the text around it:
    white space before it and anything after it that does not start with a
    digit change nothing, so a zip written with a plus-four suffix converts
    as its first five digits do. *)
Theorem X20_numeral_in_text (ws : string) (n : Z) (rest : string) :
  all_chars isspace ws = true -> 0 <= n -> no_digit_head rest = true ->
  parseZip (ws +++ Libc.utoa n +++ rest) = parseZip (Libc.utoa n) /\
  parseU64 (ws +++ Libc.utoa n +++ rest) = parseU64 (Libc.utoa n) /\
  parseInt32 (ws +++ Libc.utoa n +++ rest) = parseInt32 (Libc.utoa n) /\
  parseInt16 (ws +++ Libc.utoa n +++ rest) = parseInt16 (Libc.utoa n).
Proof.
  intros Hws Hn Hr.
  assert (Ec : c_str (ws +++ Libc.utoa n +++ rest)
               = ws +++ Libc.utoa n +++ c_str rest).
  { rewrite c_str_app by (apply space_not_nul, Hws). f_equal.
    apply c_str_app. rewrite <- (utoa_c_str n).
    apply (all_chars_impl isdigit).
    - intros c Hc. apply isdigit_plain in Hc. destruct Hc as (_ & _ & _ & N).
      unfold not_nul. rewrite N. reflexivity.
    - rewrite utoa_c_str. apply dec_digits_all_digits. reflexivity. }
  assert (Ee : empty (ws +++ Libc.utoa n +++ rest) = false).
  { destruct (ws +++ Libc.utoa n +++ rest) eqn:E; [ | reflexivity].
    apply (f_equal String.length) in E. rewrite !append_length in E.
    pose proof (utoa_not_empty n) as U.
    destruct (Libc.utoa n); [discriminate U | cbn in E; lia]. }
  unfold parseZip, parseU64, parseInt32, parseInt16, Libc.strtoull,
    Libc.strtoul, Libc.strtoul_rest, Libc.strtol.
  rewrite Ee, Ec, utoa_not_empty, utoa_c_str.
  rewrite (subject_in_text ws n (c_str rest) Hws Hn (c_str_no_digit_head _ Hr)).
  rewrite (proj1 (utoa_subject n Hn)).
  repeat split.
Qed.

Lemma X20_numeral_in_text_witness :
  parseZip " 10001-1234" = 10001 /\ parseInt16 "33rd" = 33.
Proof.
  destruct (X20_numeral_in_text " " 10001 "-1234" eq_refl ltac:(lia) eq_refl)
    as (Z1 & _).
  destruct (X20_numeral_in_text "" 33 "rd" eq_refl ltac:(lia) eq_refl)
    as (_ & _ & _ & I1).
  split.
  - transitivity (parseZip (Libc.utoa 10001)); [exact Z1 | reflexivity].
  - transitivity (parseInt16 (Libc.utoa 33)); [exact I1 | reflexivity].
Defined.

(* ------------------------------------------------------------------------- *)
(** ** The derived comparison operators *)

Lemma ops_by_rank (O : DateTimeOps) a b :
  O = PackedKey.ops \/ O = FieldByField.ops ->
  in_range a -> in_range b -> valid a = true -> valid b = true ->
  @op_lt O a b = (rank a <? rank b) /\ @op_eq O a b = (rank a =? rank b).
Proof.
  intros [-> | ->] Ha Hb Va Vb; cbn [op_lt op_eq PackedKey.ops FieldByField.ops].
  - split; [apply packed_lt_rank | apply packed_eq_rank]; assumption.
  - split; [apply fields_lt_rank | apply fields_eq_rank]; assumption.
Qed.

(** X21.  The four operators derived from [operator<] and [operator==]
    behave as their names say on valid values of the field types, in either
    translation unit: [a <= b] is [a < b] or [a == b], [a >= b] is [a > b]
    or [a == b], [a != b] is [a < b] or [a > b], and [a <= b] together with
    [b <= a] is [a == b].  An invalid value is [<=] every value, and no
    valid value is [<=] an invalid one. *)
Theorem X21_derived_operators (O : DateTimeOps) (a b : DateTime) :
  O = PackedKey.ops \/ O = FieldByField.ops ->
  (in_range a -> in_range b -> valid a = true -> valid b = true ->
   @op_le O a b = @op_lt O a b || @op_eq O a b /\
   @op_ge O a b = @op_gt O a b || @op_eq O a b /\
   @op_ne O a b = @op_lt O a b || @op_gt O a b /\
   @op_le O a b && @op_le O b a = @op_eq O a b) /\
  (valid a = false -> @op_le O a b = true) /\
  (valid a = true -> valid b = false ->
   @op_le O a b = false /\ @op_ge O a b = true).
Proof.
  intro HO. split; [ | split ].
  - intros Ha Hb Va Vb. unfold op_le, op_ge, op_gt, op_ne.
    destruct (ops_by_rank O a b HO Ha Hb Va Vb) as [-> ->].
    destruct (ops_by_rank O b a HO Hb Ha Vb Va) as [-> _].
    destruct (Z.ltb_spec (rank a) (rank b)), (Z.ltb_spec (rank b) (rank a)),
      (Z.eqb_spec (rank a) (rank b)); cbn; repeat split; lia.
  - intro Va. unfold op_le.
    destruct HO as [-> | ->]; cbn [op_lt PackedKey.ops FieldByField.ops];
      unfold PackedKey.lt, FieldByField.lt; rewrite Va;
      destruct (valid b); reflexivity.
  - intros Va Vb. unfold op_le, op_ge.
    destruct HO as [-> | ->]; cbn [op_lt PackedKey.ops FieldByField.ops];
      unfold PackedKey.lt, FieldByField.lt; rewrite Va, Vb; split; reflexivity.
Qed.

Lemma X21_derived_operators_witness :
  @op_le PackedKey.ops (parse "01/01/2013 12:00:00 AM")
                       (parse "12/31/2013 11:59:59 PM")
  = true /\
  @op_le FieldByField.ops (parse "") (parse "12/31/2013 11:59:59 PM") = true.
Proof.
  destruct (X21_derived_operators PackedKey.ops
              (parse "01/01/2013 12:00:00 AM") (parse "12/31/2013 11:59:59 PM")
              (or_introl eq_refl)) as (A & _ & _).
  destruct (X21_derived_operators FieldByField.ops
              (parse "") (parse "12/31/2013 11:59:59 PM")
              (or_intror eq_refl)) as (_ & B & _).
  split.
  - destruct (A (parse_in_range _) (parse_in_range _) eq_refl eq_refl)
      as (E & _).
    rewrite E. reflexivity.
  - apply B. reflexivity.
Defined.

(* ------------------------------------------------------------------------- *)
(** ** Timestamps with fields of any size *)

Lemma conv_u_utoa n rest :
  0 <= n < 2 ^ 32 -> no_digit_head rest = true ->
  Scanf.conv_u (Libc.utoa n +++ rest) = Some (n, rest).
Proof.
  intros Hn Hr. unfold Scanf.conv_u, Libc.strtoul_rest.
  pose proof (subject_in_text EmptyString n rest eq_refl ltac:(lia) Hr) as S.
  cbn [String.append] in S. rewrite S.
  unfold ULONG_MAX, LONG_BITS.
  destruct (Z.ltb_spec (2 ^ 64 - 1) n); [lia | ].
  rewrite wrap_id by lia. reflexivity.
Qed.

Lemma utoa_head_not_space n rest :
  Libc.skip_space (Libc.utoa n +++ rest) = Libc.utoa n +++ rest.
Proof.
  unfold Libc.utoa.
  destruct (dec_digits_head (Z.to_nat (Z.log2 n)) n EmptyString)
    as (k & r & Hk & E).
  rewrite E. cbn [String.append Libc.skip_space].
  destruct (isdigit_plain _ (isdigit_digit_char k Hk)) as (S & _).
  rewrite S. reflexivity.
Qed.

Lemma utoa_not_nul n : all_chars not_nul (Libc.utoa n) = true.
Proof.
  apply (all_chars_impl isdigit).
  - intros c Hc. apply isdigit_plain in Hc. destruct Hc as (_ & _ & _ & N).
    unfold not_nul. rewrite N. reflexivity.
  - apply dec_digits_all_digits. reflexivity.
Qed.

(** X22.  [parse] takes numbers of any size and keeps what fits: for
    unpadded numbers below 2^32 the value is valid, the year is the written
    year modulo 65536 and month, day, minute and second are the written
    numbers modulo 256; the hour is converted from the written hour modulo
    256. *)
Theorem X22_parse_reduces_fields (mm dd yyyy hh mi ss : Z) (pm : bool) :
  0 <= mm < 2 ^ 32 -> 0 <= dd < 2 ^ 32 -> 0 <= yyyy < 2 ^ 32 ->
  0 <= hh < 2 ^ 32 -> 0 <= mi < 2 ^ 32 -> 0 <= ss < 2 ^ 32 ->
  parse (timestamp_plain mm dd yyyy hh mi ss pm)
  = mkDateTime (yyyy mod 65536) (mm mod 256) (dd mod 256)
               (to24h (hh mod 256) pm) (mi mod 256) (ss mod 256) true.
Proof.
  intros Hmm Hdd Hyyyy Hhh Hmi Hss.
  assert (N : all_chars not_nul (timestamp_plain mm dd yyyy hh mi ss pm) = true).
  { unfold timestamp_plain.
    repeat (rewrite all_chars_app; cbn [all_chars]).
    rewrite !utoa_not_nul. destruct pm; reflexivity. }
  assert (E : Scanf.datetime (c_str (timestamp_plain mm dd yyyy hh mi ss pm))
              = Some ((mm, dd, yyyy, hh, mi, ss, if pm then "PM" else "AM"),
                      EmptyString)).
  { rewrite (c_str_id _ N).
    unfold Scanf.datetime, timestamp_plain, scan_bind.
    rewrite conv_u_utoa by first [lia | reflexivity]. cbv beta iota.
    rewrite lit_match.
    rewrite conv_u_utoa by first [lia | reflexivity]. cbv beta iota.
    rewrite lit_match.
    rewrite conv_u_utoa by first [lia | reflexivity]. cbv beta iota.
    unfold Scanf.white at 1. cbn [Libc.skip_space].
    change (isspace " ") with true. cbv iota.
    rewrite utoa_head_not_space.
    rewrite conv_u_utoa by first [lia | reflexivity]. cbv beta iota.
    rewrite lit_match.
    rewrite conv_u_utoa by first [lia | reflexivity]. cbv beta iota.
    rewrite lit_match.
    rewrite (conv_u_utoa ss) by first [lia | reflexivity]. cbv beta iota.
    destruct pm; reflexivity. }
  rewrite (parse_scanned _ _ _ _ _ _ _ _ _ E).
  unfold wrap. destruct pm; reflexivity.
Qed.

Lemma X22_parse_reduces_fields_witness :
  parse "1/1/70000 268:0:0 PM" = mkDateTime 4464 1 1 12 0 0 true.
Proof.
  apply (X22_parse_reduces_fields 1 1 70000 268 0 0 true); lia.
Defined.

(* ------------------------------------------------------------------------- *)
(** ** Chronological order *)

(** X23.  Parsed timestamps compare as the moments they denote, in either
    translation unit: among well-formed timestamps, [parse t1 < parse t2]
    exactly when [t1] is earlier, with 12 AM the first hour of the day and
    12 PM the thirteenth; and [parse t1 == parse t2] exactly when they
    denote the same moment. *)
Theorem X23_parse_chronological
        (O : DateTimeOps)
        (mm dd yyyy hh mi ss : Z) (pm : bool)
        (mm' dd' yyyy' hh' mi' ss' : Z) (pm' : bool) :
  O = PackedKey.ops \/ O = FieldByField.ops ->
  1 <= mm <= 12 -> 1 <= dd <= 31 -> 0 <= yyyy <= 9999 ->
  1 <= hh <= 12 -> 0 <= mi <= 59 -> 0 <= ss <= 59 ->
  1 <= mm' <= 12 -> 1 <= dd' <= 31 -> 0 <= yyyy' <= 9999 ->
  1 <= hh' <= 12 -> 0 <= mi' <= 59 -> 0 <= ss' <= 59 ->
  @op_lt O (parse (timestamp mm dd yyyy hh mi ss pm))
           (parse (timestamp mm' dd' yyyy' hh' mi' ss' pm'))
  = (clock mm dd yyyy hh mi ss pm <? clock mm' dd' yyyy' hh' mi' ss' pm') /\
  @op_eq O (parse (timestamp mm dd yyyy hh mi ss pm))
           (parse (timestamp mm' dd' yyyy' hh' mi' ss' pm'))
  = (clock mm dd yyyy hh mi ss pm =? clock mm' dd' yyyy' hh' mi' ss' pm').
Proof.
  intros HO Hmm Hdd Hyyyy Hhh Hmi Hss Hmm' Hdd' Hyyyy' Hhh' Hmi' Hss'.
  rewrite !timestamp_parsed by assumption.
  pose proof (hour24_range hh pm Hhh) as Hh.
  pose proof (hour24_range hh' pm' Hhh') as Hh'.
  destruct (ops_by_rank O
              (mkDateTime yyyy mm dd (hour24 hh pm) mi ss true)
              (mkDateTime yyyy' mm' dd' (hour24 hh' pm') mi' ss' true) HO)
    as [-> ->]; try reflexivity; try (unfold in_range; cbn; lia).
  unfold rank, clock. cbn [year month day hour minute second].
  generalize dependent (hour24 hh pm). generalize dependent (hour24 hh' pm').
  intros h' Hh' h Hh.
  destruct (Z.lt_total yyyy yyyy') as [L | [E | G]];
    [ split; bool_cmp | subst yyyy' | split; bool_cmp ].
  destruct (Z.lt_total mm mm') as [L | [E | G]];
    [ split; bool_cmp | subst mm' | split; bool_cmp ].
  destruct (Z.lt_total dd dd') as [L | [E | G]];
    [ split; bool_cmp | subst dd' | split; bool_cmp ].
  destruct (Z.lt_total h h') as [L | [E | G]];
    [ split; bool_cmp | subst h' | split; bool_cmp ].
  destruct (Z.lt_total mi mi') as [L | [E | G]];
    [ split; bool_cmp | subst mi' | split; bool_cmp ].
  split; bool_cmp.
Qed.

Lemma X23_parse_chronological_witness :
  @op_lt PackedKey.ops (parse "06/15/2015 12:30:00 AM")
                       (parse "06/15/2015 01:00:00 AM") = true /\
  @op_lt FieldByField.ops (parse "06/15/2015 11:59:59 AM")
                          (parse "06/15/2015 12:00:00 PM") = true.
Proof.
  destruct (X23_parse_chronological PackedKey.ops
              6 15 2015 12 30 0 false 6 15 2015 1 0 0 false
              (or_introl eq_refl)
              ltac:(lia) ltac:(lia) ltac:(lia) ltac:(lia) ltac:(lia)
              ltac:(lia) ltac:(lia) ltac:(lia) ltac:(lia) ltac:(lia)
              ltac:(lia) ltac:(lia)) as [A _].
  destruct (X23_parse_chronological FieldByField.ops
              6 15 2015 11 59 59 false 6 15 2015 12 0 0 true
              (or_intror eq_refl)
              ltac:(lia) ltac:(lia) ltac:(lia) ltac:(lia) ltac:(lia)
              ltac:(lia) ltac:(lia) ltac:(lia) ltac:(lia) ltac:(lia)
              ltac:(lia) ltac:(lia)) as [B _].
  split; [exact A | exact B].
Defined.
